(** * post_to_telegram.py: the coupon poster, embedded and verified

    The script [scripts/post_to_telegram.py] loads a JSON state file, fetches
    a coupon feed, keeps the visible and unexpired coupons, sorts them by
    date, posts the first one whose identifier is not yet recorded as
    published, and records it.

    Python values are embedded as the [json] type below, strings as lists of
    Unicode code points (so that [len] is [length]), exceptions as the
    [Raise] branch of [result], and the effects of the script (clock reads,
    prints, the state file, HTTP posts, git pushes) as a state monad over
    [world]. What a run receives from outside is an [environment]: the
    readings of the clock, the decoded answer of the feed and the answers
    of the Telegram gateway.

    The interpreter and the libraries are modelled, not verified: the [json]
    module is written out ([json_encode], [scan_once]); the functions whose
    text depends on tables or on floating point ([dateutil.parser.parse],
    [int] of a string, [repr] of a float, [str] of a value, [isoformat])
    are the fields of the class [Externals], over which every general
    theorem quantifies, with [reference_externals] as an instance to run
    concrete inputs.

    The module as a whole, which checks two environment variables when it
    is loaded and calls [main] when it is run as a script, is [script].

    A file holds text. Writing is the one place where its encoding shows:
    [save_state] opens the file for writing, which empties it, and
    [json.dump] hands the text over piece by piece; a piece with a
    character that UTF-8 cannot encode (a surrogate) raises
    [UnicodeEncodeError] and the file keeps the pieces written before it.

    An [environment] and the date parser of [Externals] are those of one
    run: the gateway can answer the same request differently in another
    run, and [dateutil] takes the parts of a date that a text leaves out
    from the current day. Properties of several runs give each run its
    own environment and parser ([runs], [with_parser]).

    Left out of the model: failures of the file system, a state file
    whose bytes are not UTF-8, a change of day during a run, the
    interpreter's limits on the number of digits of an integer conversion
    and on the depth of recursion, and the order in which a [set] is
    iterated (the set is sorted before it is used). *)

From Stdlib Require Import ZArith NArith String Ascii List Lia Bool.
From Stdlib Require Import DecimalZ DecimalFacts DecimalPos DecimalN.
From stdpp Require Import base option list gmap sorting.
Import ListNotations.

Local Open Scope Z_scope.
Set Warnings "-register-all".

(** ** Strings: sequences of code points *)

(** An ASCII literal as a Python [str]. *)
Fixpoint lit (s : string) : list N :=
  match s with
  | EmptyString => []
  | String a s' => N_of_ascii a :: lit s'
  end.
Arguments lit : simpl never.

Fixpoint str_eqb (s t : list N) : bool :=
  match s, t with
  | [], [] => true
  | a :: s', b :: t' => N.eqb a b && str_eqb s' t'
  | _, _ => false
  end.

(** Lexicographic [<] on strings, by code point. *)
Fixpoint str_ltb (s t : list N) : bool :=
  match s, t with
  | _, [] => false
  | [], _ :: _ => true
  | a :: s', b :: t' => N.ltb a b || (N.eqb a b && str_ltb s' t')
  end.

(** [str.isspace] on one character, the set used by [str.strip()]. *)
Definition is_space (c : N) : bool :=
  ((9 <=? c) && (c <=? 13) || (28 <=? c) && (c <=? 32) || (c =? 133)
   || (c =? 160) || (c =? 5760) || (8192 <=? c) && (c <=? 8202)
   || (c =? 8232) || (c =? 8233) || (c =? 8239) || (c =? 8287)
   || (c =? 12288))%N.

Fixpoint lstrip (s : list N) : list N :=
  match s with
  | c :: s' => if is_space c then lstrip s' else s
  | [] => []
  end.

(** [s.strip()] *)
Definition strip (s : list N) : list N := rev (lstrip (rev (lstrip s))).

(** A surrogate: a code point that UTF-8 does not encode. *)
Definition is_surrogate (c : N) : bool := ((55296 <=? c) && (c <=? 57343))%N.

(** Text that a file opened with [encoding="utf-8"] accepts. *)
Definition encodable (s : list N) : bool := forallb (fun c => negb (is_surrogate c)) s.

(** [sep.join(parts)] *)
Fixpoint join (sep : list N) (parts : list (list N)) : list N :=
  match parts with
  | [] => []
  | [p] => p
  | p :: ps => p ++ sep ++ join sep ps
  end.

(** ** Python values that JSON can carry *)

(** A [float]: not-a-number, an infinity, a signed zero, or the finite
    non-zero number [(-1)^neg * m * 2^e]. *)
Inductive pyfloat :=
| FNaN
| FInf (neg : bool)
| FZero (neg : bool)
| FFin (neg : bool) (m : positive) (e : Z).

Inductive json :=
| JNull
| JBool (b : bool)
| JInt (z : Z)
| JFloat (f : pyfloat)
| JStr (s : list N)
| JList (l : list json)
| JDict (kvs : list (list N * json)).

(** Exceptions. [SystemExit] is a [BaseException], which [except Exception]
    does not catch. *)
Inductive exn :=
| TypeError | ValueError | AttributeError | OverflowError | IndexError
| ParserError | JSONDecodeError | RequestException | UnicodeEncodeError
| SystemExit (code : Z).

Definition is_exception (e : exn) : bool :=
  match e with SystemExit _ => false | _ => true end.

Inductive result (A : Type) :=
| Ok (a : A)
| Raise (e : exn).
Arguments Ok {A} a.
Arguments Raise {A} e.

Definition rbind {A B} (r : result A) (k : A -> result B) : result B :=
  match r with Ok a => k a | Raise e => Raise e end.

(** A [datetime]: the wall-clock reading in microseconds since
    1970-01-01T00:00:00, and the UTC offset (microseconds) of its [tzinfo],
    [None] for a naive datetime. *)
Record datetime := { wall : Z; utcoffset : option Z }.

(** The instant of an aware datetime on the UTC time line. *)
Definition utc_instant (w o : Z) : Z := w - o.

(** What the interpreter and the third-party libraries contribute:
    [dateutil.parser.parse] on a string ([None] when it raises) as it
    reads on the day of the run, since it takes the parts of a date that
    the string leaves out from the current day; [int(str)]; the text of a
    float and back; [str(v)] as an f-string renders a value that is not a
    string; and [datetime.isoformat] of a UTC instant, which is text that
    UTF-8 encodes. *)
Class Externals := {
  dateutil_parse : list N -> option datetime;
  int_of_str : list N -> option Z;
  float_repr : pyfloat -> list N;
  float_of_literal : list N -> pyfloat;
  str_of_value : json -> list N;
  isoformat : Z -> list N;
  isoformat_text : forall now, encodable (isoformat now) = true;
}.

(** ** Built-in operations *)

(** [bool(v)] *)
Definition truthy (v : json) : bool :=
  match v with
  | JNull => false
  | JBool b => b
  | JInt z => negb (z =? 0)
  | JFloat (FZero _) => false
  | JFloat _ => true
  | JStr [] => false
  | JStr _ => true
  | JList [] => false
  | JList _ => true
  | JDict [] => false
  | JDict _ => true
  end.

(** [a or b] *)
Definition py_or (a b : json) : json := if truthy a then a else b.

(** [int(f)] for a float: truncation toward zero. *)
Definition int_of_float (f : pyfloat) : result Z :=
  match f with
  | FNaN => Raise ValueError
  | FInf _ => Raise OverflowError
  | FZero _ => Ok 0
  | FFin neg m e =>
      let a := if 0 <=? e then Z.pos m * 2 ^ e else Z.pos m / 2 ^ (- e) in
      Ok (if neg then - a else a)
  end.

(** [int(v)] *)
Definition py_int `{Externals} (v : json) : result Z :=
  match v with
  | JNull => Raise TypeError
  | JBool b => Ok (if b then 1 else 0)
  | JInt z => Ok z
  | JFloat f => int_of_float f
  | JStr s => match int_of_str s with Some z => Ok z | None => Raise ValueError end
  | JList _ | JDict _ => Raise TypeError
  end.

(** The entries of a [dict], in insertion order; [d[k]] is the first entry
    with key [k]. *)
Fixpoint dict_lookup (k : list N) (kvs : list (list N * json)) : option json :=
  match kvs with
  | [] => None
  | (k', v) :: r => if str_eqb k k' then Some v else dict_lookup k r
  end.

(** [d.get(k, default)] *)
Definition dict_get (k : list N) (default : json) (kvs : list (list N * json)) : json :=
  match dict_lookup k kvs with Some v => v | None => default end.

(** [d[k] = v]: in place when the key exists, else appended. *)
Fixpoint dict_set (k : list N) (v : json) (kvs : list (list N * json)) : list (list N * json) :=
  match kvs with
  | [] => [(k, v)]
  | (k', v') :: r => if str_eqb k k' then (k', v) :: r else (k', v') :: dict_set k v r
  end.

(** Looking up the attribute [get]: only a [dict] has it. *)
Definition attr_get (v : json) : result (list (list N * json)) :=
  match v with
  | JDict kvs => Ok kvs
  | _ => Raise AttributeError
  end.

(** ** Numbers and the built-in [set] *)

(** The value of a number on the extended line; [bool] is a subtype of
    [int]. *)
Inductive xval := XNaN | XNegInf | XPosInf | XFin (m e : Z).

Definition xval_of (v : json) : option xval :=
  match v with
  | JBool b => Some (XFin (if b then 1 else 0) 0)
  | JInt z => Some (XFin z 0)
  | JFloat FNaN => Some XNaN
  | JFloat (FInf neg) => Some (if neg then XNegInf else XPosInf)
  | JFloat (FZero _) => Some (XFin 0 0)
  | JFloat (FFin neg m e) => Some (XFin (if neg then Z.neg m else Z.pos m) e)
  | _ => None
  end.

(** Exact comparison of [m1 * 2^e1] with [m2 * 2^e2]. *)
Definition dyadic_compare (m1 e1 m2 e2 : Z) : comparison :=
  let e := Z.min e1 e2 in
  Z.compare (m1 * 2 ^ (e1 - e)) (m2 * 2 ^ (e2 - e)).

Definition xval_eqb (a b : xval) : bool :=
  match a, b with
  | XNegInf, XNegInf | XPosInf, XPosInf => true
  | XFin m1 e1, XFin m2 e2 =>
      match dyadic_compare m1 e1 m2 e2 with Eq => true | _ => false end
  | _, _ => false
  end.

Definition xval_ltb (a b : xval) : bool :=
  match a, b with
  | XNaN, _ | _, XNaN => false
  | XNegInf, XNegInf => false
  | XNegInf, _ => true
  | _, XNegInf => false
  | XPosInf, _ => false
  | _, XPosInf => true
  | XFin m1 e1, XFin m2 e2 =>
      match dyadic_compare m1 e1 m2 e2 with Lt => true | _ => false end
  end.

(** [a == b] on hashable values. *)
Definition py_eq (a b : json) : bool :=
  match xval_of a, xval_of b with
  | Some x, Some y => xval_eqb x y
  | None, None =>
      match a, b with
      | JNull, JNull => true
      | JStr s, JStr t => str_eqb s t
      | _, _ => false
      end
  | _, _ => false
  end.

(** [a < b]: numbers with numbers, strings with strings, a [TypeError]
    otherwise. *)
Definition py_lt (a b : json) : result bool :=
  match xval_of a, xval_of b with
  | Some x, Some y => Ok (xval_ltb x y)
  | None, None =>
      match a, b with
      | JStr s, JStr t => Ok (str_ltb s t)
      | _, _ => Raise TypeError
      end
  | _, _ => Raise TypeError
  end.

Definition hashable (v : json) : bool :=
  match v with JList _ | JDict _ => false | _ => true end.

Definition is_nan (v : json) : bool :=
  match v with JFloat FNaN => true | _ => false end.

(** The test of a [set] on two values with the same hash: [a is b or
    a == b]. Two values are the same object only when both are the
    not-a-number that [json] returns, which is one object of that module;
    for every other value the test is [==]. *)
Definition set_eq (a b : json) : bool := (is_nan a && is_nan b) || py_eq a b.

(** A [set] of hashable values, as the list of its members without two
    that pass this test. *)
Definition set_mem (x : json) (s : list json) : bool := existsb (set_eq x) s.

(** [s.add(x)] *)
Definition set_add (x : json) (s : list json) : list json :=
  if set_mem x s then s else s ++ [x].

(** Iterating a value: a list gives its items, a string its characters, a
    dict its keys. *)
Definition py_iter (v : json) : result (list json) :=
  match v with
  | JList l => Ok l
  | JStr s => Ok (map (fun c => JStr [c]) s)
  | JDict kvs => Ok (map (fun kv => JStr (fst kv)) kvs)
  | _ => Raise TypeError
  end.

Fixpoint set_of_items (items : list json) (acc : list json) : result (list json) :=
  match items with
  | [] => Ok acc
  | x :: r => if hashable x then set_of_items r (set_add x acc) else Raise TypeError
  end.

(** [set(v)] *)
Definition py_set (v : json) : result (list json) :=
  rbind (py_iter v) (fun items => set_of_items items []).

(** ** [sorted]: a stable sort through a [<] that can raise *)

Section Sorted.
Context {K : Type} (lt : K -> K -> result bool).

(** Insert [x], which stood before every element of [l] in the input:
    it passes the elements that are smaller and stops at the first that
    is not. *)
Fixpoint insert_sorted {A} (x : K * A) (l : list (K * A)) : result (list (K * A)) :=
  match l with
  | [] => Ok [x]
  | y :: l' =>
      rbind (lt (fst y) (fst x)) (fun b =>
        if b then rbind (insert_sorted x l') (fun r => Ok (y :: r))
        else Ok (x :: y :: l'))
  end.

Fixpoint sort_decorated {A} (l : list (K * A)) : result (list (K * A)) :=
  match l with
  | [] => Ok []
  | x :: l' => rbind (sort_decorated l') (insert_sorted x)
  end.
End Sorted.

(** ** The world the script runs in *)

(** One HTTP POST to the Telegram Bot API. *)
Inductive request :=
| SendPhoto (photo : json) (caption : list N)
| SendMessage (text : list N).

(** The lines the script prints: to stderr ([Err...]) and to stdout. *)
Inductive line :=
| ErrFetch (e : exn)
| ErrExpiry (e : exn)
| ErrSendPhoto (e : exn)
| ErrSendMessage (e : exn)
| ErrUpdate (e : exn)
| ErrNotOk (resp : option json)
| ErrGit
| OutNoCoupons
| OutNoValid
| OutAllPublished
| OutNoCoupon
| OutPosted (cid : Z)
| OutCommitted.

(** What a run is given: the readings of the clock (the [i]-th call of
    [datetime.now(timezone.utc)], in microseconds since the epoch), the
    body decoded by the GET on the feed followed by [raise_for_status] and
    [json()] ([None] when one of them raises), the same for each POST,
    whether the git commands succeed, and the configured path of the state
    file. *)
Record environment := {
  clock : nat -> Z;
  api_get : option json;
  telegram : request -> option json;
  git_ok : bool;
  STATE_FILE : list N;
}.

(** What a run changes: the text files, the number of clock readings taken,
    the printed lines, the requests posted, and the state texts committed
    and pushed. *)
Record world := {
  files : gmap (list N) (list N);
  ticks : nat;
  output : list line;
  sent : list request;
  pushed : list (list N);
}.

Definition M (A : Type) : Type := world -> result A * world.

Definition ret {A} (a : A) : M A := fun w => (Ok a, w).

Definition bind {A B} (m : M A) (k : A -> M B) : M B :=
  fun w =>
    match m w with
    | (Ok a, w') => k a w'
    | (Raise e, w') => (Raise e, w')
    end.

Notation "x <- m ;; k" := (bind m (fun x => k))
  (at level 100, m at next level, right associativity).
Notation "m ;;; k" := (bind m (fun _ => k))
  (at level 100, right associativity).

Definition raise {A} (e : exn) : M A := fun w => (Raise e, w).

Definition lift {A} (r : result A) : M A := fun w => (r, w).

(** [try: m  except Exception as e: h e] *)
Definition try_except {A} (m : M A) (h : exn -> M A) : M A :=
  fun w =>
    match m w with
    | (Raise e, w') => if is_exception e then h e w' else (Raise e, w')
    | r => r
    end.

(** [try: m  except: h], which catches every exception. *)
Definition try_bare {A} (m : M A) (h : M A) : M A :=
  fun w =>
    match m w with
    | (Raise _, w') => h w'
    | r => r
    end.

Definition print (l : line) : M unit :=
  fun w => (Ok tt, {| files := files w; ticks := ticks w; output := output w ++ [l];
                      sent := sent w; pushed := pushed w |}).

(** [sys.exit(code)] *)
Definition sys_exit {A} (code : Z) : M A := raise (SystemExit code).

Fixpoint filterM {A} (p : A -> M bool) (l : list A) : M (list A) :=
  match l with
  | [] => ret []
  | x :: l' =>
      b <- p x ;;
      r <- filterM p l' ;;
      ret (if b then x :: r else r)
  end.

Fixpoint mapM {A B} (f : A -> M B) (l : list A) : M (list B) :=
  match l with
  | [] => ret []
  | x :: l' =>
      y <- f x ;;
      r <- mapM f l' ;;
      ret (y :: r)
  end.

(** ** The [json] module: [json.dump(..., ensure_ascii=False, indent=2)] *)

Definition hex_digit (d : N) : N := (if d <? 10 then 48 + d else 87 + d)%N.

(** One character inside a string literal: the quote, the backslash and
    the control characters are escaped, everything else is copied. *)
Definition escape_char (c : N) : list N :=
  (if c =? 34 then [92; 34]
   else if c =? 92 then [92; 92]
   else if c =? 10 then [92; 110]
   else if c =? 13 then [92; 114]
   else if c =? 9 then [92; 116]
   else if c =? 8 then [92; 98]
   else if c =? 12 then [92; 102]
   else if c <? 32 then [92; 117; 48; 48; hex_digit (c / 16); hex_digit (c mod 16)]
   else [c])%N.

Definition encode_str (s : list N) : list N :=
  34%N :: flat_map escape_char s ++ [34%N].

Fixpoint codes_of_uint (u : Decimal.uint) : list N :=
  match u with
  | Decimal.Nil => []
  | Decimal.D0 u' => 48%N :: codes_of_uint u'
  | Decimal.D1 u' => 49%N :: codes_of_uint u'
  | Decimal.D2 u' => 50%N :: codes_of_uint u'
  | Decimal.D3 u' => 51%N :: codes_of_uint u'
  | Decimal.D4 u' => 52%N :: codes_of_uint u'
  | Decimal.D5 u' => 53%N :: codes_of_uint u'
  | Decimal.D6 u' => 54%N :: codes_of_uint u'
  | Decimal.D7 u' => 55%N :: codes_of_uint u'
  | Decimal.D8 u' => 56%N :: codes_of_uint u'
  | Decimal.D9 u' => 57%N :: codes_of_uint u'
  end.

(** [int.__repr__] *)
Definition int_repr (z : Z) : list N :=
  match Z.to_int z with
  | Decimal.Pos u => codes_of_uint u
  | Decimal.Neg u => 45%N :: codes_of_uint u
  end.

Definition newline_indent (level : nat) : list N :=
  10%N :: repeat 32%N (2 * level).

Definition encode_float `{Externals} (f : pyfloat) : list N :=
  match f with
  | FNaN => lit "NaN"
  | FInf false => lit "Infinity"
  | FInf true => lit "-Infinity"
  | _ => float_repr f
  end.

Fixpoint json_encode `{Externals} (level : nat) (v : json) {struct v} : list N :=
  match v with
  | JNull => lit "null"
  | JBool true => lit "true"
  | JBool false => lit "false"
  | JInt z => int_repr z
  | JFloat f => encode_float f
  | JStr s => encode_str s
  | JList [] => lit "[]"
  | JList l =>
      [91%N] ++ newline_indent (S level)
      ++ join (44%N :: newline_indent (S level)) (map (json_encode (S level)) l)
      ++ newline_indent level ++ [93%N]
  | JDict [] => lit "{}"
  | JDict kvs =>
      [123%N] ++ newline_indent (S level)
      ++ join (44%N :: newline_indent (S level))
           (map (fun kv => encode_str (fst kv) ++ [58%N; 32%N] ++ json_encode (S level) (snd kv)) kvs)
      ++ newline_indent level ++ [125%N]
  end.

Definition json_dumps `{Externals} (v : json) : list N := json_encode 0 v.

(** Whether the encoder descends into [v]: a list or a mapping. *)
Definition is_container (v : json) : bool :=
  match v with JList _ | JDict _ => true | _ => false end.

(** The pieces in which [json.dump] hands the text to the file, one
    [write] each. In a list, the text of an item that is no container is
    in one piece with the bracket or the separator before it; in a
    mapping, a key, the colon and a value that is no container are pieces
    of their own. *)
Fixpoint item_chunks (chunks : json -> list (list N)) (text : json -> list N)
    (sep buf : list N) (l : list json) : list (list N) :=
  match l with
  | [] => []
  | y :: l' =>
      (if is_container y then buf :: chunks y else [buf ++ text y])
      ++ item_chunks chunks text sep sep l'
  end.

Fixpoint member_chunks (chunks : json -> list (list N)) (text : json -> list N)
    (sep : list N) (first : bool) (kvs : list (list N * json)) : list (list N) :=
  match kvs with
  | [] => []
  | kv :: r =>
      (if first then [] else [sep]) ++ [encode_str (fst kv); [58%N; 32%N]]
      ++ (if is_container (snd kv) then chunks (snd kv) else [text (snd kv)])
      ++ member_chunks chunks text sep false r
  end.

Fixpoint json_chunks `{Externals} (level : nat) (v : json) {struct v} : list (list N) :=
  match v with
  | JList [] => [lit "[]"]
  | JList l =>
      item_chunks (json_chunks (S level)) (json_encode (S level))
        (44%N :: newline_indent (S level)) ([91%N] ++ newline_indent (S level)) l
      ++ [newline_indent level; [93%N]]
  | JDict [] => [lit "{}"]
  | JDict kvs =>
      [[123%N]; newline_indent (S level)]
      ++ member_chunks (json_chunks (S level)) (json_encode (S level))
           (44%N :: newline_indent (S level)) true kvs
      ++ [newline_indent level; [125%N]]
  | _ => [json_encode level v]
  end.

(** The pieces that reach a file opened with [encoding="utf-8"]: those
    before the first one that UTF-8 cannot encode. *)
Fixpoint written (chunks : list (list N)) : list (list N) :=
  match chunks with
  | [] => []
  | c :: r => if encodable c then c :: written r else []
  end.

(** ** The [json] module: [json.load] *)

Definition is_ws (c : N) : bool :=
  ((c =? 32) || (c =? 9) || (c =? 10) || (c =? 13))%N.

Fixpoint skip_ws (s : list N) : list N :=
  match s with
  | c :: r => if is_ws c then skip_ws r else s
  | [] => []
  end.

Fixpoint strip_prefix (p s : list N) : option (list N) :=
  match p, s with
  | [], _ => Some s
  | a :: p', b :: s' => if (a =? b)%N then strip_prefix p' s' else None
  | _ :: _, [] => None
  end.

Definition hex_value (c : N) : option N :=
  (if (48 <=? c) && (c <=? 57) then Some (c - 48)
   else if (97 <=? c) && (c <=? 102) then Some (c - 87)
   else if (65 <=? c) && (c <=? 70) then Some (c - 55)
   else None)%N.

Definition hex4 (a b c d : N) : option N :=
  match hex_value a, hex_value b, hex_value c, hex_value d with
  | Some x, Some y, Some z, Some t => Some (((x * 16 + y) * 16 + z) * 16 + t)%N
  | _, _, _, _ => None
  end.

Definition unescape (c : N) : option N :=
  (if c =? 34 then Some 34
   else if c =? 92 then Some 92
   else if c =? 47 then Some 47
   else if c =? 98 then Some 8
   else if c =? 102 then Some 12
   else if c =? 110 then Some 10
   else if c =? 114 then Some 13
   else if c =? 116 then Some 9
   else None)%N.

(** The low half of a surrogate pair written as a second [\uXXXX]. *)
Definition low_surrogate (s : list N) : option (N * list N) :=
  match s with
  | b :: u :: h1 :: h2 :: h3 :: h4 :: r =>
      if ((b =? 92) && (u =? 117))%N then
        match hex4 h1 h2 h3 h4 with
        | Some lo => if ((56320 <=? lo) && (lo <=? 57343))%N then Some (lo, r) else None
        | None => None
        end
      else None
  | _ => None
  end.

(** The body of a string literal, after its opening quote, up to and
    including the closing quote. *)
Fixpoint scan_string (s : list N) : option (list N * list N) :=
  match s with
  | [] => None
  | c :: r =>
      if (c =? 34)%N then Some ([], r)
      else if (c =? 92)%N then
        match r with
        | [] => None
        | e :: r1 =>
            if (e =? 117)%N then
              match r1 with
              | h1 :: h2 :: h3 :: h4 :: r2 =>
                  match hex4 h1 h2 h3 h4 with
                  | None => None
                  | Some hi =>
                      if ((55296 <=? hi) && (hi <=? 56319))%N then
                        match r2 with
                        | b :: u :: l1 :: l2 :: l3 :: l4 :: r3 =>
                            match low_surrogate r2 with
                            | Some (lo, _) =>
                                match scan_string r3 with
                                | Some (t, rest) =>
                                    Some ((65536 + (hi - 55296) * 1024 + (lo - 56320))%N :: t, rest)
                                | None => None
                                end
                            | None =>
                                match scan_string r2 with
                                | Some (t, rest) => Some (hi :: t, rest)
                                | None => None
                                end
                            end
                        | _ =>
                            match scan_string r2 with
                            | Some (t, rest) => Some (hi :: t, rest)
                            | None => None
                            end
                        end
                      else
                        match scan_string r2 with
                        | Some (t, rest) => Some (hi :: t, rest)
                        | None => None
                        end
                  end
              | _ => None
              end
            else
              match unescape e with
              | None => None
              | Some ch =>
                  match scan_string r1 with
                  | Some (t, rest) => Some (ch :: t, rest)
                  | None => None
                  end
              end
        end
      else if (c <? 32)%N then None
      else
        match scan_string r with
        | Some (t, rest) => Some (c :: t, rest)
        | None => None
        end
  end.

Definition is_digit (c : N) : bool := ((48 <=? c) && (c <=? 57))%N.

Fixpoint span_digits (s : list N) : list N * list N :=
  match s with
  | c :: r =>
      if is_digit c then let (d, t) := span_digits r in (c :: d, t) else ([], s)
  | [] => ([], [])
  end.

Fixpoint uint_of_digits (l : list N) : Decimal.uint :=
  match l with
  | [] => Decimal.Nil
  | c :: r =>
      let u := uint_of_digits r in
      (if c =? 48 then Decimal.D0 u else if c =? 49 then Decimal.D1 u
       else if c =? 50 then Decimal.D2 u else if c =? 51 then Decimal.D3 u
       else if c =? 52 then Decimal.D4 u else if c =? 53 then Decimal.D5 u
       else if c =? 54 then Decimal.D6 u else if c =? 55 then Decimal.D7 u
       else if c =? 56 then Decimal.D8 u else Decimal.D9 u)%N
  end.

(** [int(text)] on the text matched as an integer. *)
Definition int_of_literal (l : list N) : Z :=
  match l with
  | c :: r =>
      if (c =? 45)%N then - Z.of_uint (uint_of_digits r) else Z.of_uint (uint_of_digits l)
  | [] => 0
  end.

(** The three groups of the decoder's number pattern: an optional minus
    sign and either a lone zero or a digit from 1 to 9 followed by digits;
    optionally a dot and at least one digit; optionally [e] or [E], a sign
    and at least one digit. *)
Definition scan_integer (s : list N) : option (list N * list N) :=
  let '(sign, s1) :=
    match s with
    | c :: r => if (c =? 45)%N then ([45%N], r) else ([], s)
    | [] => ([], s)
    end in
  match s1 with
  | c :: r =>
      if (c =? 48)%N then Some (sign ++ [48%N], r)
      else if is_digit c then let (d, t) := span_digits r in Some (sign ++ c :: d, t)
      else None
  | [] => None
  end.

Definition scan_frac (s : list N) : list N * list N :=
  match s with
  | c :: r =>
      if (c =? 46)%N then
        match span_digits r with
        | ([], _) => ([], s)
        | (d, t) => (46%N :: d, t)
        end
      else ([], s)
  | [] => ([], s)
  end.

Definition scan_exp (s : list N) : list N * list N :=
  match s with
  | c :: r =>
      if ((c =? 101) || (c =? 69))%N then
        let '(sg, r1) :=
          match r with
          | x :: r' => if ((x =? 45) || (x =? 43))%N then ([x], r') else ([], r)
          | [] => ([], r)
          end in
        match span_digits r1 with
        | ([], _) => ([], s)
        | (d, t) => (c :: sg ++ d, t)
        end
      else ([], s)
  | [] => ([], s)
  end.

Definition scan_number `{Externals} (s : list N) : option (json * list N) :=
  match scan_integer s with
  | None => None
  | Some (i, r) =>
      let (f, r1) := scan_frac r in
      let (e, r2) := scan_exp r1 in
      match f ++ e with
      | [] => Some (JInt (int_of_literal i), r2)
      | _ => Some (JFloat (float_of_literal (i ++ f ++ e)), r2)
      end
  end.

(** The literals and numbers, tried in the scanner's order. *)
Definition scan_atom `{Externals} (s : list N) : option (json * list N) :=
  match strip_prefix (lit "null") s with
  | Some r => Some (JNull, r)
  | None =>
  match strip_prefix (lit "true") s with
  | Some r => Some (JBool true, r)
  | None =>
  match strip_prefix (lit "false") s with
  | Some r => Some (JBool false, r)
  | None =>
  match scan_number s with
  | Some res => Some res
  | None =>
  match strip_prefix (lit "NaN") s with
  | Some r => Some (JFloat FNaN, r)
  | None =>
  match strip_prefix (lit "Infinity") s with
  | Some r => Some (JFloat (FInf false), r)
  | None =>
  match strip_prefix (lit "-Infinity") s with
  | Some r => Some (JFloat (FInf true), r)
  | None => None
  end end end end end end end.

(** [dict(pairs)]: a repeated key keeps its first position and takes the
    last value. *)
Definition dict_of_pairs (pairs : list (list N * json)) : list (list N * json) :=
  fold_left (fun d kv => dict_set (fst kv) (snd kv) d) pairs [].

(** The recursive scanner. [n] bounds the nesting and the number of items
    scanned; [json_loads] gives it more than the length of the text. *)
Fixpoint scan_once `{Externals} (n : nat) (s : list N) : option (json * list N) :=
  match n with
  | O => None
  | S n' =>
      match s with
      | [] => None
      | c :: r =>
          if (c =? 34)%N then
            match scan_string r with
            | Some (t, rest) => Some (JStr t, rest)
            | None => None
            end
          else if (c =? 123)%N then
            match skip_ws r with
            | c1 :: r1 =>
                if (c1 =? 125)%N then Some (JDict [], r1)
                else if (c1 =? 34)%N then scan_members n' r1 []
                else None
            | [] => None
            end
          else if (c =? 91)%N then
            match skip_ws r with
            | c1 :: r1 =>
                if (c1 =? 93)%N then Some (JList [], r1)
                else scan_items n' (c1 :: r1) []
            | [] => None
            end
          else scan_atom s
      end
  end
with scan_items `{Externals} (n : nat) (s : list N) (acc : list json) : option (json * list N) :=
  match n with
  | O => None
  | S n' =>
      match scan_once n' s with
      | None => None
      | Some (v, r) =>
          match skip_ws r with
          | c :: r1 =>
              if (c =? 93)%N then Some (JList (rev (v :: acc)), r1)
              else if (c =? 44)%N then scan_items n' (skip_ws r1) (v :: acc)
              else None
          | [] => None
          end
      end
  end
with scan_members `{Externals} (n : nat) (s : list N) (acc : list (list N * json)) : option (json * list N) :=
  match n with
  | O => None
  | S n' =>
      match scan_string s with
      | None => None
      | Some (k, r) =>
          match skip_ws r with
          | c :: r1 =>
              if (c =? 58)%N then
                match scan_once n' (skip_ws r1) with
                | None => None
                | Some (v, r2) =>
                    match skip_ws r2 with
                    | c2 :: r3 =>
                        if (c2 =? 125)%N then
                          Some (JDict (dict_of_pairs (rev ((k, v) :: acc))), r3)
                        else if (c2 =? 44)%N then
                          match skip_ws r3 with
                          | c3 :: r4 =>
                              if (c3 =? 34)%N then scan_members n' r4 ((k, v) :: acc)
                              else None
                          | [] => None
                          end
                        else None
                    | [] => None
                    end
                end
              else None
          | [] => None
          end
      end
  end.

(** [json.loads(text)]: one value between optional white space, and
    nothing after it. *)
Definition json_loads `{Externals} (text : list N) : result json :=
  if match text with c :: _ => (c =? 65279)%N | [] => false end
  then Raise JSONDecodeError
  else
    match scan_once (S (length text)) (skip_ws text) with
    | Some (v, r) =>
        match skip_ws r with
        | [] => Ok v
        | _ :: _ => Raise JSONDecodeError
        end
    | None => Raise JSONDecodeError
    end.

(** ** The script *)

Definition TELEGRAM_CAPTION_MAX : nat := 1000.

Section Script.
Context `{Externals} (env : environment).

(** [datetime.now(timezone.utc)]: the next reading of the clock. *)
Definition utcnow : M Z :=
  fun w => (Ok (clock env (ticks w)),
            {| files := files w; ticks := S (ticks w); output := output w;
               sent := sent w; pushed := pushed w |}).

(** [date_parser.parse(v)]: a value that is not a string is a
    [TypeError]. *)
Definition date_parse (v : json) : result datetime :=
  match v with
  | JStr s =>
      match dateutil_parse s with
      | Some dt => Ok dt
      | None => Raise ParserError
      end
  | _ => Raise TypeError
  end.

Definition fresh_state : json :=
  JDict [(lit "published_ids", JList []); (lit "last_run", JNull)].

Definition load_state (path : list N) : M json :=
  fun w =>
    match files w !! path with
    | None => (Ok fresh_state, w)
    | Some text => (json_loads text, w)
    end.

(** The file is opened for writing and the pieces of the text are
    written in turn; at a piece that UTF-8 cannot encode the write raises
    and the file, closed by the [with], keeps the pieces before it. *)
Definition save_state (path : list N) (state : json) : M unit :=
  fun w =>
    let chunks := json_chunks 0 state in
    (if forallb encodable chunks then Ok tt else Raise UnicodeEncodeError,
     {| files := <[path := concat (written chunks)]> (files w);
        ticks := ticks w; output := output w;
        sent := sent w; pushed := pushed w |}).

(** The git commands either all succeed, and the file's text is pushed,
    or one fails and the failure is printed. *)
Definition git_commit_and_push (path : list N) : M unit :=
  fun w =>
    if git_ok env then
      print OutCommitted
        {| files := files w; ticks := ticks w; output := output w; sent := sent w;
           pushed := pushed w ++ match files w !! path with Some t => [t] | None => [] end |}
    else print ErrGit w.

(** The loop over [data.values()]. *)
Fixpoint first_list (vs : list json) : list json :=
  match vs with
  | [] => []
  | JList l :: _ => l
  | _ :: r => first_list r
  end.

Definition fetch_coupons : M (list json) :=
  try_except
    (match api_get env with
     | None => raise RequestException
     | Some data =>
         match data with
         | JDict d =>
             match dict_lookup (lit "data") d with
             | Some (JList l) => ret l
             | _ => ret (first_list (map snd d))
             end
         | JList l => ret l
         | _ => ret []
         end
     end)
    (fun e => print (ErrFetch e) ;;; ret []).

Definition is_valid_coupon (coupon : json) : M bool :=
  try_except
    (d <- lift (attr_get coupon) ;;
     visible <- lift (py_int (dict_get (lit "is_visible") (JInt 0) d)) ;;
     if negb (visible =? 1) then ret false
     else
       let expires := dict_get (lit "expires_at") JNull d in
       if negb (truthy expires) then ret true
       else
         dt <- lift (date_parse expires) ;;
         let offset := match utcoffset dt with None => 0 | Some o => o end in
         now <- utcnow ;;
         ret (now <? utc_instant (wall dt) offset))
    (fun e => print (ErrExpiry e) ;;; ret false).

(** The text an f-string puts for [{v}]. *)
Definition format_value (v : json) : list N :=
  match v with
  | JStr s => s
  | _ => str_of_value v
  end.

(** [v = c.get(k) or ""] and, when [v] is truthy, the line with its
    prefix and an empty line. *)
Definition field_lines (prefix k : list N) (d : list (list N * json)) : list (list N) :=
  let v := py_or (dict_get k JNull d) (JStr []) in
  if truthy v then [prefix ++ format_value v; []] else [].

Definition caption_parts (d : list (list N * json)) : list (list N) :=
  (field_lines [127881; 32] (lit "title") d
   ++ field_lines [128293; 32] (lit "discount_text") d
   ++ field_lines [127873; 32; 1575; 1604; 1603; 1608; 1576; 1608; 1606; 32; 58; 32]
        (lit "code") d
   ++ field_lines [127757; 32; 1589; 1575; 1604; 1581; 32; 1604; 1600; 32; 58; 32]
        (lit "countries") d
   ++ field_lines [128204; 32; 1605; 1604; 1575; 1581; 1592; 1577; 32; 58; 32]
        (lit "note") d
   ++ field_lines [9203; 32; 1610; 1606; 1578; 1607; 1610; 32; 1601; 1610; 32; 58; 32]
        (lit "expires_at") d
   ++ field_lines [128722; 32; 1585; 1575; 1576; 1591; 32; 1575; 1604; 1588; 1585;
                   1575; 1569; 32; 58; 32]
        (lit "purchase_link") d
   ++ [[128142; 32; 1604; 1605; 1586; 1610; 1583; 32; 1605; 1606; 32; 1575; 1604;
        1603; 1608; 1576; 1608; 1606; 1575; 1578; 32; 1586; 1608; 1585; 1608; 1575;
        32; 1605; 1608; 1602; 1593; 1606; 1575; 32; 58];
       [];
       lit " https://receivecoupons.com/"])%N.

(** The caption before the length check: the parts joined by newlines
    and stripped. *)
Definition caption_text (d : list (list N * json)) : list N :=
  strip (join [10%N] (caption_parts d)).

Definition truncate_caption (caption : list N) : list N :=
  if (TELEGRAM_CAPTION_MAX <? length caption)%nat
  then take (TELEGRAM_CAPTION_MAX - 3) caption ++ lit "..."
  else caption.

Definition make_caption (c : json) : result (list N) :=
  rbind (attr_get c) (fun d => Ok (truncate_caption (caption_text d))).

(** [requests.post(...)], [raise_for_status()] and [json()]; any
    exception is printed and gives [None]. *)
Definition post (req : request) (failed : exn -> line) : M (option json) :=
  fun w =>
    let w' := {| files := files w; ticks := ticks w; output := output w;
                 sent := sent w ++ [req]; pushed := pushed w |} in
    match telegram env req with
    | Some r => (Ok (Some r), w')
    | None => (print (failed RequestException) ;;; ret None) w'
    end.

Definition post_to_telegram_photo (photo_url : json) (caption : list N) : M (option json) :=
  post (SendPhoto photo_url caption) ErrSendPhoto.

(** The sort key of [main]. *)
Definition sort_key (c : json) : M datetime :=
  try_bare
    (d <- lift (attr_get c) ;;
     lift (date_parse (py_or (dict_get (lit "created_at") JNull d)
                        (py_or (dict_get (lit "expires_at") JNull d)
                           (JStr (lit "1970-01-01"))))))
    (now <- utcnow ;; ret {| wall := now; utcoffset := Some 0 |}).

(** [a < b] on datetimes: two naive ones by their wall clock, two aware
    ones by their instant, a [TypeError] for one of each. *)
Definition datetime_lt (a b : datetime) : result bool :=
  match utcoffset a, utcoffset b with
  | None, None => Ok (wall a <? wall b)
  | Some oa, Some ob => Ok (utc_instant (wall a) oa <? utc_instant (wall b) ob)
  | _, _ => Raise TypeError
  end.

(** [sorted(valid, key=sort_key)]: the keys are computed first, in
    order. *)
Definition sorted_by_key (valid : list json) : M (list json) :=
  keys <- mapM sort_key valid ;;
  r <- lift (sort_decorated datetime_lt (combine keys valid)) ;;
  ret (map snd r).

(** [sorted(list(s))] *)
Definition py_sorted (s : list json) : result (list json) :=
  rbind (sort_decorated py_lt (map (fun v => (v, v)) s)) (fun r => Ok (map snd r)).

(** [int(c.get("coupon_id") or c.get("id") or 0)] *)
Definition coupon_cid (c : json) : result Z :=
  rbind (attr_get c) (fun d =>
    py_int (py_or (dict_get (lit "coupon_id") JNull d)
              (py_or (dict_get (lit "id") JNull d) (JInt 0)))).

(** The loop that finds the next unposted coupon. *)
Fixpoint next_unposted (published_ids : list json) (l : list json) : result (option json) :=
  match l with
  | [] => Ok None
  | c :: r =>
      rbind (coupon_cid c) (fun cid =>
        if negb (set_mem (JInt cid) published_ids) then Ok (Some c)
        else next_unposted published_ids r)
  end.

(** The first part of [main]: the valid coupons, sorted, and the next
    one to post, with the published set and the state as they are after
    a possible reset. *)
Definition select_coupon (coupons : list json) (published_ids : list json)
    (state : list (list N * json)) : M (list json * list (list N * json) * json) :=
  valid <- filterM is_valid_coupon coupons ;;
  match valid with
  | [] => print OutNoValid ;;; sys_exit 0
  | _ :: _ =>
      valid_sorted <- sorted_by_key valid ;;
      next_coupon <- lift (next_unposted published_ids valid_sorted) ;;
      match next_coupon with
      | Some c => ret (published_ids, state, c)
      | None =>
          print OutAllPublished ;;;
          match valid_sorted with
          | c :: _ => ret ([], dict_set (lit "published_ids") (JList []) state, c)
          | [] => raise IndexError
          end
      end
  end.

(** The second part: the photo or the message is posted. *)
Definition deliver (next_coupon : json) : M (option json) :=
  d <- lift (attr_get next_coupon) ;;
  store <- lift (attr_get (dict_get (lit "store") (JDict []) d)) ;;
  let photo_url :=
    py_or (dict_get (lit "logo_url") JNull store)
      (py_or (dict_get (lit "logo_url") JNull d) (JStr [])) in
  caption <- lift (make_caption next_coupon) ;;
  if truthy photo_url then post_to_telegram_photo photo_url caption
  else post (SendMessage caption) ErrSendMessage.

(** [resp and resp.get("ok")], as a condition. *)
Definition confirmed (resp : option json) : result bool :=
  match resp with
  | None => Ok false
  | Some r =>
      if truthy r then rbind (attr_get r) (fun d => Ok (truthy (dict_get (lit "ok") JNull d)))
      else Ok false
  end.

(** The third part: the coupon is marked as published and the state is
    saved and committed. *)
Definition record_published (next_coupon : json) (published_ids : list json)
    (state : list (list N * json)) : M unit :=
  try_except
    (cid <- lift (coupon_cid next_coupon) ;;
     let published_ids := set_add (JInt cid) published_ids in
     ids <- lift (py_sorted published_ids) ;;
     let state := dict_set (lit "published_ids") (JList ids) state in
     now <- utcnow ;;
     let state := dict_set (lit "last_run") (JStr (isoformat now)) state in
     save_state (STATE_FILE env) (JDict state) ;;;
     print (OutPosted cid) ;;;
     git_commit_and_push (STATE_FILE env))
    (fun e => print (ErrUpdate e)).

(** The end of [main]: post, then record or fail. *)
Definition post_and_record (next_coupon : json) (published_ids : list json)
    (state : list (list N * json)) : M unit :=
  resp <- deliver next_coupon ;;
  ok <- lift (confirmed resp) ;;
  if ok then record_published next_coupon published_ids state
  else print (ErrNotOk resp) ;;; sys_exit 1.

Definition main : M unit :=
  state <- load_state (STATE_FILE env) ;;
  state <- lift (attr_get state) ;;
  published_ids <- lift (py_set (dict_get (lit "published_ids") (JList []) state)) ;;
  coupons <- fetch_coupons ;;
  match coupons with
  | [] => print OutNoCoupons ;;; sys_exit 0
  | _ :: _ =>
      sel <- select_coupon coupons published_ids state ;;
      let '(published_ids, state, next_coupon) := sel in
      if negb (truthy next_coupon) then print OutNoCoupon ;;; sys_exit 0
      else post_and_record next_coupon published_ids state
  end.

(** The exit status of the process: 0 when [main] returns, the code of
    [sys.exit], 1 for an exception that nothing caught. *)
Definition exit_code (r : result unit) : Z :=
  match r with
  | Ok _ => 0
  | Raise (SystemExit code) => code
  | Raise _ => 1
  end.
End Script.

(** ** The module, from its first line to the call of [main] *)

(** The two variables that the module reads with [os.getenv] and checks
    when it is loaded: the text of the variable, or [None]. *)
Record config := {
  TELEGRAM_BOT_TOKEN : option (list N);
  TELEGRAM_CHAT_ID : option (list N);
}.

(** [not v] for what [os.getenv] returns: true for [None] and for the
    empty text. *)
Definition unset (v : option (list N)) : bool :=
  match v with
  | None | Some [] => true
  | Some (_ :: _) => false
  end.

(** What the process did: it stopped when the module was loaded, with the
    message about the two variables on stderr and [sys.exit(2)], before
    anything else; or it ran [main]. *)
Inductive outcome :=
| ConfigurationError
| Ran (r : result unit) (w : world).

(** The module run as a script. *)
Definition script `{Externals} (cfg : config) (env : environment) (w : world) : outcome :=
  if unset (TELEGRAM_BOT_TOKEN cfg) || unset (TELEGRAM_CHAT_ID cfg)
  then ConfigurationError
  else let (r, w') := main env w in Ran r w'.

(** The exit status of the process. *)
Definition status (o : outcome) : Z :=
  match o with
  | ConfigurationError => 2
  | Ran r _ => exit_code r
  end.

(** ** A reference implementation of the externals

    Used to run the script on concrete inputs. It follows CPython and
    dateutil on ASCII decimal integers, on floats, and on the ISO-8601 date
    forms listed at [iso_parse]. *)

(** Decimal digits to a number. *)
Fixpoint number_of (l : list N) (acc : Z) : option Z :=
  match l with
  | [] => Some acc
  | c :: r => if is_digit c then number_of r (10 * acc + Z.of_N (c - 48)) else None
  end.

Definition is_leap (y : Z) : bool :=
  (y mod 4 =? 0) && (negb (y mod 100 =? 0) || (y mod 400 =? 0)).

Definition days_in_month (y m : Z) : Z :=
  if m =? 2 then (if is_leap y then 29 else 28)
  else if (m =? 4) || (m =? 6) || (m =? 9) || (m =? 11) then 30 else 31.

(** Days from 1970-01-01 to the given date of the proleptic Gregorian
    calendar. *)
Definition days_from_civil (y m d : Z) : Z :=
  let y' := if m <=? 2 then y - 1 else y in
  let era := y' / 400 in
  let yoe := y' - era * 400 in
  let doy := (153 * (if 2 <? m then m - 3 else m + 9) + 2) / 5 + d - 1 in
  let doe := yoe * 365 + yoe / 4 - yoe / 100 + doy in
  era * 146097 + doe - 719468.

Definition civil_from_days (z : Z) : Z * Z * Z :=
  let z := z + 719468 in
  let era := z / 146097 in
  let doe := z - era * 146097 in
  let yoe := (doe - doe / 1460 + doe / 36524 - doe / 146096) / 365 in
  let y := yoe + era * 400 in
  let doy := doe - (365 * yoe + yoe / 4 - yoe / 100) in
  let mp := (5 * doy + 2) / 153 in
  let d := doy - (153 * mp + 2) / 5 + 1 in
  let m := if mp <? 10 then mp + 3 else mp - 9 in
  (if m <=? 2 then y + 1 else y, m, d).

Definition usec_per_day : Z := 86400000000.

(** [YYYY-MM-DD]: the microseconds from the epoch to the start of the
    day, and the rest of the text. *)
Definition iso_date (s : list N) : option (Z * list N) :=
  match s with
  | y1 :: y2 :: y3 :: y4 :: h1 :: m1 :: m2 :: h2 :: g1 :: g2 :: rest =>
      if ((h1 =? 45) && (h2 =? 45))%N then
        match number_of [y1; y2; y3; y4] 0, number_of [m1; m2] 0, number_of [g1; g2] 0 with
        | Some y, Some m, Some d =>
            if (1 <=? y) && (1 <=? m) && (m <=? 12) && (1 <=? d) && (d <=? days_in_month y m)
            then Some (days_from_civil y m d * usec_per_day, rest)
            else None
        | _, _, _ => None
        end
      else None
  | _ => None
  end.

(** [HH:MM:SS]: the microseconds since the start of the day. *)
Definition iso_clock (s : list N) : option (Z * list N) :=
  match s with
  | a1 :: a2 :: c1 :: b1 :: b2 :: c2 :: s1 :: s2 :: rest =>
      if ((c1 =? 58) && (c2 =? 58))%N then
        match number_of [a1; a2] 0, number_of [b1; b2] 0, number_of [s1; s2] 0 with
        | Some h, Some mi, Some se =>
            if (h <=? 23) && (mi <=? 59) && (se <=? 59)
            then Some (((h * 60 + mi) * 60 + se) * 1000000, rest)
            else None
        | _, _, _ => None
        end
      else None
  | _ => None
  end.

(** Nothing, [Z], or [+HH:MM] / [-HH:MM]. *)
Definition iso_zone (s : list N) : option (option Z) :=
  match s with
  | [] => Some None
  | [z] => if (z =? 90)%N then Some (Some 0) else None
  | [sg; a1; a2; c; b1; b2] =>
      if (((sg =? 43) || (sg =? 45)) && (c =? 58))%N then
        match number_of [a1; a2] 0, number_of [b1; b2] 0 with
        | Some h, Some mi =>
            if (h <=? 23) && (mi <=? 59)
            then Some (Some ((if (sg =? 45)%N then -1 else 1) * (h * 60 + mi) * 60000000))
            else None
        | _, _ => None
        end
      else None
  | _ => None
  end.

(** [dateutil.parser.parse] on the ISO-8601 forms [YYYY-MM-DD] and
    [YYYY-MM-DD HH:MM:SS] (also with [T]), with an optional [Z] or numeric
    offset. Other texts are rejected here; dateutil rejects those that hold
    no date and reads more forms of dates than these. *)
Definition iso_parse (s : list N) : option datetime :=
  match iso_date s with
  | None => None
  | Some (day, []) => Some {| wall := day; utcoffset := None |}
  | Some (day, sep :: r) =>
      if ((sep =? 32) || (sep =? 84))%N then
        match iso_clock r with
        | Some (t, z) =>
            match iso_zone z with
            | Some off => Some {| wall := day + t; utcoffset := off |}
            | None => None
            end
        | None => None
        end
      else None
  end.

(** [num / den] rounded to the nearest integer, ties to even. *)
Definition round_half_even (num den : Z) : Z :=
  let q := num / den in
  let r := num mod den in
  match Z.compare (2 * r) den with
  | Lt => q
  | Gt => q + 1
  | Eq => if Z.even q then q else q + 1
  end.

(** The binary64 nearest to the positive rational [num / den]. *)
Definition round_binary64 (neg : bool) (num den : Z) : pyfloat :=
  if num =? 0 then FZero neg
  else
    let e0 := Z.log2 num - Z.log2 den - 52 in
    let floor_at e := if 0 <=? e then num / (den * 2 ^ e) else (num * 2 ^ (- e)) / den in
    let e1 := if floor_at e0 <? 2 ^ 52 then e0 - 1 else e0 in
    let e := Z.max e1 (-1074) in
    let m := if 0 <=? e then round_half_even num (den * 2 ^ e)
             else round_half_even (num * 2 ^ (- e)) den in
    if m =? 0 then FZero neg
    else if (971 <? e) || ((e =? 971) && (2 ^ 53 <=? m)) then FInf neg
    else FFin neg (Z.to_pos m) e.

(** [m * 10^k] as a fraction. *)
Definition decimal_fraction (m k : Z) : Z * Z :=
  if 0 <=? k then (m * 10 ^ k, 1) else (m, 10 ^ (- k)).

(** [float(text)] on the text of a JSON number. *)
Definition ref_float_of_literal (text : list N) : pyfloat :=
  let '(neg, t) :=
    match text with
    | c :: r => if (c =? 45)%N then (true, r) else (false, text)
    | [] => (false, text)
    end in
  let (i, t1) := span_digits t in
  let (f, t2) :=
    match t1 with
    | c :: r => if (c =? 46)%N then span_digits r else ([], t1)
    | [] => ([], t1)
    end in
  let x :=
    match t2 with
    | _ :: c :: r =>
        if (c =? 45)%N then - default 0 (number_of r 0)
        else if (c =? 43)%N then default 0 (number_of r 0)
        else default 0 (number_of (c :: r) 0)
    | _ => 0
    end in
  let m := default 0 (number_of (i ++ f) 0) in
  let (num, den) := decimal_fraction m (x - Z.of_nat (length f)) in
  round_binary64 neg num den.

(** Is [10^g <= num / den]? *)
Definition pow10_le (g num den : Z) : bool :=
  if 0 <=? g then 10 ^ g * den <=? num else den <=? num * 10 ^ (- g).

Fixpoint lower_log10 (fuel : nat) (g num den : Z) : Z :=
  match fuel with
  | O => g
  | S n => if pow10_le g num den then g else lower_log10 n (g - 1) num den
  end.

Fixpoint raise_log10 (fuel : nat) (g num den : Z) : Z :=
  match fuel with
  | O => g
  | S n => if pow10_le (g + 1) num den then raise_log10 n (g + 1) num den else g
  end.

(** The floor of the decimal logarithm of [num / den]. *)
Definition floor_log10 (num den : Z) : Z :=
  let g := ((Z.log2 num - Z.log2 den) * 30103) / 100000 in
  raise_log10 8 (lower_log10 8 g num den) num den.

(** The shortest digits that read back as [m * 2^e]: the digit string as
    a number, its length, and the position of the decimal point. *)
Fixpoint shortest_digits (fuel : nat) (n : Z) (m : positive) (e : Z) (k10 : Z) : Z * Z * Z :=
  let (num, den) := if 0 <=? e then (Z.pos m * 2 ^ e, 1) else (Z.pos m, 2 ^ (- e)) in
  let p := k10 - n + 1 in
  let dr := if 0 <=? p then round_half_even num (den * 10 ^ p)
            else round_half_even (num * 10 ^ (- p)) den in
  let '(d, p) := if 10 ^ n <=? dr then (10 ^ (n - 1), p + 1) else (dr, p) in
  match fuel with
  | O => (d, n, p + n)
  | S fuel' =>
      let (a, b) := decimal_fraction d p in
      match round_binary64 false a b with
      | FFin _ m' e' =>
          match dyadic_compare (Z.pos m) e (Z.pos m') e' with
          | Eq => (d, n, p + n)
          | _ => shortest_digits fuel' (n + 1) m e k10
          end
      | _ => shortest_digits fuel' (n + 1) m e k10
      end
  end.

Fixpoint digits_of (fuel : nat) (z : Z) (acc : list N) : list N :=
  match fuel with
  | O => acc
  | S n => if z <? 10 then Z.to_N (48 + z) :: acc
           else digits_of n (z / 10) (Z.to_N (48 + z mod 10) :: acc)
  end.

(** The decimal digits of a natural number. *)
Definition decimal (z : Z) : list N := digits_of (Z.to_nat (Z.log2 z) + 1) z [].

Definition pad2 (z : Z) : list N :=
  if z <? 10 then 48%N :: decimal z else decimal z.

(** [repr(f)] *)
Definition ref_float_repr (f : pyfloat) : list N :=
  match f with
  | FNaN => lit "nan"
  | FInf neg => if neg then lit "-inf" else lit "inf"
  | FZero neg => if neg then lit "-0.0" else lit "0.0"
  | FFin neg m e =>
      let (num, den) := if 0 <=? e then (Z.pos m * 2 ^ e, 1) else (Z.pos m, 2 ^ (- e)) in
      let '(d, n, decpt) := shortest_digits 17 1 m e (floor_log10 num den) in
      let ds := decimal d in
      let body :=
        if (decpt <=? -4) || (16 <? decpt) then
          match ds with
          | c :: r =>
              (c :: match r with [] => [] | _ => 46%N :: r end)
              ++ [101%N] ++ (if decpt - 1 <? 0 then [45%N] else [43%N])
              ++ pad2 (Z.abs (decpt - 1))
          | [] => []
          end
        else if decpt <=? 0 then
          lit "0." ++ repeat 48%N (Z.to_nat (- decpt)) ++ ds
        else if n <=? decpt then
          ds ++ repeat 48%N (Z.to_nat (decpt - n)) ++ lit ".0"
        else take (Z.to_nat decpt) ds ++ [46%N] ++ drop (Z.to_nat decpt) ds in
      if neg then 45%N :: body else body
  end.

(** Digits with single underscores between them. *)
Fixpoint underscored_digits (l : list N) (acc : Z) (after_digit : bool) : option Z :=
  match l with
  | [] => if after_digit then Some acc else None
  | c :: r =>
      if is_digit c then underscored_digits r (10 * acc + Z.of_N (c - 48)) true
      else if (c =? 95)%N && after_digit then underscored_digits r acc false
      else None
  end.

(** [int(s)] in base 10 for ASCII digits: white space around, an optional
    sign, digits. *)
Definition ref_int_of_str (s : list N) : option Z :=
  match strip s with
  | c :: r =>
      if (c =? 45)%N then option_map Z.opp (underscored_digits r 0 false)
      else if (c =? 43)%N then underscored_digits r 0 false
      else underscored_digits (c :: r) 0 false
  | [] => None
  end.

Definition pad (width : nat) (z : Z) : list N :=
  let d := decimal z in repeat 48%N (width - length d) ++ d.

(** [isoformat()] of the aware UTC datetime at [now] microseconds from the
    epoch. *)
Definition ref_isoformat (now : Z) : list N :=
  let '(y, m, d) := civil_from_days (now / usec_per_day) in
  let t := now mod usec_per_day in
  let us := t mod 1000000 in
  let s := t / 1000000 in
  pad 4 y ++ [45%N] ++ pad 2 m ++ [45%N] ++ pad 2 d ++ [84%N]
  ++ pad 2 (s / 3600) ++ [58%N] ++ pad 2 (s / 60 mod 60) ++ [58%N] ++ pad 2 (s mod 60)
  ++ (if us =? 0 then [] else 46%N :: pad 6 us)
  ++ lit "+00:00".

(** One character of [repr(str)]; [q] is the quote in use. Characters
    beyond ASCII are taken as printable except the Latin-1 controls, the
    spaces and the surrogates. *)
Definition repr_char (q c : N) : list N :=
  (if (c =? q) || (c =? 92) then [92; c]
   else if c =? 9 then [92; 116]
   else if c =? 10 then [92; 110]
   else if c =? 13 then [92; 114]
   else if (c <? 32) || ((127 <=? c) && (c <=? 160)) || (c =? 173)
        then [92; 120; hex_digit (c / 16); hex_digit (c mod 16)]
   else if is_space c || ((55296 <=? c) && (c <=? 57343))
        then [92; 117; hex_digit (c / 4096); hex_digit (c / 256 mod 16);
              hex_digit (c / 16 mod 16); hex_digit (c mod 16)]
   else [c])%N.

(** [repr(s)]: single quotes, unless [s] has a single quote and no double
    quote. *)
Definition repr_str (s : list N) : list N :=
  let q := if existsb (N.eqb 39) s && negb (existsb (N.eqb 34) s) then 34%N else 39%N in
  q :: flat_map (repr_char q) s ++ [q].

(** [repr(v)], which is also [str(v)] when [v] is not a string. *)
Fixpoint ref_repr (v : json) : list N :=
  match v with
  | JNull => lit "None"
  | JBool true => lit "True"
  | JBool false => lit "False"
  | JInt z => int_repr z
  | JFloat f => ref_float_repr f
  | JStr s => repr_str s
  | JList l => [91%N] ++ join (lit ", ") (map ref_repr l) ++ [93%N]
  | JDict kvs =>
      [123%N]
      ++ join (lit ", ") (map (fun kv => repr_str (fst kv) ++ lit ": " ++ ref_repr (snd kv)) kvs)
      ++ [125%N]
  end.

Definition reference_externals : Externals.
Proof.
  refine {| dateutil_parse := iso_parse;
            int_of_str := ref_int_of_str;
            float_repr := ref_float_repr;
            float_of_literal := ref_float_of_literal;
            str_of_value := ref_repr;
            isoformat := ref_isoformat;
            isoformat_text := _ |}.
  abstract
    (assert (Hd : forall fuel z acc,
               encodable acc = true -> encodable (digits_of fuel z acc) = true)
       by (induction fuel as [|fuel IH]; intros z acc Hacc; cbn [digits_of]; [exact Hacc|];
           destruct (z <? 10) eqn:Hz;
           [ apply Z.ltb_lt in Hz; cbn [encodable forallb]; fold (encodable acc);
             rewrite Hacc, andb_true_r; unfold is_surrogate;
             replace (55296 <=? Z.to_N (48 + z))%N with false by (symmetry; apply N.leb_gt; lia);
             reflexivity
           | apply IH; cbn [encodable forallb]; fold (encodable acc);
             rewrite Hacc, andb_true_r; unfold is_surrogate;
             pose proof (Z.mod_pos_bound z 10 ltac:(lia));
             replace (55296 <=? Z.to_N (48 + z mod 10))%N with false
               by (symmetry; apply N.leb_gt; lia);
             reflexivity ]);
     assert (Hp : forall width z, encodable (pad width z) = true)
       by (intros width z; unfold pad, decimal, encodable; rewrite forallb_app;
           apply andb_true_intro; split;
           [ apply forallb_forall; intros x Hx; apply repeat_spec in Hx; subst x; reflexivity
           | apply (Hd _ z []); reflexivity ]);
     intros now; unfold ref_isoformat;
     destruct (civil_from_days (now / usec_per_day)) as [[y m] d];
     unfold encodable; rewrite !forallb_app;
     repeat (apply andb_true_intro; split); try apply Hp; try reflexivity;
     destruct (_ =? 0); [reflexivity|];
     cbn [forallb]; apply andb_true_intro; split; [reflexivity | apply Hp]).
Defined.

(** ** Vocabulary of the specification *)

Section Vocabulary.
Context `{Externals}.

(** A coupon is eligible at the instant [now]: it is a record whose
    visibility flag coerces to the integer 1 and whose expiry is empty
    or parses to a time, read as UTC when it has no zone, that lies
    strictly after [now]. *)
Definition eligible_at (now : Z) (c : json) : Prop :=
  exists d, c = JDict d
    /\ py_int (dict_get (lit "is_visible") (JInt 0) d) = Ok 1
    /\ (truthy (dict_get (lit "expires_at") JNull d) = false
        \/ exists dt, date_parse (dict_get (lit "expires_at") JNull d) = Ok dt
             /\ now < utc_instant (wall dt) (default 0 (utcoffset dt))).

Definition is_list (v : json) : bool :=
  match v with JList _ => true | _ => false end.

Definition items_of (v : option json) : list json :=
  match v with Some (JList l) => l | _ => [] end.

(** The feed a decoded body stands for, in the words of the
    specification: the body when it is a sequence; for a mapping, the
    value under [data] when that is a sequence, else the first value that
    is a sequence, else nothing; nothing for any other body. *)
Definition normalized (body : json) : list json :=
  match body with
  | JList l => l
  | JDict d =>
      if is_list (dict_get (lit "data") JNull d)
      then items_of (dict_lookup (lit "data") d)
      else items_of (List.find is_list (map snd d))
  | _ => []
  end.

(** The values whose text reads back: no float inside (the text of a
    float is the interpreter's), and no key twice in a dict. *)
Inductive plain : json -> Prop :=
| plain_null : plain JNull
| plain_bool b : plain (JBool b)
| plain_int z : plain (JInt z)
| plain_str s : plain (JStr s)
| plain_list l : Forall plain l -> plain (JList l)
| plain_dict kvs :
    NoDup (map fst kvs) -> Forall (fun kv => plain (snd kv)) kvs -> plain (JDict kvs).

(** A well-formed publication state: the two fields [published_ids], a
    list of integers, and [last_run], null or a string that UTF-8
    encodes, as the text of a date is. *)
Definition well_formed_state (state : json) : Prop :=
  exists ids last,
    (last = JNull \/ exists s, last = JStr s /\ encodable s = true)
    /\ (state = JDict [(lit "published_ids", JList (map JInt ids)); (lit "last_run", last)]
        \/ state = JDict [(lit "last_run", last); (lit "published_ids", JList (map JInt ids))]).
End Vocabulary.

(** ** Auxiliary notions for the proofs *)

(** Where the text of a number can stop: at the end, or before a character
    that continues neither its digits nor a fraction nor an exponent. *)
Definition number_end (rest : list N) : bool :=
  match rest with
  | [] => true
  | c :: _ => negb (is_digit c) && negb (c =? 46)%N && negb (c =? 101)%N && negb (c =? 69)%N
  end.

Definition nonzero_head (u : Decimal.uint) : Prop :=
  match u with Decimal.Nil | Decimal.D0 _ => False | _ => True end.

(** The scanner steps that reading a value back takes. *)
Fixpoint need (v : json) : nat :=
  match v with
  | JList l => S (list_sum (map (fun x => S (need x)) l))
  | JDict kvs => S (list_sum (map (fun kv => S (need (snd kv))) kvs))
  | _ => 1
  end.

(** The characters a JSON text can start with. *)
Definition value_start (c : N) : bool :=
  ((c =? 34) || (c =? 123) || (c =? 91) || (c =? 110) || (c =? 116) || (c =? 102)
   || (c =? 45) || is_digit c)%N.

Definition item_sep (level : nat) : list N := 44%N :: newline_indent (S level).

Section CodecNotions.
Context `{Externals}.

(** The text of one member of an object, and the same without its opening
    quote. *)
Definition member (level : nat) (kv : list N * json) : list N :=
  encode_str (fst kv) ++ [58%N; 32%N] ++ json_encode (S level) (snd kv).

Definition member_tail (level : nat) (kv : list N * json) : list N :=
  flat_map escape_char (fst kv) ++ 34%N :: 58%N :: 32%N :: json_encode (S level) (snd kv).

(** The text of [v], at any depth and before any text that ends a number,
    scans back to [v]. *)
Definition scans_back (v : json) : Prop :=
  forall level n rest,
    (need v <= n)%nat -> number_end rest = true ->
    scan_once n (json_encode level v ++ rest) = Some (v, rest).

End CodecNotions.

(** The files, the requests and the pushes are the same in both worlds. *)
Definition same_store (w w' : world) : Prop :=
  files w' = files w /\ sent w' = sent w /\ pushed w' = pushed w.

(** A computation that only reads the clock and prints. *)
Definition quiet {A} (m : M A) : Prop := forall w, same_store w (snd (m w)).

(** The state that [record_published] saves. *)
Definition recorded_state `{Externals} (ids : list json) (now : Z)
    (s : list (list N * json)) : json :=
  JDict (dict_set (lit "last_run") (JStr (isoformat now))
           (dict_set (lit "published_ids") (JList ids) s)).

(** An integer as [sorted] decorates it: the key and the value. *)
Definition decorate (z : Z) : json * json := (JInt z, JInt z).

(** A datetime with a [tzinfo]. *)
Definition aware (dt : datetime) : bool :=
  match utcoffset dt with Some _ => true | None => false end.

(** Whether the sort key of a coupon is aware: the date it names parses to
    an aware datetime, or nothing parses and the key is the current
    instant. *)
Definition key_aware `{Externals} (c : json) : bool :=
  match attr_get c with
  | Ok d =>
      match date_parse (py_or (dict_get (lit "created_at") JNull d)
                          (py_or (dict_get (lit "expires_at") JNull d)
                             (JStr (lit "1970-01-01")))) with
      | Ok dt => aware dt
      | Raise _ => true
      end
  | Raise _ => true
  end.

(** The point of the time line a key is compared by: the wall clock of a
    naive datetime, the UTC instant of an aware one. *)
Definition key_instant (k : datetime) : Z :=
  match utcoffset k with
  | None => wall k
  | Some o => utc_instant (wall k) o
  end.

(** Ascending by key. *)
Definition key_le {A} (x y : datetime * A) : Prop :=
  key_instant (fst x) <= key_instant (fst y).

(** Whether the key of a decorated element is at [t]. *)
Definition keyed_at {A} (t : Z) (x : datetime * A) : bool := key_instant (fst x) =? t.

(** ** Notions for the properties of a run *)

(** The coupons of a run: the decoded body of the feed, normalized. *)
Definition feed (env : environment) : list json :=
  match api_get env with Some body => normalized body | None => [] end.

(** The caption a request carries. *)
Definition caption_of (req : request) : list N :=
  match req with
  | SendPhoto _ caption => caption
  | SendMessage text => text
  end.

(** The identifier of every coupon of [l] is in the published set. *)
Definition all_published `{Externals} (published_ids l : list json) : Prop :=
  forall x, In x l -> exists cid, coupon_cid x = Ok cid /\ set_mem (JInt cid) published_ids = true.

(** The environment with the git commands succeeding or failing. *)
Definition with_git (b : bool) (env : environment) : environment :=
  {| clock := clock env; api_get := api_get env; telegram := telegram env;
     git_ok := b; STATE_FILE := STATE_FILE env |}.

(** A state as the script writes it: a mapping without floats and without
    a repeated key, whose [published_ids] is a list of integers. *)
Definition integer_ids_state (state : json) : Prop :=
  plain state
  /\ exists d ids, state = JDict d
       /\ dict_lookup (lit "published_ids") d = Some (JList (map JInt ids)).

(** The state file is absent or holds, as a file in UTF-8 does, the text
    of such a state. *)
Definition state_file_ok `{Externals} (env : environment) (w : world) : Prop :=
  match files w !! STATE_FILE env with
  | None => True
  | Some text =>
      encodable text = true
      /\ exists state, text = json_dumps state /\ integer_ids_state state
  end.

(** The text that [save_state] leaves in the file. *)
Definition saved_text `{Externals} (state : json) : list N :=
  concat (written (json_chunks 0 state)).

(** The files after [save_state] was reached with [state] in a run from
    [w] to [w']: the state file holds the text of the state; or that text
    has a character that UTF-8 cannot encode, the file holds the pieces
    written before it, and the error is the last line printed. *)
Definition saved `{Externals} (env : environment) (state : json) (w w' : world) : Prop :=
  (encodable (json_dumps state) = true
   /\ files w' = <[STATE_FILE env := json_dumps state]> (files w))
  \/ (encodable (json_dumps state) = false
      /\ files w' = <[STATE_FILE env := saved_text state]> (files w)
      /\ exists out, output w' = out ++ [ErrUpdate UnicodeEncodeError]).

(** A number, as opposed to a string or [None], for [<]. *)
Definition is_number (v : json) : bool :=
  match xval_of v with Some _ => true | None => false end.

(** Two outcomes with the same result, files and requests. *)
Definition same_outcome {A} (x y : result A * world) : Prop :=
  fst x = fst y /\ files (snd x) = files (snd y) /\ sent (snd x) = sent (snd y).

(** A result that is a return, an exit with status 0 or 1, or an
    exception. *)
Definition tame {A} (x : result A * world) : Prop :=
  match fst x with
  | Ok _ => True
  | Raise e => e = SystemExit 0 \/ e = SystemExit 1 \/ is_exception e = true
  end.

(** The fields that a caption shows, in its order: the text that starts
    the line of a field, and the key of the field. *)
Definition caption_fields : list (list N * list N) :=
  [([127881; 32], lit "title");
   ([128293; 32], lit "discount_text");
   ([127873; 32; 1575; 1604; 1603; 1608; 1576; 1608; 1606; 32; 58; 32], lit "code");
   ([127757; 32; 1589; 1575; 1604; 1581; 32; 1604; 1600; 32; 58; 32], lit "countries");
   ([128204; 32; 1605; 1604; 1575; 1581; 1592; 1577; 32; 58; 32], lit "note");
   ([9203; 32; 1610; 1606; 1578; 1607; 1610; 32; 1601; 1610; 32; 58; 32], lit "expires_at");
   ([128722; 32; 1585; 1575; 1576; 1591; 32; 1575; 1604; 1588; 1585; 1575; 1569; 32; 58; 32],
    lit "purchase_link")]%N.

(** The two lines that end every caption: the invitation and the link
    of the site. *)
Definition caption_footer : list (list N) :=
  [[128142; 32; 1604; 1605; 1586; 1610; 1583; 32; 1605; 1606; 32; 1575; 1604;
    1603; 1608; 1576; 1608; 1606; 1575; 1578; 32; 1586; 1608; 1585; 1608; 1575;
    32; 1605; 1608; 1602; 1593; 1606; 1575; 32; 58];
   lit " https://receivecoupons.com/"]%N.

(** The lines of a caption, in the words of the specification: for each
    field whose value is truthy, in the order of [caption_fields], the
    line that starts with the text of the field and goes on with the
    value; then the footer. *)
Definition caption_lines `{Externals} (d : list (list N * json)) : list (list N) :=
  flat_map (fun field =>
              let v := dict_get (snd field) JNull d in
              if truthy v then [fst field ++ format_value v] else [])
    caption_fields
  ++ caption_footer.

(** The externals of another day: the date parser is [parse], which can
    read a date with a part left out differently; the rest is as it
    was. *)
Definition with_parser `{Externals} (parse : list N -> option datetime) : Externals :=
  {| dateutil_parse := parse; int_of_str := int_of_str; float_repr := float_repr;
     float_of_literal := float_of_literal; str_of_value := str_of_value;
     isoformat := isoformat; isoformat_text := isoformat_text |}.


(** ** Concrete runs *)

Section ExampleData.
#[local] Existing Instance reference_externals.

(** A visible coupon with an identifier, a title and a creation date, and
    an expiry when one is given. *)
Definition example_coupon (id : Z) (created : string) (expires : option string) : json :=
  JDict ([(lit "id", JInt id); (lit "is_visible", JInt 1);
          (lit "title", JStr (lit "Offer")); (lit "created_at", JStr (lit created))]
         ++ match expires with
            | Some e => [(lit "expires_at", JStr (lit e))]
            | None => []
            end).

(** A run at the instant [now], with the given feed, a gateway that
    answers [{"ok": ok}], and the state file [state.json]. *)
Definition example_env (feed : list json) (ok : bool) (now : Z) : environment :=
  {| clock := fun _ => now;
     api_get := Some (JList feed);
     telegram := fun _ => Some (JDict [(lit "ok", JBool ok)]);
     git_ok := true;
     STATE_FILE := lit "state.json" |}.

Definition example_state (ids : list Z) : json :=
  JDict [(lit "published_ids", JList (map JInt ids)); (lit "last_run", JNull)].

(** A world with nothing printed or posted yet, holding the state file
    when a state is given. *)
Definition example_world (state : option json) : world :=
  {| files := match state with
              | Some st => {[ lit "state.json" := json_dumps st ]}
              | None => ∅
              end;
     ticks := 0; output := []; sent := []; pushed := [] |}.

(** 2025-01-01 and 2031-01-01, 00:00 UTC. *)
Definition at_2025 : Z := 1735689600000000.
Definition at_2031 : Z := 1924992000000000.

Definition two_coupons : list json :=
  [example_coupon 1 "2024-01-01" None; example_coupon 2 "2024-01-02" None].

Definition expiring_first : list json :=
  [example_coupon 1 "2024-01-01" (Some "2030-01-01 00:00:00"%string); example_coupon 2 "2024-01-02" None].

Definition malformed_second : list json :=
  [example_coupon 1 "2024-01-01 10:00:00" None; example_coupon 2 "garbage" None].

(** The coupons of the specification's scenarios: an identifier, the
    visibility flag, a title, and an expiry when one is given. *)
Definition scenario_coupon (id visible : Z) (title : string) (expires : option string) : json :=
  JDict ([(lit "id", JInt id); (lit "is_visible", JInt visible); (lit "title", JStr (lit title))]
         ++ match expires with
            | Some e => [(lit "expires_at", JStr (lit e))]
            | None => []
            end).

(** The text message that carries the caption of a coupon. *)
Definition message_for (c : json) : request :=
  match make_caption c with
  | Ok caption => SendMessage caption
  | Raise _ => SendMessage []
  end.

(** A world whose state file does not decode. *)
Definition corrupt_world : world :=
  {| files := {[ lit "state.json" := lit "{oops" ]};
     ticks := 0; output := []; sent := []; pushed := [] |}.

(** A visible coupon whose identifier is no number. *)
Definition unreadable_coupon : json :=
  JDict [(lit "id", JStr (lit "abc")); (lit "is_visible", JInt 1)].

(** A visible coupon whose store is null. *)
Definition storeless_coupon : list (list N * json) :=
  [(lit "id", JInt 7); (lit "is_visible", JInt 1); (lit "store", JNull)].

(** A coupon with a logo of its own and a store with a logo. *)
Definition branded_coupon : list (list N * json) :=
  [(lit "id", JInt 3); (lit "is_visible", JInt 1); (lit "title", JStr (lit "Offer"));
   (lit "logo_url", JStr (lit "https://cdn.example/coupon.png"));
   (lit "store", JDict [(lit "logo_url", JStr (lit "https://cdn.example/store.png"))])].

(** A state that lists a string among its identifiers, and one with a
    key of its own. *)
Definition string_ids_state : json :=
  JDict [(lit "published_ids", JList [JStr (lit "x")]); (lit "last_run", JNull)].

Definition annotated_state : json :=
  JDict [(lit "published_ids", JList [JInt 1]); (lit "last_run", JNull);
         (lit "owner", JStr (lit "ops"))].

(** A world whose state file holds an escaped lone surrogate, [\ud800],
    under a key of its own. *)
Definition surrogate_world : world :=
  {| files := {[ lit "state.json"
                 := ([123; 34]%N ++ lit "published_ids" ++ [34]%N ++ lit ": [], "
                     ++ [34]%N ++ lit "note" ++ [34; 58; 32; 34; 92]%N ++ lit "ud800"
                     ++ [34; 125]%N) ]};
     ticks := 0; output := []; sent := []; pushed := [] |}.

(** A date parser that reads a time of day as that time on the first day
    of 2025, and every other text as [iso_parse] does. *)
Definition parse_in_2025 (s : list N) : option datetime :=
  if str_eqb s (lit "12:00") then Some {| wall := at_2025 + 43200000000; utcoffset := None |}
  else iso_parse s.
End ExampleData.

(** * Theorems *)

Section Eligibility.
Context `{Externals} (env : environment).

(** C1: [is_valid_coupon] never raises; it answers true exactly when the
  visibility flag coerced to an integer is 1 and the expiry is absent or
  empty, or parses (taken as UTC without a zone) to a time strictly after
  the clock reading; every failure of a coercion or of the parse gives
  false. The state file is not touched. *)
Theorem is_valid_coupon_iff (c : json) (w : world) :
exists b w',
  is_valid_coupon env c w = (Ok b, w')
  /\ files w' = files w
  /\ (b = true <-> eligible_at (clock env (ticks w)) c).
Proof.
unfold is_valid_coupon, try_except, bind, lift, eligible_at.
destruct c as [| | | | |l|d]; simpl;
  try (eexists false, _; split; [reflexivity|]; split; [reflexivity|];
       split; [discriminate | intros (d & Hd & _); discriminate]).
destruct (py_int (dict_get (lit "is_visible") (JInt 0) d)) as [v|e] eqn:Hv; simpl.
2:{ assert (He : is_exception e = true).
    { unfold py_int in Hv.
      destruct (dict_get (lit "is_visible") (JInt 0) d) as [| | |f| s| |];
        try (inversion Hv; subst; reflexivity).
      - destruct f; simpl in Hv; inversion Hv; subst; reflexivity.
      - destruct (int_of_str s); inversion Hv; subst; reflexivity. }
    rewrite He. eexists false, _. split; [reflexivity|]. split; [reflexivity|].
    split; [discriminate|]. intros (d' & Hd & Hvis & _).
    inversion Hd; subst d'. rewrite Hv in Hvis. discriminate. }
destruct (Z.eqb_spec v 1) as [->|Hne]; simpl.
2:{ eexists false, _. split; [reflexivity|]. split; [reflexivity|].
    split; [discriminate|]. intros (d' & Hd & Hvis & _).
    inversion Hd; subst d'. rewrite Hv in Hvis. inversion Hvis. contradiction. }
destruct (truthy (dict_get (lit "expires_at") JNull d)) eqn:Ht; simpl.
2:{ eexists true, _. split; [reflexivity|]. split; [reflexivity|].
    split; [|reflexivity]. intros _. exists d. split; [reflexivity|].
    split; [exact Hv|]. left. exact Ht. }
destruct (date_parse (dict_get (lit "expires_at") JNull d)) as [dt|e] eqn:Hp; simpl.
2:{ assert (He : is_exception e = true).
    { unfold date_parse in Hp.
      destruct (dict_get (lit "expires_at") JNull d) as [| | | |s| |];
        try (inversion Hp; subst; reflexivity).
      destruct (dateutil_parse s); inversion Hp; subst; reflexivity. }
    rewrite He. eexists false, _. split; [reflexivity|]. split; [reflexivity|].
    split; [discriminate|]. intros (d' & Hd & _ & [Hf | (dt & Hdt & _)]).
    - inversion Hd; subst d'. rewrite Ht in Hf. discriminate.
    - inversion Hd; subst d'. rewrite Hp in Hdt. discriminate. }
eexists _, _. split; [reflexivity|]. split; [reflexivity|].
rewrite Z.ltb_lt. split.
- intros Hlt. exists d. split; [reflexivity|]. split; [exact Hv|].
  right. exists dt. split; [exact Hp|]. destruct (utcoffset dt); exact Hlt.
- intros (d' & Hd & _ & [Hf | (dt' & Hdt & Hlt)]).
  + inversion Hd; subst d'. rewrite Ht in Hf. discriminate.
  + inversion Hd; subst d'. rewrite Hp in Hdt. inversion Hdt; subst dt'.
    destruct (utcoffset dt); exact Hlt.
Qed.

End Eligibility.

Section Feed.
Context `{Externals} (env : environment).

Lemma first_list_find (vs : list json) :
  first_list vs = items_of (List.find is_list vs).
Proof.
  induction vs as [|v vs IH]; [reflexivity|].
  destruct v; simpl; auto.
Qed.

(** C6: [fetch_coupons] never raises and returns the normalized feed: the
  body itself when it is a list, the list under [data] of a dict, else the
  first list among the dict's values, else the empty list; a failed
  request or an undecodable body gives the empty list. *)
Theorem fetch_coupons_normalizes (w : world) :
exists w',
  fetch_coupons env w
  = (Ok (match api_get env with Some body => normalized body | None => [] end), w')
  /\ files w' = files w.
Proof.
unfold fetch_coupons, try_except.
destruct (api_get env) as [body|]; simpl.
2:{ eexists. split; reflexivity. }
destruct body as [| | | | |l|d]; simpl; try (eexists; split; reflexivity).
unfold dict_get.
destruct (dict_lookup (lit "data") d) as [v|] eqn:Hd; simpl.
- destruct v; simpl; rewrite ?first_list_find; eexists; split; reflexivity.
- rewrite first_list_find. eexists; split; reflexivity.
Qed.

End Feed.

Section Caption.
Context `{Externals}.

Lemma truncate_caption_length (t : list N) :
  (length (truncate_caption t) <= TELEGRAM_CAPTION_MAX)%nat.
Proof.
  unfold truncate_caption, TELEGRAM_CAPTION_MAX.
  destruct (Nat.ltb_spec 1000 (length t)) as [Hlong|Hshort].
  - rewrite length_app, length_take. change (length (lit "...")) with 3%nat. lia.
  - exact Hshort.
Qed.

(** C3: for every coupon record the caption has at most 1000 characters:
  a stripped text longer than 1000 is cut to its first 997 characters
  followed by three dots, a shorter one is kept as it is. *)
Theorem make_caption_bounded (d : list (list N * json)) :
exists caption,
  make_caption (JDict d) = Ok caption
  /\ (length caption <= 1000)%nat
  /\ ((1000 < length (caption_text d))%nat ->
      caption = take 997 (caption_text d) ++ lit "..." /\ length caption = 1000%nat)
  /\ ((length (caption_text d) <= 1000)%nat -> caption = caption_text d).
Proof.
exists (truncate_caption (caption_text d)).
split; [reflexivity|].
split; [apply truncate_caption_length|].
unfold truncate_caption, TELEGRAM_CAPTION_MAX.
split; intros Hlen.
- destruct (Nat.ltb_spec 1000 (length (caption_text d))) as [_|Hshort]; [|lia].
  split; [reflexivity|].
  rewrite length_app, length_take. change (length (lit "...")) with 3%nat. lia.
- destruct (Nat.ltb_spec 1000 (length (caption_text d))) as [Hlong|_]; [lia|].
  reflexivity.
Qed.

End Caption.

(** ** The JSON text of a value reads back *)

Lemma str_eqb_eq (s t : list N) : str_eqb s t = true <-> s = t.
Proof.
  revert t. induction s as [|a s IH]; intros [|b t]; simpl; try (split; congruence).
  rewrite andb_true_iff, N.eqb_eq, IH. split; [intros [-> ->]; reflexivity | intros [= -> ->]; auto].
Qed.

Lemma str_eqb_refl (s : list N) : str_eqb s s = true.
Proof. apply str_eqb_eq. reflexivity. Qed.

Lemma str_eqb_neq (s t : list N) : s <> t -> str_eqb s t = false.
Proof. intros Hne. destruct (str_eqb s t) eqn:E; [|reflexivity]. apply str_eqb_eq in E. contradiction. Qed.

(** Induction on a value, with the hypothesis for every item of a list
    and every value of a dict. *)
Lemma json_nested_ind (P : json -> Prop) :
  P JNull -> (forall b, P (JBool b)) -> (forall z, P (JInt z)) ->
  (forall f, P (JFloat f)) -> (forall s, P (JStr s)) ->
  (forall l, Forall P l -> P (JList l)) ->
  (forall kvs, Forall (fun kv => P (snd kv)) kvs -> P (JDict kvs)) ->
  forall v, P v.
Proof.
  intros Hnull Hbool Hint Hfloat Hstr Hlist Hdict.
  fix IH 1. intros [| b | z | f | s | l | kvs];
    [exact Hnull | apply Hbool | apply Hint | apply Hfloat | apply Hstr | | ].
  - apply Hlist. induction l as [|x l IHl]; constructor; [apply IH | exact IHl].
  - apply Hdict. induction kvs as [|kv kvs IHl]; constructor; [apply IH | exact IHl].
Qed.

Lemma hex_escape_ok : forallb (fun c => match hex4 48 48 (hex_digit (c / 16)) (hex_digit (c mod 16)) with Some c' => N.eqb c' c | None => false end) (map N.of_nat (seq 0 32)) = true.
Proof. vm_compute. reflexivity. Qed.

Lemma hex_escape (c : N) : (c < 32)%N -> hex4 48 48 (hex_digit (c / 16)) (hex_digit (c mod 16)) = Some c.
Proof.
  intros Hc. pose proof hex_escape_ok as H. rewrite forallb_forall in H.
  specialize (H c). 
  assert (Hin : In c (map N.of_nat (seq 0 32))).
  { apply in_map_iff. exists (N.to_nat c). split; [lia|]. apply in_seq. lia. }
  specialize (H Hin). destruct (hex4 _ _ _ _); [|discriminate].
  apply N.eqb_eq in H. congruence.
Qed.

Lemma scan_string_escape (c : N) (t rest : list N) (k : list N) :
  scan_string k = Some (t, rest) ->
  scan_string (escape_char c ++ k) = Some (c :: t, rest).
Proof.
  intros Hk. unfold escape_char.
  destruct (N.eqb_spec c 34) as [->|H34]; [simpl; rewrite Hk; reflexivity|].
  destruct (N.eqb_spec c 92) as [->|H92]; [simpl; rewrite Hk; reflexivity|].
  destruct (N.eqb_spec c 10) as [->|H10]; [simpl; rewrite Hk; reflexivity|].
  destruct (N.eqb_spec c 13) as [->|H13]; [simpl; rewrite Hk; reflexivity|].
  destruct (N.eqb_spec c 9) as [->|H9]; [simpl; rewrite Hk; reflexivity|].
  destruct (N.eqb_spec c 8) as [->|H8]; [simpl; rewrite Hk; reflexivity|].
  destruct (N.eqb_spec c 12) as [->|H12]; [simpl; rewrite Hk; reflexivity|].
  destruct (N.ltb_spec c 32) as [Hlow|Hhigh].
  - pose proof (hex_escape c Hlow) as Hh.
    assert (Hnot : ((55296 <=? c) && (c <=? 56319))%N = false).
    { apply andb_false_iff. left. apply N.leb_gt. lia. }
    simpl app. cbn [scan_string N.eqb Pos.eqb]. rewrite Hh, Hnot, Hk. reflexivity.
  - simpl app. cbn [scan_string].
    destruct (N.eqb_spec c 34); [contradiction|].
    destruct (N.eqb_spec c 92); [contradiction|].
    destruct (N.ltb_spec c 32); [lia|]. rewrite Hk. reflexivity.
Qed.

Lemma scan_string_encode (s rest : list N) :
  scan_string (flat_map escape_char s ++ 34%N :: rest) = Some (s, rest).
Proof.
  induction s as [|c s IH]; [reflexivity|].
  cbn [flat_map]. rewrite <- app_assoc. apply scan_string_escape. exact IH.
Qed.

Lemma uint_of_codes (u : Decimal.uint) : uint_of_digits (codes_of_uint u) = u.
Proof. induction u; simpl; congruence. Qed.

Lemma span_digits_codes (u : Decimal.uint) (rest : list N) :
  number_end rest = true ->
  span_digits (codes_of_uint u ++ rest) = (codes_of_uint u, rest).
Proof.
  intros Hr. induction u; simpl; try (rewrite IHu; reflexivity).
  destruct rest as [|c r]; [reflexivity|]. simpl in *.
  destruct (is_digit c); [discriminate|reflexivity].
Qed.

Lemma nzhead_head (u : Decimal.uint) :
  Decimal.nzhead u = Decimal.Nil \/ nonzero_head (Decimal.nzhead u).
Proof. induction u; simpl; auto. Qed.

Lemma to_uint_head (p : positive) : nonzero_head (Pos.to_uint p).
Proof.
  pose proof (DecimalPos.Unsigned.to_of (Pos.to_uint p)) as H.
  rewrite DecimalPos.Unsigned.of_to in H. simpl in H.
  pose proof (Unsigned.to_uint_nonzero p) as Hnz.
  rewrite H in *. unfold Decimal.unorm in *.
  destruct (nzhead_head (Pos.to_uint p)) as [E|E].
  - rewrite E in Hnz. contradiction.
  - destruct (Decimal.nzhead (Pos.to_uint p)); simpl in *; auto.
Qed.

Lemma scan_frac_end (rest : list N) : number_end rest = true -> scan_frac rest = ([], rest).
Proof.
  destruct rest as [|c r]; [reflexivity|]. simpl. intros H.
  destruct (N.eqb_spec c 46) as [->|]; [discriminate|reflexivity].
Qed.

Lemma scan_exp_end (rest : list N) : number_end rest = true -> scan_exp rest = ([], rest).
Proof.
  destruct rest as [|c r]; [reflexivity|]. simpl. intros H.
  destruct (N.eqb_spec c 101) as [->|]; [discriminate|].
  destruct (N.eqb_spec c 69) as [->|]; [discriminate|reflexivity].
Qed.

Lemma int_of_literal_codes (u : Decimal.uint) :
  nonzero_head u ->
  int_of_literal (codes_of_uint u) = Z.of_uint u
  /\ int_of_literal (45%N :: codes_of_uint u) = - Z.of_uint u.
Proof.
  intros Hu. split.
  - rewrite <- (uint_of_codes u) at 2.
    destruct u; try contradiction; reflexivity.
  - unfold int_of_literal. cbn [N.eqb Pos.eqb]. rewrite uint_of_codes. reflexivity.
Qed.

Lemma scan_integer_codes (u : Decimal.uint) (rest : list N) :
  nonzero_head u -> number_end rest = true ->
  scan_integer (codes_of_uint u ++ rest) = Some (codes_of_uint u, rest)
  /\ scan_integer (45%N :: codes_of_uint u ++ rest) = Some (45%N :: codes_of_uint u, rest).
Proof.
  intros Hu Hr.
  destruct u; try contradiction; unfold scan_integer;
    cbn [codes_of_uint app N.eqb Pos.eqb is_digit N.leb N.compare Pos.compare Pos.compare_cont andb];
    rewrite (span_digits_codes _ _ Hr); split; reflexivity.
Qed.

Lemma scan_number_int `{Externals} (z : Z) (rest : list N) :
  number_end rest = true ->
  scan_number (int_repr z ++ rest) = Some (JInt z, rest).
Proof.
  intros Hr. unfold scan_number, int_repr.
  destruct z as [|p|p]; cbn [Z.to_int].
  - cbn [codes_of_uint app]. unfold scan_integer. cbn [N.eqb Pos.eqb app].
    rewrite (scan_frac_end _ Hr), (scan_exp_end _ Hr). reflexivity.
  - destruct (scan_integer_codes _ rest (to_uint_head p) Hr) as [-> _].
    rewrite (scan_frac_end _ Hr), (scan_exp_end _ Hr). cbn [app].
    destruct (int_of_literal_codes _ (to_uint_head p)) as [-> _].
    unfold Z.of_uint. rewrite DecimalPos.Unsigned.of_to. reflexivity.
  - cbn [app].
    destruct (scan_integer_codes _ rest (to_uint_head p) Hr) as [_ ->].
    rewrite (scan_frac_end _ Hr), (scan_exp_end _ Hr). cbn [app].
    destruct (int_of_literal_codes _ (to_uint_head p)) as [_ ->].
    unfold Z.of_uint. rewrite DecimalPos.Unsigned.of_to. reflexivity.
Qed.

Section Codec.
Context `{Externals}.

Lemma value_start_facts (c : N) :
  value_start c = true ->
  is_ws c = false /\ c <> 93%N /\ c <> 125%N /\ c <> 65279%N.
Proof.
  unfold value_start, is_ws, is_digit.
  rewrite !orb_true_iff, andb_true_iff, !N.eqb_eq, !N.leb_le.
  intros Hc.
  assert (Hne : c <> 32%N /\ c <> 9%N /\ c <> 10%N /\ c <> 13%N) by lia.
  destruct Hne as (? & ? & ? & ?).
  repeat split; try lia.
  destruct (N.eqb_spec c 32), (N.eqb_spec c 9), (N.eqb_spec c 10), (N.eqb_spec c 13);
    try contradiction; reflexivity.
Qed.

Lemma int_repr_head (z : Z) :
  exists c r, int_repr z = c :: r /\ (is_digit c = true \/ c = 45%N).
Proof.
  unfold int_repr. destruct z as [|p|p]; cbn [Z.to_int].
  - eexists _, _. split; [reflexivity|]. left. reflexivity.
  - pose proof (to_uint_head p) as Hh.
    destruct (Pos.to_uint p); try contradiction;
      eexists _, _; (split; [reflexivity|]); left; reflexivity.
  - eexists _, _. split; [reflexivity|]. right. reflexivity.
Qed.

Lemma encode_head (level : nat) (v : json) :
  plain v -> exists c r, json_encode level v = c :: r /\ value_start c = true.
Proof.
  intros Hv. destruct Hv as [|b|z|s|l _|kvs _ _].
  - eexists _, _. split; reflexivity.
  - destruct b; eexists _, _; split; reflexivity.
  - destruct (int_repr_head z) as (c & r & Hz & Hc). exists c, r. split; [exact Hz|].
    unfold value_start. destruct Hc as [->| ->]; [|reflexivity].
    rewrite !orb_true_r. reflexivity.
  - eexists _, _. split; reflexivity.
  - destruct l; eexists _, _; split; reflexivity.
  - destruct kvs; eexists _, _; split; reflexivity.
Qed.

Lemma skip_ws_encode (level : nat) (v : json) (rest : list N) :
  plain v -> skip_ws (json_encode level v ++ rest) = json_encode level v ++ rest.
Proof.
  intros Hv. destruct (encode_head level v Hv) as (c & r & -> & Hc).
  apply value_start_facts in Hc. destruct Hc as (Hws & _).
  cbn [app skip_ws]. rewrite Hws. reflexivity.
Qed.

Lemma skip_ws_repeat (k : nat) (s : list N) : skip_ws (repeat 32%N k ++ s) = skip_ws s.
Proof. induction k; [reflexivity|]. exact IHk. Qed.

Lemma skip_ws_newline_indent (level : nat) (s : list N) :
  skip_ws (newline_indent level ++ s) = skip_ws s.
Proof. unfold newline_indent. cbn [app skip_ws is_ws N.eqb Pos.eqb orb]. apply skip_ws_repeat. Qed.

Lemma number_end_newline_indent (level : nat) (s : list N) :
  number_end (newline_indent level ++ s) = true.
Proof. reflexivity. Qed.

(** One-step equations of the scanner. *)
Lemma scan_once_atom (n : nat) (c : N) (r : list N) :
  c <> 34%N -> c <> 123%N -> c <> 91%N ->
  scan_once (S n) (c :: r) = scan_atom (c :: r).
Proof.
  intros H1 H2 H3. cbn [scan_once].
  destruct (N.eqb_spec c 34); [contradiction|].
  destruct (N.eqb_spec c 123); [contradiction|].
  destruct (N.eqb_spec c 91); [contradiction|]. reflexivity.
Qed.

Lemma scan_items_S (n : nat) (s : list N) (acc : list json) :
  scan_items (S n) s acc =
  match scan_once n s with
  | None => None
  | Some (v, r) =>
      match skip_ws r with
      | c :: r1 =>
          if (c =? 93)%N then Some (JList (rev (v :: acc)), r1)
          else if (c =? 44)%N then scan_items n (skip_ws r1) (v :: acc)
          else None
      | [] => None
      end
  end.
Proof. reflexivity. Qed.

Lemma strip_prefix_head (p : list N) (c : N) (s : list N) (a : N) :
  hd_error p = Some a -> a <> c -> strip_prefix p (c :: s) = None.
Proof.
  destruct p as [|a' p]; [discriminate|]. intros [= ->] Hne. cbn [strip_prefix].
  destruct (N.eqb_spec a c); [contradiction|reflexivity].
Qed.

Lemma scan_atom_int (z : Z) (rest : list N) :
  number_end rest = true -> scan_atom (int_repr z ++ rest) = Some (JInt z, rest).
Proof.
  intros Hr. unfold scan_atom. rewrite (scan_number_int z rest Hr).
  destruct (int_repr_head z) as (c & r & -> & Hc).
  assert (Hn : c <> 110%N /\ c <> 116%N /\ c <> 102%N).
  { destruct Hc as [Hd| ->]; [|repeat split; discriminate].
    unfold is_digit in Hd. rewrite andb_true_iff, !N.leb_le in Hd. lia. }
  destruct Hn as (H1 & H2 & H3).
  cbn [app].
  rewrite (strip_prefix_head (lit "null") c _ 110) by (reflexivity || congruence).
  rewrite (strip_prefix_head (lit "true") c _ 116) by (reflexivity || congruence).
  rewrite (strip_prefix_head (lit "false") c _ 102) by (reflexivity || congruence).
  reflexivity.
Qed.

Lemma scan_items_encode (level : nat) (l : list json) :
  Forall plain l -> Forall scans_back l -> l <> [] ->
  forall n acc rest,
    (list_sum (map (fun x => S (need x)) l) <= n)%nat ->
    scan_items n
      (join (item_sep level) (map (json_encode (S level)) l)
       ++ newline_indent level ++ 93%N :: rest) acc
    = Some (JList (rev acc ++ l), rest).
Proof.
  intros Hp Hs. induction l as [|x l IH]; [congruence|]. intros _ n acc rest Hn.
  apply Forall_cons in Hp as [Hpx Hpl]. apply Forall_cons in Hs as [Hsx Hsl].
  simpl in Hn. destruct n as [|n]; [lia|].
  rewrite scan_items_S. destruct l as [|y l].
  - cbn [map join]. rewrite (Hsx (S level) n) by (reflexivity || lia).
    rewrite skip_ws_newline_indent. cbn [skip_ws is_ws N.eqb Pos.eqb orb].
    cbn [rev]. reflexivity.
  - change (join (item_sep level) (map (json_encode (S level)) (x :: y :: l)))
      with (json_encode (S level) x ++ item_sep level
            ++ join (item_sep level) (map (json_encode (S level)) (y :: l))).
    rewrite <- !app_assoc.
    rewrite (Hsx (S level) n) by (reflexivity || lia).
    unfold item_sep at 1. cbn [app skip_ws is_ws N.eqb Pos.eqb orb].
    rewrite skip_ws_newline_indent.
    assert (Hj : exists t, join (item_sep level) (map (json_encode (S level)) (y :: l))
                           = json_encode (S level) y ++ t).
    { destruct l; [exists []; cbn [map join]; rewrite app_nil_r; reflexivity|].
      eexists. reflexivity. }
    destruct Hj as (t & Hj). rewrite Hj at 1. rewrite <- app_assoc.
    rewrite skip_ws_encode by (apply Forall_cons in Hpl as [? _]; assumption).
    rewrite app_assoc, <- Hj.
    rewrite IH by (assumption || congruence || lia).
    cbn [rev]. rewrite <- app_assoc. reflexivity.
Qed.

Lemma scan_members_S (n : nat) (s : list N) (acc : list (list N * json)) :
  scan_members (S n) s acc =
  match scan_string s with
  | None => None
  | Some (k, r) =>
      match skip_ws r with
      | c :: r1 =>
          if (c =? 58)%N then
            match scan_once n (skip_ws r1) with
            | None => None
            | Some (v, r2) =>
                match skip_ws r2 with
                | c2 :: r3 =>
                    if (c2 =? 125)%N then
                      Some (JDict (dict_of_pairs (rev ((k, v) :: acc))), r3)
                    else if (c2 =? 44)%N then
                      match skip_ws r3 with
                      | c3 :: r4 =>
                          if (c3 =? 34)%N then scan_members n r4 ((k, v) :: acc)
                          else None
                      | [] => None
                      end
                    else None
                | [] => None
                end
            end
          else None
      | [] => None
      end
  end.
Proof. reflexivity. Qed.

Lemma member_eq (level : nat) (kv : list N * json) :
  member level kv = 34%N :: member_tail level kv.
Proof.
  unfold member, member_tail, encode_str. cbn [app]. rewrite <- app_assoc. reflexivity.
Qed.

Lemma scan_members_encode (level : nat) (kvs : list (list N * json)) :
  Forall (fun kv => plain (snd kv)) kvs -> Forall (fun kv => scans_back (snd kv)) kvs ->
  kvs <> [] ->
  forall n acc rest t,
    (list_sum (map (fun kv => S (need (snd kv))) kvs) <= n)%nat ->
    join (item_sep level) (map (member level) kvs) = 34%N :: t ->
    scan_members n (t ++ newline_indent level ++ 125%N :: rest) acc
    = Some (JDict (dict_of_pairs (rev acc ++ kvs)), rest).
Proof.
  intros Hp Hs. induction kvs as [|[k v] kvs IH]; [congruence|].
  intros _ n acc rest t Hn Ht.
  apply Forall_cons in Hp as [Hpx Hpl]. apply Forall_cons in Hs as [Hsx Hsl].
  simpl in Hn, Hpx, Hsx. destruct n as [|n]; [lia|].
  rewrite scan_members_S. destruct kvs as [|kv2 kvs].
  - cbn [map join] in Ht. rewrite member_eq in Ht. injection Ht as <-.
    unfold member_tail. cbn [fst snd]. rewrite <- app_assoc. cbn [app].
    rewrite scan_string_encode. cbn [skip_ws is_ws N.eqb Pos.eqb orb].
    rewrite skip_ws_encode by assumption.
    rewrite (Hsx (S level) n) by (reflexivity || lia).
    rewrite skip_ws_newline_indent. cbn [skip_ws is_ws N.eqb Pos.eqb orb].
    cbn [rev]. reflexivity.
  - assert (Hj : exists t', join (item_sep level) (map (member level) (kv2 :: kvs)) = 34%N :: t').
    { destruct kvs; cbn [map join]; rewrite member_eq; eexists; reflexivity. }
    destruct Hj as (t' & Hj).
    change (join (item_sep level) (map (member level) ((k, v) :: kv2 :: kvs)))
      with (member level (k, v) ++ item_sep level
            ++ join (item_sep level) (map (member level) (kv2 :: kvs))) in Ht.
    rewrite Hj, member_eq in Ht. injection Ht as <-.
    unfold member_tail at 1. cbn [fst snd]. rewrite <- !app_assoc. cbn [app].
    rewrite scan_string_encode. cbn [skip_ws is_ws N.eqb Pos.eqb orb].
    rewrite skip_ws_encode by assumption.
    rewrite (Hsx (S level) n) by (reflexivity || lia).
    cbn [skip_ws is_ws N.eqb Pos.eqb orb].
    rewrite <- app_assoc, skip_ws_repeat.
    cbn [app skip_ws is_ws N.eqb Pos.eqb orb].
    rewrite (IH Hpl Hsl) by (congruence || lia || assumption).
    cbn [rev]. rewrite <- app_assoc. reflexivity.
Qed.

Lemma dict_set_fresh (k : list N) (v : json) (d : list (list N * json)) :
  ~ In k (map fst d) -> dict_set k v d = d ++ [(k, v)].
Proof.
  induction d as [|[k' v'] d IH]; [reflexivity|]. intros Hk. cbn [dict_set].
  rewrite str_eqb_neq by (intros ->; apply Hk; left; reflexivity).
  rewrite IH by (intros Hin; apply Hk; right; exact Hin). reflexivity.
Qed.

Lemma dict_of_pairs_fresh (l d : list (list N * json)) :
  NoDup (map fst (d ++ l)) ->
  fold_left (fun d kv => dict_set (fst kv) (snd kv) d) l d = d ++ l.
Proof.
  revert d. induction l as [|[k v] l IH]; intros d Hnd; [rewrite app_nil_r; reflexivity|].
  cbn [fold_left fst snd]. rewrite dict_set_fresh.
  - rewrite IH; rewrite <- app_assoc; [reflexivity | exact Hnd].
  - rewrite map_app in Hnd. apply NoDup_app in Hnd as (_ & Hd & _).
    intros Hin. apply (Hd k); [apply list_elem_of_In; exact Hin | left].
Qed.

Lemma dict_of_pairs_nodup (kvs : list (list N * json)) :
  NoDup (map fst kvs) -> dict_of_pairs kvs = kvs.
Proof. intros Hnd. apply (dict_of_pairs_fresh kvs []). exact Hnd. Qed.

Lemma plain_scans_back (v : json) : plain v -> scans_back v.
Proof.
  induction v as [|b|z|f|s|l IH|kvs IH] using json_nested_ind;
    intros Hv level n rest Hn Hr; inversion Hv as [| | | |? Hall|? Hnd Hall]; subst;
    (destruct n as [|n]; [simpl in Hn; lia|]).
  - reflexivity.
  - destruct b; reflexivity.
  - cbn [json_encode]. destruct (int_repr_head z) as (c & r & Hz & Hc).
    pose proof (scan_atom_int z rest Hr) as Ha. rewrite Hz in *.
    cbn [app] in *. rewrite scan_once_atom; [exact Ha| | |];
      destruct Hc as [Hd| ->]; try discriminate;
      unfold is_digit in Hd; rewrite andb_true_iff, !N.leb_le in Hd; lia.
  - cbn [json_encode]. unfold encode_str. cbn [app]. rewrite <- app_assoc.
    cbn [app scan_once N.eqb Pos.eqb].
    rewrite scan_string_encode. reflexivity.
  - destruct l as [|x l]; [reflexivity|].
    change (json_encode level (JList (x :: l)))
      with ([91%N] ++ newline_indent (S level)
            ++ join (item_sep level) (map (json_encode (S level)) (x :: l))
            ++ newline_indent level ++ [93%N]).
    rewrite <- !app_assoc. cbn [app scan_once N.eqb Pos.eqb].
    rewrite skip_ws_newline_indent.
    assert (Hx : plain x) by (apply Forall_cons in Hall as [? _]; assumption).
    assert (Hj : exists t, join (item_sep level) (map (json_encode (S level)) (x :: l))
                           = json_encode (S level) x ++ t).
    { destruct l; [exists []; cbn [map join]; rewrite app_nil_r; reflexivity|].
      eexists. reflexivity. }
    destruct Hj as (t & Hj). rewrite Hj at 1. rewrite <- app_assoc.
    rewrite skip_ws_encode by assumption.
    destruct (encode_head (S level) x Hx) as (c & r & Hc & Hs).
    apply value_start_facts in Hs. destruct Hs as (_ & Hs & _).
    rewrite Hc at 1. cbn [app].
    destruct (N.eqb_spec c 93); [contradiction|].
    change (c :: r ++ t ++ newline_indent level ++ 93%N :: rest)
      with ((c :: r) ++ t ++ newline_indent level ++ 93%N :: rest).
    rewrite <- Hc, app_assoc, <- Hj.
    rewrite (scan_items_encode level (x :: l)); try assumption; try congruence.
    + reflexivity.
    + clear - IH Hall. induction IH as [|y l' Hy _ IHl]; [constructor|].
      apply Forall_cons in Hall as [? ?]. constructor; auto.
    + simpl in Hn. simpl. lia.
  - destruct kvs as [|[k v] kvs]; [reflexivity|].
    change (json_encode level (JDict ((k, v) :: kvs)))
      with ([123%N] ++ newline_indent (S level)
            ++ join (item_sep level) (map (member level) ((k, v) :: kvs))
            ++ newline_indent level ++ [125%N]).
    assert (Hj : exists t, join (item_sep level) (map (member level) ((k, v) :: kvs)) = 34%N :: t).
    { destruct kvs; cbn [map join]; rewrite member_eq; eexists; reflexivity. }
    destruct Hj as (t & Hj). rewrite Hj.
    rewrite <- !app_assoc. cbn [app scan_once N.eqb Pos.eqb].
    rewrite skip_ws_newline_indent. cbn [skip_ws is_ws N.eqb Pos.eqb orb].
    rewrite (scan_members_encode level ((k, v) :: kvs)); try assumption; try congruence.
    + cbn [rev app]. rewrite dict_of_pairs_nodup by assumption. reflexivity.
    + clear - IH Hall. induction IH as [|y l' Hy _ IHl]; [constructor|].
      apply Forall_cons in Hall as [? ?]. constructor; auto.
    + simpl in Hn. simpl. lia.
Qed.

Lemma join_length (c : N) (sep : list N) (parts : list (list N)) :
  (list_sum (map (fun p => S (length p)) parts) <= S (length (join (c :: sep) parts)))%nat.
Proof.
  induction parts as [|p parts IH]; [simpl; lia|].
  destruct parts as [|q parts]; [simpl; lia|].
  change (join (c :: sep) (p :: q :: parts)) with (p ++ (c :: sep) ++ join (c :: sep) (q :: parts)).
  remember (join (c :: sep) (q :: parts)) as J. remember (q :: parts) as ps.
  rewrite !length_app. cbn [map list_sum length]. simpl list_sum. lia.
Qed.

Lemma list_sum_cons (a : nat) (l : list nat) : list_sum (a :: l) = (a + list_sum l)%nat.
Proof. reflexivity. Qed.

Lemma newline_indent_length (level : nat) : (1 <= length (newline_indent level))%nat.
Proof. unfold newline_indent. cbn [length]. lia. Qed.

Lemma need_le_length (v : json) :
  plain v -> forall level, (need v <= length (json_encode level v))%nat.
Proof.
  induction v as [|b|z|f|s|l IH|kvs IH] using json_nested_ind;
    intros Hv level; inversion Hv as [| | | |? Hall|? Hnd Hall]; subst;
    try (destruct (encode_head level _ Hv) as (c & r & -> & _); simpl; lia).
  - destruct l as [|x l]; [simpl; lia|].
    change (json_encode level (JList (x :: l)))
      with ([91%N] ++ newline_indent (S level)
            ++ join (item_sep level) (map (json_encode (S level)) (x :: l))
            ++ newline_indent level ++ [93%N]).
    rewrite !length_app.
    pose proof (join_length 44%N (newline_indent (S level)) (map (json_encode (S level)) (x :: l))) as Hj.
    fold (item_sep level) in Hj.
    assert (Hs : (list_sum (map (fun x => S (need x)) (x :: l))
                  <= list_sum (map (fun p => S (length p)) (map (json_encode (S level)) (x :: l))))%nat).
    { clear - IH Hall. induction IH as [|y l' Hy _ IHl]; [simpl; lia|].
      apply Forall_cons in Hall as [Hpy Hpl]. specialize (IHl Hpl). specialize (Hy Hpy (S level)).
      simpl in *. lia. }
    pose proof (newline_indent_length level). pose proof (newline_indent_length (S level)).
    cbn [need length]. lia.
  - destruct kvs as [|kv kvs]; [simpl; lia|].
    change (json_encode level (JDict (kv :: kvs)))
      with ([123%N] ++ newline_indent (S level)
            ++ join (item_sep level) (map (member level) (kv :: kvs))
            ++ newline_indent level ++ [125%N]).
    rewrite !length_app.
    pose proof (join_length 44%N (newline_indent (S level)) (map (member level) (kv :: kvs))) as Hj.
    fold (item_sep level) in Hj.
    assert (Hs : (list_sum (map (fun kv => S (need (snd kv))) (kv :: kvs))
                  <= list_sum (map (fun p => S (length p)) (map (member level) (kv :: kvs))))%nat).
    { clear - IH Hall. induction IH as [|y l' Hy _ IHl]; [simpl; lia|].
      apply Forall_cons in Hall as [Hpy Hpl]. specialize (IHl Hpl). specialize (Hy Hpy (S level)).
      cbn [map]. rewrite !list_sum_cons. unfold member at 1. rewrite !length_app. lia. }
    pose proof (newline_indent_length level). pose proof (newline_indent_length (S level)).
    cbn [need length]. lia.
Qed.

Lemma plain_reads_back (v : json) : plain v -> json_loads (json_dumps v) = Ok v.
Proof.
  intros Hv. unfold json_loads, json_dumps.
  destruct (encode_head 0 v Hv) as (c & r & Hc & Hs).
  apply value_start_facts in Hs. destruct Hs as (_ & _ & _ & Hbom).
  pose proof (skip_ws_encode 0 v [] Hv) as Hws. rewrite app_nil_r in Hws. rewrite Hws.
  pose proof (plain_scans_back v Hv 0%nat (S (length (json_encode 0 v))) []) as Hsc.
  rewrite app_nil_r in Hsc. rewrite Hsc.
  - rewrite Hc. destruct (N.eqb_spec c 65279); [contradiction|]. reflexivity.
  - pose proof (need_le_length v Hv 0%nat). lia.
  - reflexivity.
Qed.

(** The text that [json.dump] writes for a value without floats and
    without a repeated key is read back by [json.load] as that value. *)
Theorem json_loads_dumps (v : json) : plain v -> json_loads (json_dumps v) = Ok v.
Proof. exact (plain_reads_back v). Qed.
End Codec.

(** ** Text that UTF-8 encodes, and the pieces of a write *)

Section Encoding.
Context `{Externals}.

Lemma encodable_app (a b : list N) : encodable (a ++ b) = encodable a && encodable b.
Proof. apply forallb_app. Qed.

Lemma encodable_cons (c : N) (s : list N) :
  encodable (c :: s) = negb (is_surrogate c) && encodable s.
Proof. reflexivity. Qed.

Lemma not_surrogate_small (c : N) : (c < 55296)%N -> is_surrogate c = false.
Proof.
  intros Hc. unfold is_surrogate.
  replace (55296 <=? c)%N with false by (symmetry; apply N.leb_gt; exact Hc). reflexivity.
Qed.

Lemma encodable_small (s : list N) : Forall (fun c => (c < 55296)%N) s -> encodable s = true.
Proof.
  induction 1 as [|c s Hc _ IH]; [reflexivity|].
  rewrite encodable_cons, IH, (not_surrogate_small c Hc). reflexivity.
Qed.

Lemma forallb_map_comp {A B} (f : B -> bool) (g : A -> B) (l : list A) :
  forallb f (map g l) = forallb (fun x => f (g x)) l.
Proof. induction l as [|x l IH]; [reflexivity|]. cbn [map forallb]. rewrite IH. reflexivity. Qed.

Lemma encodable_concat (chunks : list (list N)) :
  encodable (concat chunks) = forallb encodable chunks.
Proof.
  induction chunks as [|c r IH]; [reflexivity|].
  cbn [concat forallb]. rewrite encodable_app, IH. reflexivity.
Qed.

Lemma encodable_join (sep : list N) (parts : list (list N)) :
  encodable sep = true -> encodable (join sep parts) = forallb encodable parts.
Proof.
  intros Hsep. induction parts as [|p ps IH]; [reflexivity|].
  destruct ps as [|q ps].
  - cbn [join forallb]. rewrite andb_true_r. reflexivity.
  - change (join sep (p :: q :: ps)) with (p ++ sep ++ join sep (q :: ps)).
    rewrite !encodable_app, Hsep, IH. reflexivity.
Qed.

Lemma encodable_newline_indent (level : nat) : encodable (newline_indent level) = true.
Proof.
  unfold newline_indent. rewrite encodable_cons. cbn [negb is_surrogate].
  apply forallb_forall. intros c Hc. apply repeat_spec in Hc. subst c. reflexivity.
Qed.

Lemma encodable_item_sep (level : nat) : encodable (44%N :: newline_indent level) = true.
Proof. rewrite encodable_cons, encodable_newline_indent. reflexivity. Qed.

Lemma encodable_codes_of_uint (u : Decimal.uint) : encodable (codes_of_uint u) = true.
Proof.
  induction u as [|u IH|u IH|u IH|u IH|u IH|u IH|u IH|u IH|u IH|u IH];
    cbn [codes_of_uint]; [reflexivity|..]; rewrite encodable_cons, IH; reflexivity.
Qed.

Lemma encodable_int_repr (z : Z) : encodable (int_repr z) = true.
Proof.
  unfold int_repr. destruct (Z.to_int z) as [u|u];
    [|rewrite encodable_cons]; rewrite encodable_codes_of_uint; reflexivity.
Qed.

Lemma hex_digit_small (d : N) : (d < 16)%N -> (hex_digit d < 55296)%N.
Proof. intros Hd. unfold hex_digit. destruct (d <? 10)%N; lia. Qed.

Lemma encodable_escape_char (c : N) : is_surrogate c = false -> encodable (escape_char c) = true.
Proof.
  intros Hc. unfold escape_char.
  repeat match goal with
         | |- context [if ?b then _ else _] => destruct b eqn:?
         end; try reflexivity.
  - match goal with E : (c <? 32)%N = true |- _ => apply N.ltb_lt in E end.
    apply encodable_small. repeat (constructor; [lia|]).
    constructor; [apply hex_digit_small, N.Div0.div_lt_upper_bound; lia|].
    constructor; [apply hex_digit_small, N.mod_lt; lia | constructor].
  - rewrite encodable_cons, Hc. reflexivity.
Qed.

Lemma encodable_encode_str (s : list N) : encodable s = true -> encodable (encode_str s) = true.
Proof.
  intros Hs. unfold encode_str. rewrite encodable_cons, encodable_app. cbn [negb is_surrogate].
  rewrite andb_true_r. cbn.
  induction s as [|c s IH]; [reflexivity|].
  rewrite encodable_cons in Hs. apply andb_prop in Hs as [Hc Hs].
  cbn [flat_map]. rewrite encodable_app, (IH Hs), andb_true_r.
  apply encodable_escape_char. destruct (is_surrogate c); [discriminate Hc | reflexivity].
Qed.

(** The text of a mapping is encodable when the text of each member is. *)
Lemma encodable_dict (level : nat) (kvs : list (list N * json)) :
  encodable (json_encode level (JDict kvs))
  = forallb (fun kv => encodable (member level kv)) kvs.
Proof.
  destruct kvs as [|kv kvs]; [reflexivity|].
  change (json_encode level (JDict (kv :: kvs)))
    with ([123%N] ++ newline_indent (S level)
          ++ join (44%N :: newline_indent (S level)) (map (member level) (kv :: kvs))
          ++ newline_indent level ++ [125%N]).
  rewrite !encodable_app, !encodable_newline_indent,
    (encodable_join _ _ (encodable_item_sep (S level))), forallb_map_comp.
  change (encodable [123%N]) with true. change (encodable [125%N]) with true.
  cbn [andb]. rewrite andb_true_r. reflexivity.
Qed.

Lemma encodable_int_list (level : nat) (l : list Z) :
  encodable (json_encode level (JList (map JInt l))) = true.
Proof.
  destruct l as [|z l]; [reflexivity|].
  change (json_encode level (JList (map JInt (z :: l))))
    with ([91%N] ++ newline_indent (S level)
          ++ join (44%N :: newline_indent (S level))
               (map (json_encode (S level)) (map JInt (z :: l)))
          ++ newline_indent level ++ [93%N]).
  rewrite !encodable_app, !encodable_newline_indent,
    (encodable_join _ _ (encodable_item_sep (S level))), !forallb_map_comp.
  assert (Hall : forallb (fun x => encodable (json_encode (S level) (JInt x))) (z :: l) = true).
  { apply forallb_forall. intros x _. apply encodable_int_repr. }
  rewrite Hall. change (encodable [91%N]) with true. change (encodable [93%N]) with true.
  reflexivity.
Qed.

Lemma forallb_dict_set (P : list N * json -> bool) (k : list N) (v : json)
    (d : list (list N * json)) :
  (forall k', str_eqb k k' = true -> P (k', v) = true) ->
  forallb P d = true -> forallb P (dict_set k v d) = true.
Proof.
  intros Hv. induction d as [|[k' v'] d IH]; cbn [dict_set forallb].
  - intros _. rewrite (Hv k) by apply str_eqb_refl. reflexivity.
  - intros Hd. apply andb_prop in Hd as [Hkv Hd].
    destruct (str_eqb k k') eqn:E; cbn [forallb].
    + rewrite (Hv k' E), Hd. reflexivity.
    + rewrite Hkv, (IH Hd). reflexivity.
Qed.

(** Setting a key whose text and whose value's text are encodable keeps
    the text of a mapping encodable. *)
Lemma encodable_dict_set (k : list N) (v : json) (d : list (list N * json)) :
  encodable k = true ->
  encodable (json_encode 1 v) = true ->
  encodable (json_dumps (JDict d)) = true ->
  encodable (json_dumps (JDict (dict_set k v d))) = true.
Proof.
  intros Hk Hv. unfold json_dumps. rewrite !encodable_dict.
  apply forallb_dict_set. intros k' E. apply str_eqb_eq in E as <-.
  unfold member. cbn [fst snd]. rewrite !encodable_app, (encodable_encode_str k Hk), Hv.
  reflexivity.
Qed.

(** The state that [record_published] saves is encodable when the state
    it started from is. *)
Lemma encodable_recorded_state (l : list Z) (now : Z) (s : list (list N * json)) :
  encodable (json_dumps (JDict s)) = true ->
  encodable (json_dumps (recorded_state (map JInt l) now s)) = true.
Proof.
  intros Hs. unfold recorded_state.
  apply encodable_dict_set; [reflexivity | apply encodable_encode_str, isoformat_text|].
  apply encodable_dict_set; [reflexivity | apply encodable_int_list | exact Hs].
Qed.

Lemma concat_item_chunks (chunks : json -> list (list N)) (text : json -> list N)
    (sep : list N) (l : list json) :
  Forall (fun y => concat (chunks y) = text y) l ->
  forall buf,
    concat (item_chunks chunks text sep buf l)
    = match l with [] => [] | _ :: _ => buf ++ join sep (map text l) end.
Proof.
  induction 1 as [|y l Hy _ IH]; intros buf; [reflexivity|].
  cbn [item_chunks map]. rewrite concat_app, IH.
  assert (Hhead : concat (if is_container y then buf :: chunks y else [buf ++ text y])
                  = buf ++ text y).
  { destruct (is_container y); cbn [concat]; [rewrite Hy | rewrite app_nil_r]; reflexivity. }
  rewrite Hhead. destruct l as [|z l]; [cbn [join map]; rewrite app_nil_r; reflexivity|].
  change (join sep (text y :: map text (z :: l)))
    with (text y ++ sep ++ join sep (map text (z :: l))).
  rewrite <- !app_assoc. reflexivity.
Qed.

Lemma concat_member_chunks (chunks : json -> list (list N)) (text : json -> list N)
    (sep : list N) (kvs : list (list N * json)) :
  Forall (fun kv => concat (chunks (snd kv)) = text (snd kv)) kvs ->
  forall first,
    concat (member_chunks chunks text sep first kvs)
    = match kvs with
      | [] => []
      | _ :: _ =>
          (if first then [] else sep)
          ++ join sep (map (fun kv => encode_str (fst kv) ++ [58%N; 32%N] ++ text (snd kv)) kvs)
      end.
Proof.
  induction 1 as [|kv kvs Hkv _ IH]; intros first; [reflexivity|].
  cbn [member_chunks map]. rewrite !concat_app, IH.
  assert (Hval : concat (if is_container (snd kv) then chunks (snd kv) else [text (snd kv)])
                 = text (snd kv)).
  { destruct (is_container (snd kv)); cbn [concat]; [exact Hkv | apply app_nil_r]. }
  rewrite Hval.
  assert (Hsep : concat (if first then [] else [sep]) = (if first then [] else sep)).
  { destruct first; cbn [concat]; [reflexivity | apply app_nil_r]. }
  rewrite Hsep. cbn [concat]. rewrite app_nil_r.
  destruct kvs as [|kv' kvs]; [cbn [join map]; rewrite app_nil_r, <- !app_assoc; reflexivity|].
  match goal with
  | |- _ = _ ++ join sep (?p :: map ?f (kv' :: kvs)) =>
      change (join sep (p :: map f (kv' :: kvs)))
        with (p ++ sep ++ join sep (map f (kv' :: kvs)))
  end.
  rewrite <- !app_assoc. reflexivity.
Qed.

(** The pieces of a write, put together, are the text of the value. *)
Lemma concat_json_chunks (v : json) (level : nat) :
  concat (json_chunks level v) = json_encode level v.
Proof.
  revert level.
  induction v as [|b|z|f|s|l IH|kvs IH] using json_nested_ind; intros level;
    try (cbn [json_chunks concat]; apply app_nil_r).
  - destruct l as [|x l]; [reflexivity|].
    change (json_chunks level (JList (x :: l)))
      with (item_chunks (json_chunks (S level)) (json_encode (S level))
              (44%N :: newline_indent (S level)) ([91%N] ++ newline_indent (S level)) (x :: l)
            ++ [newline_indent level; [93%N]]).
    change (json_encode level (JList (x :: l)))
      with ([91%N] ++ newline_indent (S level)
            ++ join (44%N :: newline_indent (S level)) (map (json_encode (S level)) (x :: l))
            ++ newline_indent level ++ [93%N]).
    rewrite concat_app, concat_item_chunks.
    + cbn [concat]. rewrite app_nil_r, <- !app_assoc. reflexivity.
    + eapply List.Forall_impl; [|exact IH]. intros y Hy. apply Hy.
  - destruct kvs as [|kv kvs]; [reflexivity|].
    change (json_chunks level (JDict (kv :: kvs)))
      with ([[123%N]; newline_indent (S level)]
            ++ member_chunks (json_chunks (S level)) (json_encode (S level))
                 (44%N :: newline_indent (S level)) true (kv :: kvs)
            ++ [newline_indent level; [125%N]]).
    change (json_encode level (JDict (kv :: kvs)))
      with ([123%N] ++ newline_indent (S level)
            ++ join (44%N :: newline_indent (S level))
                 (map (fun kv => encode_str (fst kv) ++ [58%N; 32%N]
                                 ++ json_encode (S level) (snd kv)) (kv :: kvs))
            ++ newline_indent level ++ [125%N]).
    rewrite !concat_app, concat_member_chunks.
    + cbn [concat app]. rewrite app_nil_r. reflexivity.
    + eapply List.Forall_impl; [|exact IH]. intros y Hy. apply Hy.
Qed.

Lemma written_all (chunks : list (list N)) :
  forallb encodable chunks = true -> written chunks = chunks.
Proof.
  induction chunks as [|c r IH]; [reflexivity|]. cbn [forallb written].
  intros Hc. apply andb_prop in Hc as [-> Hr]. rewrite (IH Hr). reflexivity.
Qed.

Lemma chunks_encodable (state : json) :
  forallb encodable (json_chunks 0 state) = encodable (json_dumps state).
Proof. rewrite <- encodable_concat, concat_json_chunks. reflexivity. Qed.

(** What reaches the file is text that UTF-8 encodes, and the beginning of
    the whole text; something is missing when a piece could not be
    written. *)
Lemma written_encodable (chunks : list (list N)) : encodable (concat (written chunks)) = true.
Proof.
  induction chunks as [|c r IH]; [reflexivity|]. cbn [written].
  destruct (encodable c) eqn:E; [|reflexivity].
  cbn [concat]. rewrite encodable_app, E, IH. reflexivity.
Qed.

Lemma written_prefix (chunks : list (list N)) :
  exists rest,
    concat chunks = concat (written chunks) ++ rest
    /\ (forallb encodable chunks = false -> rest <> []).
Proof.
  induction chunks as [|c r (rest & Hr & Hne)]; [exists []; split; [reflexivity | discriminate]|].
  cbn [written forallb]. destruct (encodable c) eqn:E.
  - exists rest. cbn [concat]. rewrite Hr, <- app_assoc. split; [reflexivity | exact Hne].
  - exists (concat (c :: r)). split; [reflexivity|]. intros _. cbn [concat].
    destruct c as [|x c]; [discriminate E | discriminate].
Qed.

Lemma saved_text_all (state : json) :
  encodable (json_dumps state) = true -> saved_text state = json_dumps state.
Proof.
  intros He. unfold saved_text. rewrite written_all by (rewrite chunks_encodable; exact He).
  apply concat_json_chunks.
Qed.

(** [save_state] writes the text of the state and returns, or leaves the
    pieces before the first that UTF-8 cannot encode and raises. *)
Lemma save_state_run (path : list N) (state : json) (w : world) :
  save_state path state w
  = (if encodable (json_dumps state) then Ok tt else Raise UnicodeEncodeError,
     {| files := <[path := saved_text state]> (files w); ticks := ticks w;
        output := output w; sent := sent w; pushed := pushed w |}).
Proof. unfold save_state. cbn zeta. rewrite chunks_encodable. reflexivity. Qed.

(** [save_state] writes the whole text of the state and returns; or the
    text has a character that UTF-8 cannot encode, it raises
    [UnicodeEncodeError], and the file, emptied when it was opened, holds a
    beginning of the text that stops short of it. No other file
    changes. *)
Theorem save_state_writes_or_truncates (path : list N) (state : json) (w : world) :
  (encodable (json_dumps state) = true
   /\ fst (save_state path state w) = Ok tt
   /\ files (snd (save_state path state w)) = <[path := json_dumps state]> (files w))
  \/ (encodable (json_dumps state) = false
      /\ fst (save_state path state w) = Raise UnicodeEncodeError
      /\ exists text rest,
           files (snd (save_state path state w)) = <[path := text]> (files w)
           /\ json_dumps state = text ++ rest
           /\ rest <> []
           /\ encodable text = true).
Proof.
  rewrite save_state_run. cbn [fst snd files].
  destruct (encodable (json_dumps state)) eqn:He.
  - left. rewrite (saved_text_all state He). auto.
  - right. split; [reflexivity|]. split; [reflexivity|].
    destruct (written_prefix (json_chunks 0 state)) as (rest & Hr & Hne).
    exists (saved_text state), rest. split; [reflexivity|].
    split; [unfold json_dumps; rewrite <- (concat_json_chunks state 0); exact Hr|].
    split; [apply Hne; rewrite chunks_encodable; exact He | apply written_encodable].
Qed.

End Encoding.

(** ** The state file *)

Section StateFile.
Context `{Externals}.

Lemma plain_int_list (ids : list Z) : plain (JList (map JInt ids)).
Proof.
  apply plain_list. induction ids as [|z ids IH]; cbn [map];
    [apply List.Forall_nil | apply List.Forall_cons; [apply plain_int | exact IH]].
Qed.

Lemma well_formed_plain (state : json) : well_formed_state state -> plain state.
Proof.
  intros (ids & last & Hlast & Hst).
  assert (Hl : plain last) by (destruct Hlast as [->|(s & -> & _)]; constructor).
  pose proof (plain_int_list ids) as Hi.
  destruct Hst as [->| ->]; apply plain_dict.
  - cbn [map fst]. apply NoDup_cons. split; [|apply NoDup_singleton].
    intros Hin. apply list_elem_of_singleton in Hin. discriminate Hin.
  - repeat (apply List.Forall_cons; [assumption|]). apply List.Forall_nil.
  - cbn [map fst]. apply NoDup_cons. split; [|apply NoDup_singleton].
    intros Hin. apply list_elem_of_singleton in Hin. discriminate Hin.
  - repeat (apply List.Forall_cons; [assumption|]). apply List.Forall_nil.
Qed.

Lemma well_formed_encodable (state : json) :
  well_formed_state state -> encodable (json_dumps state) = true.
Proof.
  intros (ids & last & Hlast & Hst).
  assert (Hl : encodable (json_encode 1 last) = true).
  { destruct Hlast as [->|(s & -> & Hs)]; [reflexivity | apply encodable_encode_str, Hs]. }
  pose proof (encodable_int_list 1 ids) as Hi.
  unfold json_dumps.
  destruct Hst as [->| ->]; rewrite encodable_dict; cbn [forallb]; unfold member; cbn [fst snd];
    rewrite !encodable_app, Hl, Hi; reflexivity.
Qed.

(** C4: saving a well-formed state to a path and loading it from that
    path gives back the state. *)
Theorem load_state_save_state (path : list N) (state : json) (w : world) :
  well_formed_state state ->
  load_state path (snd (save_state path state w))
  = (Ok state, snd (save_state path state w)).
Proof.
  intros Hwf. rewrite save_state_run, (saved_text_all state (well_formed_encodable state Hwf)).
  unfold load_state. cbn [snd files]. rewrite lookup_insert_eq.
  rewrite (plain_reads_back state (well_formed_plain state Hwf)). reflexivity.
Qed.

Lemma json_loads_raises (text : list N) (e : exn) :
  json_loads text = Raise e -> e = JSONDecodeError.
Proof.
  unfold json_loads.
  destruct (match text with c :: _ => (c =? 65279)%N | [] => false end); [congruence|].
  destruct (scan_once _ _) as [[v r]|]; [|congruence].
  destruct (skip_ws r); congruence.
Qed.

End StateFile.

(** ** Runs of [main] *)

Section Run.
Context `{Externals} (env : environment).

Lemma same_store_refl (w : world) : same_store w w.
Proof. repeat split. Qed.

Lemma same_store_trans (w1 w2 w3 : world) :
  same_store w1 w2 -> same_store w2 w3 -> same_store w1 w3.
Proof. unfold same_store. intros (? & ? & ?) (? & ? & ?). repeat split; congruence. Qed.

Lemma quiet_ret {A} (a : A) : quiet (ret a).
Proof. intros w. apply same_store_refl. Qed.

Lemma quiet_raise {A} (e : exn) : quiet (@raise A e).
Proof. intros w. apply same_store_refl. Qed.

Lemma quiet_lift {A} (r : result A) : quiet (lift r).
Proof. intros w. apply same_store_refl. Qed.

Lemma quiet_print (l : line) : quiet (print l).
Proof. intros w. repeat split. Qed.

Lemma quiet_utcnow : quiet (utcnow env).
Proof. intros w. repeat split. Qed.

Lemma quiet_bind {A B} (m : M A) (k : A -> M B) :
  quiet m -> (forall a, quiet (k a)) -> quiet (bind m k).
Proof.
  intros Hm Hk w. unfold bind. specialize (Hm w).
  destruct (m w) as [[a|e] w1]; cbn [snd] in *; [|exact Hm].
  eapply same_store_trans; [exact Hm | apply Hk].
Qed.

Lemma quiet_try_except {A} (m : M A) (h : exn -> M A) :
  quiet m -> (forall e, quiet (h e)) -> quiet (try_except m h).
Proof.
  intros Hm Hh w. unfold try_except. specialize (Hm w).
  destruct (m w) as [[a|e] w1]; cbn [snd] in *; [exact Hm|].
  destruct (is_exception e); [|exact Hm].
  eapply same_store_trans; [exact Hm | apply Hh].
Qed.

Lemma quiet_try_bare {A} (m h : M A) : quiet m -> quiet h -> quiet (try_bare m h).
Proof.
  intros Hm Hh w. unfold try_bare. specialize (Hm w).
  destruct (m w) as [[a|e] w1]; cbn [snd] in *; [exact Hm|].
  eapply same_store_trans; [exact Hm | apply Hh].
Qed.

Lemma quiet_filterM {A} (p : A -> M bool) (l : list A) :
  (forall x, quiet (p x)) -> quiet (filterM p l).
Proof.
  intros Hp. induction l as [|x l IH]; [apply quiet_ret|]. cbn [filterM].
  apply quiet_bind; [apply Hp|]. intros b.
  apply quiet_bind; [exact IH|]. intros r. apply quiet_ret.
Qed.

Lemma quiet_mapM {A B} (f : A -> M B) (l : list A) :
  (forall x, quiet (f x)) -> quiet (mapM f l).
Proof.
  intros Hf. induction l as [|x l IH]; [apply quiet_ret|]. cbn [mapM].
  apply quiet_bind; [apply Hf|]. intros b.
  apply quiet_bind; [exact IH|]. intros r. apply quiet_ret.
Qed.

Ltac quiet_step :=
  first
    [ apply quiet_ret | apply quiet_raise | apply quiet_lift | apply quiet_print
    | apply quiet_utcnow
    | apply quiet_bind; [|intros ?]
    | apply quiet_try_except; [|intros ?]
    | apply quiet_try_bare
    | match goal with
      | |- quiet (if ?b then _ else _) => destruct b
      | |- quiet (match ?x with _ => _ end) => destruct x
      end ].

Lemma quiet_load_state (path : list N) : quiet (load_state path).
Proof. intros w. unfold load_state. destruct (files w !! path); apply same_store_refl. Qed.

Lemma quiet_fetch_coupons : quiet (fetch_coupons env).
Proof. unfold fetch_coupons, sys_exit. repeat quiet_step. Qed.

Lemma quiet_is_valid_coupon (c : json) : quiet (is_valid_coupon env c).
Proof. unfold is_valid_coupon. repeat quiet_step. Qed.

Lemma quiet_sort_key (c : json) : quiet (sort_key env c).
Proof. unfold sort_key. repeat quiet_step. Qed.

Lemma quiet_sorted_by_key (l : list json) : quiet (sorted_by_key env l).
Proof.
  unfold sorted_by_key. apply quiet_bind; [apply quiet_mapM, quiet_sort_key|].
  intros keys. repeat quiet_step.
Qed.

Lemma quiet_select_coupon (coupons published : list json) (state : list (list N * json)) :
  quiet (select_coupon env coupons published state).
Proof.
  unfold select_coupon, sys_exit.
  apply quiet_bind; [apply quiet_filterM, quiet_is_valid_coupon|]. intros valid.
  destruct valid; [repeat quiet_step|].
  apply quiet_bind; [apply quiet_sorted_by_key|]. intros vs.
  repeat quiet_step.
Qed.

Lemma load_state_world (path : list N) (w : world) : snd (load_state path w) = w.
Proof. unfold load_state. destruct (files w !! path); reflexivity. Qed.

(** How a run of [main] goes: it stops before posting, with an exception
    or an exit, or it reaches [post_and_record] with a selected coupon. *)
Lemma main_cases (w : world) (r : result unit) (w' : world) :
  main env w = (r, w') ->
  (same_store w w' /\ exists e, r = Raise e)
  \/ (exists state0 p0 coupons w0 p s c w1,
        load_state (STATE_FILE env) w = (Ok (JDict state0), w)
        /\ py_set (dict_get (lit "published_ids") (JList []) state0) = Ok p0
        /\ fetch_coupons env w = (Ok coupons, w0)
        /\ select_coupon env coupons p0 state0 w0 = (Ok (p, s, c), w1)
        /\ same_store w w1
        /\ post_and_record env c p s w1 = (r, w')).
Proof.
  unfold main, bind at 1.
  pose proof (load_state_world (STATE_FILE env) w) as Hlw.
  destruct (load_state (STATE_FILE env) w) as [[st|e] wl] eqn:Hload; cbn [snd] in Hlw; subst wl.
  2:{ intros [= <- <-]. left. split; [apply same_store_refl | eauto]. }
  unfold bind at 1, lift at 1.
  destruct (attr_get st) as [state0|e] eqn:Hattr.
  2:{ intros [= <- <-]. left. split; [apply same_store_refl | eauto]. }
  assert (st = JDict state0) as -> by (destruct st; inversion Hattr; reflexivity).
  unfold bind at 1, lift at 1.
  destruct (py_set (dict_get (lit "published_ids") (JList []) state0)) as [p0|e] eqn:Hset.
  2:{ intros [= <- <-]. left. split; [apply same_store_refl | eauto]. }
  unfold bind at 1.
  pose proof (quiet_fetch_coupons w) as Hq0.
  destruct (fetch_coupons env w) as [[coupons|e] w0] eqn:Hfetch; cbn [snd] in Hq0.
  2:{ intros [= <- <-]. left. split; [exact Hq0 | eauto]. }
  destruct coupons as [|c0 coupons].
  { unfold bind, print, sys_exit, raise. intros [= <- <-]. left.
    split; [|eauto]. destruct Hq0 as (? & ? & ?). repeat split; assumption. }
  unfold bind at 1.
  pose proof (quiet_select_coupon (c0 :: coupons) p0 state0 w0) as Hq1.
  destruct (select_coupon env (c0 :: coupons) p0 state0 w0) as [[[[p s] c]|e] w1] eqn:Hsel;
    cbn [snd] in Hq1.
  2:{ intros [= <- <-]. left. split; [eapply same_store_trans; eassumption | eauto]. }
  pose proof (same_store_trans _ _ _ Hq0 Hq1) as Hq.
  destruct (truthy c); cbn [negb].
  - intros Hpost. right. exists state0, p0, (c0 :: coupons), w0, p, s, c, w1. auto 10.
  - unfold bind, print, sys_exit, raise. intros [= <- <-]. left.
    split; [|eauto]. destruct Hq as (? & ? & ?). repeat split; assumption.
Qed.

Lemma attr_get_raises (v : json) (e : exn) : attr_get v = Raise e -> e = AttributeError.
Proof. destruct v; cbn; congruence. Qed.

Lemma confirmed_raises (resp : option json) (e : exn) :
  confirmed resp = Raise e -> e = AttributeError.
Proof.
  unfold confirmed. destruct resp as [r|]; [|congruence].
  destruct (truthy r); [|congruence].
  destruct (attr_get r) eqn:Hr; cbn; [congruence|].
  intros [= <-]. eapply attr_get_raises; eassumption.
Qed.

(** [deliver] raises before anything is posted, or posts one request,
    for the caption of the coupon, and returns the gateway's answer. *)
Lemma deliver_cases (c : json) (w : world) :
  (exists e, deliver env c w = (Raise e, w) /\ e = AttributeError)
  \/ (exists req caption w2,
        make_caption c = Ok caption
        /\ (req = SendMessage caption \/ exists photo, req = SendPhoto photo caption)
        /\ deliver env c w = (Ok (telegram env req), w2)
        /\ files w2 = files w /\ sent w2 = sent w ++ [req] /\ pushed w2 = pushed w).
Proof.
  unfold deliver, bind, lift.
  destruct (attr_get c) as [d|e] eqn:Hd.
  2:{ left. exists e. split; [reflexivity | eapply attr_get_raises; eassumption]. }
  destruct (attr_get (dict_get (lit "store") (JDict []) d)) as [store|e] eqn:Hs.
  2:{ left. exists e. split; [reflexivity | eapply attr_get_raises; eassumption]. }
  destruct (make_caption c) as [caption|e] eqn:Hc.
  2:{ left. exists e. split; [reflexivity|]. unfold make_caption in Hc. rewrite Hd in Hc.
      discriminate Hc. }
  right.
  destruct (truthy _).
  - exists (SendPhoto (py_or (dict_get (lit "logo_url") JNull store)
                       (py_or (dict_get (lit "logo_url") JNull d) (JStr []))) caption), caption.
    unfold post_to_telegram_photo, post.
    destruct (telegram env _) as [r|]; eexists; (split; [reflexivity|]);
      (split; [right; eexists; reflexivity|]); (split; [reflexivity|]); repeat split.
  - exists (SendMessage caption), caption. unfold post.
    destruct (telegram env _) as [r|]; eexists; (split; [reflexivity|]);
      (split; [left; reflexivity|]); (split; [reflexivity|]); repeat split.
Qed.

(** How [post_and_record] goes: nothing is posted and it raises; or one
    request is posted and, depending on the answer, the coupon is recorded
    or the run fails with the files as they were. *)
Lemma post_and_record_cases (c : json) (p : list json) (s : list (list N * json))
    (w : world) (r : result unit) (w' : world) :
  post_and_record env c p s w = (r, w') ->
  (same_store w w' /\ r = Raise AttributeError)
  \/ (exists req caption w2,
        make_caption c = Ok caption
        /\ (req = SendMessage caption \/ exists photo, req = SendPhoto photo caption)
        /\ files w2 = files w /\ sent w2 = sent w ++ [req] /\ pushed w2 = pushed w
        /\ ((confirmed (telegram env req) = Ok true
             /\ record_published env c p s w2 = (r, w'))
            \/ (confirmed (telegram env req) <> Ok true
                /\ same_store w2 w' /\ exit_code r = 1))).
Proof.
  unfold post_and_record, bind at 1.
  destruct (deliver_cases c w) as [(e & -> & ->)|(req & caption & w2 & Hc & Hreq & -> & Hf & Hs & Hp)].
  { intros [= <- <-]. left. split; [apply same_store_refl | reflexivity]. }
  intros Hrun. right. exists req, caption, w2.
  repeat (split; [assumption|]).
  unfold bind at 1, lift at 1 in Hrun.
  destruct (confirmed (telegram env req)) as [[|]|e] eqn:Hok.
  - left. split; [reflexivity | exact Hrun].
  - right. split; [discriminate|].
    unfold bind, print, sys_exit, raise in Hrun. injection Hrun as <- <-.
    split; [repeat split | reflexivity].
  - right. split; [discriminate|]. injection Hrun as <- <-.
    apply confirmed_raises in Hok as ->. split; [apply same_store_refl | reflexivity].
Qed.

Lemma record_published_sent (c : json) (p : list json) (s : list (list N * json)) (w : world) :
  sent (snd (record_published env c p s w)) = sent w.
Proof.
  unfold record_published, try_except, bind, lift, utcnow, print, git_commit_and_push.
  destruct (coupon_cid c) as [cid|e].
  2:{ destruct (is_exception e); reflexivity. }
  destruct (py_sorted _) as [ids|e].
  2:{ destruct (is_exception e); reflexivity. }
  rewrite save_state_run. destruct (encodable _); [destruct (git_ok env)|]; reflexivity.
Qed.

Lemma app_singleton_neq {A} (l : list A) (x : A) : l <> l ++ [x].
Proof.
  intros Heq. apply (f_equal length) in Heq. rewrite length_app in Heq. cbn in Heq. lia.
Qed.

(** C5: when a request was posted and the gateway's answer does not
    confirm it (no answer, an answer without a true [ok], or an answer that
    is no mapping), the files are as they were and the exit status is 1. *)
Theorem unconfirmed_delivery_keeps_state (w : world) (r : result unit) (w' : world)
    (req : request) :
  main env w = (r, w') ->
  sent w' = sent w ++ [req] ->
  confirmed (telegram env req) <> Ok true ->
  files w' = files w /\ exit_code r = 1.
Proof.
  intros Hmain Hsent Hno.
  destruct (main_cases w r w' Hmain)
    as [((_ & Hs & _) & _)
       |(state0 & p0 & coupons & w0 & p & s & c & w1 & _ & _ & _ & _ & (Hf1 & Hs1 & _) & Hpost)].
  { rewrite Hs in Hsent. destruct (app_singleton_neq _ _ Hsent). }
  destruct (post_and_record_cases c p s w1 r w' Hpost)
    as [((_ & Hs & _) & _)
       |(req' & caption & w2 & _ & _ & Hf2 & Hs2 & _ & [(Hok & Hrec)|(_ & (Hf3 & Hs3 & _) & Hexit)])].
  - rewrite Hs, Hs1 in Hsent. destruct (app_singleton_neq _ _ Hsent).
  - pose proof (record_published_sent c p s w2) as Hrs. rewrite Hrec in Hrs. cbn [snd] in Hrs.
    rewrite Hrs, Hs2, Hs1 in Hsent. apply app_inj_tail in Hsent as [_ ->]. contradiction.
  - split; [congruence | exact Hexit].
Qed.

Lemma dict_lookup_set_eq (k : list N) (v : json) (d : list (list N * json)) :
  dict_lookup k (dict_set k v d) = Some v.
Proof.
  induction d as [|[k' v'] d IH]; cbn [dict_set dict_lookup].
  - rewrite str_eqb_refl. reflexivity.
  - destruct (str_eqb k k') eqn:E; cbn [dict_lookup]; rewrite E; [reflexivity | exact IH].
Qed.

Lemma dict_lookup_set_ne (k k' : list N) (v : json) (d : list (list N * json)) :
  k <> k' -> dict_lookup k (dict_set k' v d) = dict_lookup k d.
Proof.
  intros Hne. induction d as [|[k2 v2] d IH]; cbn [dict_set dict_lookup].
  - rewrite str_eqb_neq by exact Hne. reflexivity.
  - destruct (str_eqb k' k2) eqn:E; cbn [dict_lookup].
    + apply str_eqb_eq in E as <-. rewrite str_eqb_neq by exact Hne. reflexivity.
    + destruct (str_eqb k k2); [reflexivity | exact IH].
Qed.

Lemma recorded_state_ids (ids : list json) (now : Z) (s : list (list N * json)) :
  exists state', recorded_state ids now s = JDict state'
    /\ dict_lookup (lit "published_ids") state' = Some (JList ids).
Proof.
  eexists. split; [reflexivity|].
  rewrite dict_lookup_set_ne by discriminate. apply dict_lookup_set_eq.
Qed.

Lemma next_unposted_none (p vs : list json) :
  next_unposted p vs = Ok None <->
  (forall x, In x vs -> exists cid, coupon_cid x = Ok cid /\ set_mem (JInt cid) p = true).
Proof.
  induction vs as [|c vs IH]; cbn [next_unposted].
  - split; [intros _ x []|reflexivity].
  - destruct (coupon_cid c) as [cid|e] eqn:Hc; cbn [rbind].
    + destruct (set_mem (JInt cid) p) eqn:Hm; cbn [negb].
      * rewrite IH. split.
        -- intros Hall x [<-|Hin]; [eauto | auto].
        -- intros Hall x Hin. apply Hall. right. exact Hin.
      * split; [discriminate|]. intros Hall.
        destruct (Hall c (or_introl eq_refl)) as (cid' & Hc' & Hm'). congruence.
    + split; [discriminate|]. intros Hall.
      destruct (Hall c (or_introl eq_refl)) as (cid' & Hc' & _). congruence.
Qed.

Lemma next_unposted_some (p vs : list json) (c : json) :
  next_unposted p vs = Ok (Some c) ->
  In c vs /\ exists cid, coupon_cid c = Ok cid /\ set_mem (JInt cid) p = false.
Proof.
  induction vs as [|x vs IH]; cbn [next_unposted]; [discriminate|].
  destruct (coupon_cid x) as [cid|e] eqn:Hc; cbn [rbind]; [|discriminate].
  destruct (set_mem (JInt cid) p) eqn:Hm; cbn [negb].
  - intros Hn. destruct (IH Hn) as (Hin & Hex). split; [right; exact Hin | exact Hex].
  - intros [= <-]. split; [left; reflexivity | eauto].
Qed.

Lemma sorted_by_key_nil (w : world) : sorted_by_key env [] w = (Ok [], w).
Proof. reflexivity. Qed.

(** What [select_coupon] returns: the first unposted coupon with the set
    and the state as they were, or, when every sorted coupon is posted,
    the first sorted coupon with an empty set and an emptied list. *)
Lemma select_coupon_cases (coupons p0 : list json) (s0 : list (list N * json)) (w : world)
    (p : list json) (s : list (list N * json)) (c : json) (w1 : world) :
  select_coupon env coupons p0 s0 w = (Ok (p, s, c), w1) ->
  exists cid, coupon_cid c = Ok cid
    /\ ((p = p0 /\ s = s0 /\ set_mem (JInt cid) p0 = false)
        \/ (p = [] /\ s = dict_set (lit "published_ids") (JList []) s0)).
Proof.
  unfold select_coupon, bind at 1.
  destruct (filterM (is_valid_coupon env) coupons w) as [[valid|e] wa]; [|discriminate].
  destruct valid as [|v valid]; [unfold bind, print, sys_exit, raise; discriminate|].
  unfold bind at 1.
  destruct (sorted_by_key env (v :: valid) wa) as [[vs|e] wb]; [|discriminate].
  unfold bind at 1, lift at 1.
  destruct (next_unposted p0 vs) as [[c'|]|e] eqn:Hn; [| |discriminate].
  - unfold ret. intros [= <- <- <- <-].
    destruct (next_unposted_some _ _ _ Hn) as (_ & cid & Hc & Hm). eauto 10.
  - destruct vs as [|c' vs]; [unfold bind, print, raise; discriminate|].
    unfold bind, print, ret. intros [= <- <- <- <-].
    rewrite next_unposted_none in Hn.
    destruct (Hn c' (or_introl eq_refl)) as (cid & Hc & _). eauto 10.
Qed.

Lemma select_coupon_reset (coupons p0 : list json) (s0 : list (list N * json)) (w : world)
    (valid : list json) (wa : world) (c : json) (vs : list json) (wb : world) :
  filterM (is_valid_coupon env) coupons w = (Ok valid, wa) ->
  sorted_by_key env valid wa = (Ok (c :: vs), wb) ->
  (forall x, In x (c :: vs) -> exists cid, coupon_cid x = Ok cid /\ set_mem (JInt cid) p0 = true) ->
  exists w1,
    select_coupon env coupons p0 s0 w
    = (Ok ([], dict_set (lit "published_ids") (JList []) s0, c), w1).
Proof.
  intros Hf Hs Hall. unfold select_coupon, bind at 1. rewrite Hf.
  destruct valid as [|v valid]; [rewrite sorted_by_key_nil in Hs; discriminate|].
  unfold bind at 1. rewrite Hs. unfold bind at 1, lift at 1.
  apply next_unposted_none in Hall. rewrite Hall.
  unfold bind, print, ret. eexists. reflexivity.
Qed.

(** *** Sets and sorted lists of integers *)

Lemma py_eq_int (a b : Z) : py_eq (JInt a) (JInt b) = (a =? b).
Proof.
  unfold py_eq, xval_of, xval_eqb, dyadic_compare. cbn [Z.min Z.sub Z.opp Z.add Z.pow].
  rewrite !Z.mul_1_r.
  destruct (Z.compare_spec a b), (Z.eqb_spec a b); try reflexivity; lia.
Qed.

Lemma py_lt_int (a b : Z) : py_lt (JInt a) (JInt b) = Ok (a <? b).
Proof.
  unfold py_lt, xval_of, xval_ltb, dyadic_compare. cbn [Z.min Z.sub Z.opp Z.add Z.pow].
  rewrite !Z.mul_1_r. unfold Z.ltb. destruct (a ?= b); reflexivity.
Qed.

(** For a value that is no float the test of a set is [==]. *)
Lemma set_eq_int (x : Z) (v : json) : set_eq (JInt x) v = py_eq (JInt x) v.
Proof. reflexivity. Qed.

Lemma set_mem_int (x : Z) (u : list Z) : set_mem (JInt x) (map JInt u) = true <-> In x u.
Proof.
  unfold set_mem. rewrite existsb_exists. split.
  - intros (v & Hin & Heq). apply in_map_iff in Hin as (y & <- & Hy).
    rewrite set_eq_int, py_eq_int in Heq. apply Z.eqb_eq in Heq as ->. exact Hy.
  - intros Hin. exists (JInt x). split; [apply in_map; exact Hin|].
    rewrite set_eq_int, py_eq_int. apply Z.eqb_refl.
Qed.

Lemma set_add_int (x : Z) (u : list Z) :
  NoDup u ->
  exists u', set_add (JInt x) (map JInt u) = map JInt u'
    /\ NoDup u' /\ (forall y, In y u' <-> y = x \/ In y u).
Proof.
  intros Hnd. unfold set_add. destruct (set_mem (JInt x) (map JInt u)) eqn:Hm.
  - apply set_mem_int in Hm. exists u. split; [reflexivity|]. split; [exact Hnd|].
    intros y. split; [auto | intros [->|?]; assumption].
  - exists (u ++ [x]). split; [rewrite map_app; reflexivity|]. split.
    + apply NoDup_app. split; [exact Hnd|]. split; [|apply NoDup_singleton].
      intros y Hy Hx. apply list_elem_of_singleton in Hx as ->.
      apply list_elem_of_In in Hy. apply set_mem_int in Hy. congruence.
    + intros y. rewrite in_app_iff. cbn [In]. intuition.
Qed.

Lemma set_of_items_int (l acc : list Z) :
  NoDup acc ->
  exists u, set_of_items (map JInt l) (map JInt acc) = Ok (map JInt u)
    /\ NoDup u /\ (forall y, In y u <-> In y acc \/ In y l).
Proof.
  revert acc. induction l as [|x l IH]; intros acc Hnd; cbn [map set_of_items].
  - exists acc. split; [reflexivity|]. split; [exact Hnd|]. intros y. cbn [In]. intuition.
  - cbn [hashable]. destruct (set_add_int x acc Hnd) as (acc' & -> & Hnd' & Hin').
    destruct (IH acc' Hnd') as (u & Hu & Hndu & Hinu).
    exists u. split; [exact Hu|]. split; [exact Hndu|].
    intros y. rewrite Hinu, Hin'. cbn [In]. intuition.
Qed.

Lemma py_set_int (ids : list Z) :
  exists u, py_set (JList (map JInt ids)) = Ok (map JInt u)
    /\ NoDup u /\ (forall y, In y u <-> In y ids).
Proof.
  destruct (set_of_items_int ids [] (NoDup_nil_2)) as (u & Hu & Hnd & Hin).
  exists u. split; [exact Hu|]. split; [exact Hnd|].
  intros y. rewrite Hin. cbn [In]. intuition.
Qed.

Lemma insert_sorted_int (x : Z) (l : list Z) :
  StronglySorted Z.lt l -> ~ In x l ->
  exists l', insert_sorted py_lt (decorate x) (map decorate l) = Ok (map decorate l')
    /\ StronglySorted Z.lt l' /\ (forall y, In y l' <-> y = x \/ In y l).
Proof.
  induction l as [|y l IH]; intros Hs Hx.
  - exists [x]. split; [reflexivity|]. split; [repeat constructor|]. intros z. cbn [In]. intuition.
  - apply StronglySorted_inv in Hs as [Hs Hy].
    cbn [map insert_sorted]. cbn [decorate fst]. rewrite py_lt_int. cbn [rbind].
    destruct (Z.ltb_spec y x) as [Hlt|Hge].
    + destruct (IH Hs) as (l' & -> & Hs' & Hin'); [intros Hin; apply Hx; right; exact Hin|].
      exists (y :: l'). split; [reflexivity|]. split.
      * constructor; [exact Hs'|]. apply List.Forall_forall. intros z Hz.
        apply Hin' in Hz as [->|Hz]; [exact Hlt|].
        rewrite List.Forall_forall in Hy. apply Hy. exact Hz.
      * intros z. cbn [In]. rewrite Hin'. intuition.
    + assert (Hxy : x < y) by (assert (x <> y) by (intros ->; apply Hx; left; reflexivity); lia).
      exists (x :: y :: l). split; [reflexivity|]. split.
      * constructor; [constructor; assumption|].
        constructor; [exact Hxy|]. rewrite List.Forall_forall in Hy |- *.
        intros z Hz. specialize (Hy z Hz). lia.
      * intros z. cbn [In]. intuition.
Qed.

Lemma sort_decorated_int (u : list Z) :
  NoDup u ->
  exists l, sort_decorated py_lt (map decorate u) = Ok (map decorate l)
    /\ StronglySorted Z.lt l /\ (forall y, In y l <-> In y u).
Proof.
  induction u as [|x u IH]; intros Hnd.
  - exists []. split; [reflexivity|]. split; [constructor|]. intros y. reflexivity.
  - apply NoDup_cons in Hnd as [Hx Hnd].
    destruct (IH Hnd) as (l & Hl & Hs & Hin).
    destruct (insert_sorted_int x l Hs) as (l' & Hl' & Hs' & Hin').
    { rewrite Hin. intros Hi. apply Hx. apply list_elem_of_In. exact Hi. }
    exists l'. cbn [map sort_decorated]. rewrite Hl. cbn [rbind].
    split; [exact Hl'|]. split; [exact Hs'|].
    intros y. rewrite Hin', Hin. cbn [In]. intuition.
Qed.

Lemma py_sorted_int (u : list Z) :
  NoDup u ->
  exists l, py_sorted (map JInt u) = Ok (map JInt l)
    /\ StronglySorted Z.lt l /\ (forall y, In y l <-> In y u).
Proof.
  intros Hnd. destruct (sort_decorated_int u Hnd) as (l & Hl & Hs & Hin).
  exists l. unfold py_sorted. rewrite map_map. fold decorate.
  change (map (fun x => (JInt x, JInt x)) u) with (map decorate u).
  rewrite Hl. cbn [rbind]. rewrite map_map. split; [reflexivity | auto].
Qed.


(** C9: without a state file [load_state] returns the fresh state, with
    no published identifier and no last run; with a file whose text does
    not decode it raises, and so does [main], which ends with status 1 and
    leaves the file as it is. *)
Theorem load_state_fresh_or_fatal (w : world) :
  (files w !! STATE_FILE env = None ->
   load_state (STATE_FILE env) w
   = (Ok (JDict [(lit "published_ids", JList []); (lit "last_run", JNull)]), w))
  /\ (forall text e,
        files w !! STATE_FILE env = Some text ->
        json_loads text = Raise e ->
        load_state (STATE_FILE env) w = (Raise e, w)
        /\ main env w = (Raise e, w)
        /\ exit_code (Raise e) = 1).
Proof.
  split.
  - intros Hnone. unfold load_state. rewrite Hnone. reflexivity.
  - intros text e Hsome Hbad.
    assert (Hl : load_state (STATE_FILE env) w = (Raise e, w)).
    { unfold load_state. rewrite Hsome, Hbad. reflexivity. }
    split; [exact Hl|]. split.
    + unfold main, bind at 1. rewrite Hl. reflexivity.
    + apply json_loads_raises in Hbad as ->. reflexivity.
Qed.

(** With a state file that loads and a feed that gives no coupon, [main]
    exits with status 0 and changes neither the files nor the requests. *)
Theorem empty_feed_is_noop (w : world) (state0 : list (list N * json)) (p0 : list json)
    (w0 : world) :
  load_state (STATE_FILE env) w = (Ok (JDict state0), w) ->
  py_set (dict_get (lit "published_ids") (JList []) state0) = Ok p0 ->
  fetch_coupons env w = (Ok [], w0) ->
  exists w', main env w = (Raise (SystemExit 0), w')
    /\ files w' = files w /\ sent w' = sent w
    /\ exit_code (fst (main env w)) = 0.
Proof.
  intros Hload Hset Hfetch.
  pose proof (quiet_fetch_coupons w) as (Hf & Hs & _). rewrite Hfetch in Hf, Hs. cbn [snd] in Hf, Hs.
  assert (Hmain : exists w', main env w = (Raise (SystemExit 0), w')
                    /\ files w' = files w0 /\ sent w' = sent w0).
  { unfold main, bind at 1. rewrite Hload. unfold bind at 1, lift at 1. cbn [attr_get].
    unfold bind at 1, lift at 1. rewrite Hset. unfold bind at 1. rewrite Hfetch.
    unfold bind, print, sys_exit, raise. eexists. split; [reflexivity|]. split; reflexivity. }
  destruct Hmain as (w' & Hmain & Hf' & Hs'). exists w'. rewrite Hmain.
  split; [reflexivity|]. split; [congruence|]. split; [congruence | reflexivity].
Qed.
End Run.

Section Determinism.
Context `{Externals} (env1 env2 : environment).
Hypothesis same_clock : forall i, clock env1 i = clock env2 i.

Lemma is_valid_coupon_clock (c : json) (w : world) :
  is_valid_coupon env1 c w = is_valid_coupon env2 c w.
Proof.
  unfold is_valid_coupon, try_except, bind, lift, utcnow.
  destruct (attr_get c); [|reflexivity].
  destruct (py_int _); [|reflexivity].
  destruct (negb _); [reflexivity|].
  destruct (negb _); [reflexivity|].
  destruct (date_parse _); [|reflexivity].
  cbn. rewrite same_clock. reflexivity.
Qed.

Lemma sort_key_clock (c : json) (w : world) : sort_key env1 c w = sort_key env2 c w.
Proof.
  unfold sort_key, try_bare, bind, lift, utcnow.
  destruct (attr_get c); cbn; [|rewrite same_clock; reflexivity].
  destruct (date_parse _); cbn; [reflexivity | rewrite same_clock; reflexivity].
Qed.

Lemma bind_cong {A B} (m1 m2 : M A) (k1 k2 : A -> M B) (w : world) :
  m1 w = m2 w -> (forall a w', k1 a w' = k2 a w') -> bind m1 k1 w = bind m2 k2 w.
Proof.
  intros Hm Hk. unfold bind. rewrite Hm. destruct (m2 w) as [[a|e] w']; [apply Hk | reflexivity].
Qed.

Lemma filterM_ext {A} (p q : A -> M bool) (l : list A) :
  (forall x w, p x w = q x w) -> forall w, filterM p l w = filterM q l w.
Proof.
  intros Hpq. induction l as [|x l IH]; intros w; [reflexivity|].
  cbn [filterM]. unfold bind. rewrite Hpq.
  destruct (q x w) as [[b|e] w1]; [|reflexivity].
  rewrite IH. reflexivity.
Qed.

Lemma mapM_ext {A B} (f g : A -> M B) (l : list A) :
  (forall x w, f x w = g x w) -> forall w, mapM f l w = mapM g l w.
Proof.
  intros Hfg. induction l as [|x l IH]; intros w; [reflexivity|].
  cbn [mapM]. unfold bind. rewrite Hfg.
  destruct (g x w) as [[b|e] w1]; [|reflexivity].
  rewrite IH. reflexivity.
Qed.

Lemma sorted_by_key_clock (valid : list json) (w : world) :
  sorted_by_key env1 valid w = sorted_by_key env2 valid w.
Proof.
  unfold sorted_by_key, bind.
  rewrite (mapM_ext (sort_key env1) (sort_key env2) valid sort_key_clock). reflexivity.
Qed.

(** C8, as the code has it: the selection reads the clock, and two
    evaluations on the same coupons, published set and state that read the
    same instants from it select the same coupon, with the same set and
    state after it. *)
Theorem selection_deterministic_given_clock
    (coupons published : list json) (state : list (list N * json)) (w : world) :
  select_coupon env1 coupons published state w
  = select_coupon env2 coupons published state w.
Proof.
  unfold select_coupon.
  apply bind_cong; [apply filterM_ext, is_valid_coupon_clock|].
  intros [|v valid] wa; [reflexivity|].
  apply bind_cong; [apply sorted_by_key_clock | reflexivity].
Qed.
End Determinism.

(** ** The sort and its keys *)

Section SortedKeys.
Context `{Externals} (env : environment).

Lemma sort_key_aware (c : json) (w : world) :
  exists k w', sort_key env c w = (Ok k, w') /\ aware k = key_aware c.
Proof.
  unfold sort_key, key_aware, try_bare, bind, lift, utcnow, ret.
  destruct (attr_get c) as [d|e]; [|eexists _, _; split; reflexivity].
  destruct (date_parse _) as [dt|e]; eexists _, _; split; reflexivity.
Qed.

Lemma mapM_sort_key (l : list json) (w : world) :
  exists ks w', mapM (sort_key env) l w = (Ok ks, w')
    /\ Forall2 (fun k c => aware k = key_aware c) ks l.
Proof.
  revert w. induction l as [|c l IH]; intros w.
  - exists [], w. split; [reflexivity | constructor].
  - destruct (sort_key_aware c w) as (k & w1 & Hk & Ha).
    destruct (IH w1) as (ks & w2 & Hks & Hall).
    exists (k :: ks), w2. cbn [mapM]. unfold bind. rewrite Hk, Hks.
    split; [reflexivity | constructor; assumption].
Qed.

Lemma combine_keys (ks : list datetime) (l : list json) (c : json) :
  Forall2 (fun k c => aware k = key_aware c) ks l -> In c l ->
  exists k, In (k, c) (combine ks l) /\ aware k = key_aware c.
Proof.
  induction 1 as [|k c' ks l Hk _ IH]; intros Hin; [destruct Hin|].
  destruct Hin as [->|Hin].
  - exists k. split; [left; reflexivity | exact Hk].
  - destruct (IH Hin) as (k' & Hin' & Hk'). exists k'. split; [right; exact Hin' | exact Hk'].
Qed.

Lemma insert_sorted_In {K A} (lt : K -> K -> result bool) (x : K * A) (l r : list (K * A)) :
  insert_sorted lt x l = Ok r -> forall y, In y r <-> y = x \/ In y l.
Proof.
  revert r. induction l as [|z l IH]; intros r; cbn [insert_sorted].
  - intros [= <-] y. cbn [In]. intuition.
  - destruct (lt (fst z) (fst x)) as [[|]|e]; cbn [rbind]; [| |discriminate].
    + destruct (insert_sorted lt x l) as [r'|e]; cbn [rbind]; [|discriminate].
      intros [= <-] y. cbn [In]. rewrite (IH r' eq_refl). intuition.
    + intros [= <-] y. cbn [In]. intuition.
Qed.

Lemma sort_decorated_In {K A} (lt : K -> K -> result bool) (l r : list (K * A)) :
  sort_decorated lt l = Ok r -> forall y, In y r <-> In y l.
Proof.
  revert r. induction l as [|x l IH]; intros r; cbn [sort_decorated].
  - intros [= <-] y. reflexivity.
  - destruct (sort_decorated lt l) as [r'|e]; cbn [rbind]; [|discriminate].
    intros Hi y. rewrite (insert_sorted_In lt x r' r Hi), (IH r' eq_refl). cbn [In]. intuition.
Qed.

Lemma datetime_lt_ok (a b : datetime) (v : bool) :
  datetime_lt a b = Ok v -> aware a = aware b.
Proof.
  unfold datetime_lt, aware. destruct (utcoffset a), (utcoffset b); congruence.
Qed.

Lemma datetime_lt_raises (a b : datetime) (e : exn) :
  datetime_lt a b = Raise e -> e = TypeError.
Proof.
  unfold datetime_lt. destruct (utcoffset a), (utcoffset b); congruence.
Qed.

Lemma insert_sorted_raises {A} (x : datetime * A) (l : list (datetime * A)) (e : exn) :
  insert_sorted datetime_lt x l = Raise e -> e = TypeError.
Proof.
  induction l as [|z l IH]; cbn [insert_sorted]; [discriminate|].
  destruct (datetime_lt (fst z) (fst x)) as [[|]|e'] eqn:Hlt; cbn [rbind].
  - destruct (insert_sorted datetime_lt x l) as [r'|e'']; cbn [rbind]; [discriminate|].
    intros [= <-]. apply IH. reflexivity.
  - discriminate.
  - intros [= <-]. eapply datetime_lt_raises; eassumption.
Qed.

Lemma sort_decorated_raises {A} (l : list (datetime * A)) (e : exn) :
  sort_decorated datetime_lt l = Raise e -> e = TypeError.
Proof.
  induction l as [|x l IH]; cbn [sort_decorated]; [discriminate|].
  destruct (sort_decorated datetime_lt l) as [r'|e']; cbn [rbind].
  - apply insert_sorted_raises.
  - intros [= <-]. apply IH. reflexivity.
Qed.

(** A list that [sorted] gets through has keys that are all naive or all
    aware. *)
Lemma sort_decorated_uniform {A} (l r : list (datetime * A)) :
  sort_decorated datetime_lt l = Ok r ->
  forall a b, In a l -> In b l -> aware (fst a) = aware (fst b).
Proof.
  revert r. induction l as [|x l IH]; intros r; cbn [sort_decorated]; [intros _ a b []|].
  destruct (sort_decorated datetime_lt l) as [r'|e] eqn:Hs; cbn [rbind]; [|discriminate].
  intros Hi.
  assert (Hx : forall y, In y l -> aware (fst y) = aware (fst x)).
  { intros y Hy. apply (sort_decorated_In _ _ _ Hs) in Hy.
    destruct r' as [|z r']; [destruct Hy|]. cbn [insert_sorted] in Hi.
    destruct (datetime_lt (fst z) (fst x)) as [v|e] eqn:Hlt; [|discriminate].
    apply datetime_lt_ok in Hlt. rewrite <- Hlt.
    apply (IH _ eq_refl); apply (sort_decorated_In _ _ _ Hs); [exact Hy | left; reflexivity]. }
  intros a b [<-|Ha] [<-|Hb].
  - reflexivity.
  - symmetry. apply Hx. exact Hb.
  - apply Hx. exact Ha.
  - apply (IH _ eq_refl); assumption.
Qed.

(** When one valid coupon has a naive sort key and another an aware one
    (in particular the current instant, for a date that does not parse),
    [sorted] raises a [TypeError]. *)
Theorem sorted_by_key_mixed_raises (valid : list json) (w : world) (a b : json) :
  In a valid -> In b valid -> key_aware a = false -> key_aware b = true ->
  exists w', sorted_by_key env valid w = (Raise TypeError, w').
Proof.
  intros Ha Hb Hka Hkb. unfold sorted_by_key, bind, lift, ret.
  destruct (mapM_sort_key valid w) as (ks & w1 & -> & Hall).
  destruct (sort_decorated datetime_lt (combine ks valid)) as [r|e] eqn:Hs.
  - destruct (combine_keys ks valid a Hall Ha) as (ka & Hina & Haa).
    destruct (combine_keys ks valid b Hall Hb) as (kb & Hinb & Hab).
    pose proof (sort_decorated_uniform _ _ Hs _ _ Hina Hinb) as Hu. cbn [fst] in Hu.
    congruence.
  - apply sort_decorated_raises in Hs as ->. eexists. reflexivity.
Qed.
End SortedKeys.

Section SortedAscending.
Context `{Externals} (env : environment).

Lemma datetime_lt_uniform (a b : datetime) :
  aware a = aware b -> datetime_lt a b = Ok (key_instant a <? key_instant b).
Proof.
  unfold datetime_lt, aware, key_instant.
  destruct (utcoffset a), (utcoffset b); intros Hab; try discriminate Hab; reflexivity.
Qed.

Lemma insert_sorted_ascending {A} (x : datetime * A) (l : list (datetime * A)) :
  (forall y, In y l -> aware (fst y) = aware (fst x)) ->
  StronglySorted key_le l ->
  exists r, insert_sorted datetime_lt x l = Ok r
    /\ Permutation r (x :: l) /\ StronglySorted key_le r.
Proof.
  induction l as [|y l IH]; intros Hu Hs.
  - exists [x]. split; [reflexivity|]. split; [reflexivity | repeat constructor].
  - apply StronglySorted_inv in Hs as [Hs Hy]. cbn [insert_sorted].
    rewrite datetime_lt_uniform by (apply Hu; left; reflexivity). cbn [rbind].
    destruct (Z.ltb_spec (key_instant (fst y)) (key_instant (fst x))) as [Hlt|Hge].
    + destruct IH as (r & -> & Hp & Hr); [intros z Hz; apply Hu; right; exact Hz | exact Hs |].
      exists (y :: r). cbn [rbind]. split; [reflexivity|]. split.
      * rewrite Hp. apply perm_swap.
      * constructor; [exact Hr|]. rewrite Hp. constructor; [unfold key_le; lia | exact Hy].
    + exists (x :: y :: l). split; [reflexivity|]. split; [reflexivity|].
      constructor; [constructor; assumption|].
      constructor; [exact Hge|]. rewrite List.Forall_forall in Hy |- *.
      intros z Hz. specialize (Hy z Hz). unfold key_le in *. lia.
Qed.

Lemma sort_decorated_ascending {A} (l : list (datetime * A)) :
  (forall a b, In a l -> In b l -> aware (fst a) = aware (fst b)) ->
  exists r, sort_decorated datetime_lt l = Ok r
    /\ Permutation r l /\ StronglySorted key_le r.
Proof.
  induction l as [|x l IH]; intros Hu.
  - exists []. split; [reflexivity|]. split; [reflexivity | constructor].
  - destruct IH as (r & Hr & Hp & Hs).
    { intros a b Ha Hb. apply Hu; right; assumption. }
    destruct (insert_sorted_ascending x r) as (r' & Hr' & Hp' & Hs').
    { intros y Hy. apply Hu; [right | left; reflexivity].
      apply (Permutation_in _ Hp). exact Hy. }
    { exact Hs. }
    exists r'. cbn [sort_decorated]. rewrite Hr. cbn [rbind].
    split; [exact Hr'|]. split; [|exact Hs'].
    rewrite Hp'. constructor. exact Hp.
Qed.

(** The elements of a decorated list whose key is at [t], in order. *)
Lemma insert_sorted_stable {A} (x : datetime * A) (l r : list (datetime * A)) (t : Z) :
  (forall y, In y l -> aware (fst y) = aware (fst x)) ->
  insert_sorted datetime_lt x l = Ok r ->
  List.filter (keyed_at t) r = List.filter (keyed_at t) (x :: l).
Proof.
  revert r. induction l as [|y l IH]; intros r Hu; cbn [insert_sorted].
  - intros [= <-]. reflexivity.
  - rewrite datetime_lt_uniform by (apply Hu; left; reflexivity). cbn [rbind].
    destruct (Z.ltb_spec (key_instant (fst y)) (key_instant (fst x))) as [Hlt|Hge].
    + destruct (insert_sorted datetime_lt x l) as [r'|e]; cbn [rbind]; [|discriminate].
      intros [= <-]. cbn [List.filter].
      rewrite (IH r') by (reflexivity || (intros z Hz; apply Hu; right; exact Hz)).
      cbn [List.filter]. unfold keyed_at.
      destruct (Z.eqb_spec (key_instant (fst y)) t), (Z.eqb_spec (key_instant (fst x)) t);
        try reflexivity; lia.
    + intros [= <-]. reflexivity.
Qed.

Lemma sort_decorated_stable {A} (l r : list (datetime * A)) (t : Z) :
  (forall a b, In a l -> In b l -> aware (fst a) = aware (fst b)) ->
  sort_decorated datetime_lt l = Ok r ->
  List.filter (keyed_at t) r = List.filter (keyed_at t) l.
Proof.
  revert r. induction l as [|x l IH]; intros r Hu; cbn [sort_decorated].
  - intros [= <-]. reflexivity.
  - destruct (sort_decorated datetime_lt l) as [r'|e] eqn:Hs; cbn [rbind]; [|discriminate].
    intros Hi. rewrite (insert_sorted_stable x r' r t).
    + cbn [List.filter]. rewrite (IH r') by (reflexivity || (intros a b Ha Hb; apply Hu; right; assumption)).
      reflexivity.
    + intros y Hy. apply Hu; [right | left; reflexivity].
      apply (sort_decorated_In _ _ _ Hs). exact Hy.
    + exact Hi.
Qed.

Lemma combine_keys_inv (ks : list datetime) (l : list json) (k : datetime) (c : json) :
  Forall2 (fun k c => aware k = key_aware c) ks l -> In (k, c) (combine ks l) ->
  In c l /\ aware k = key_aware c.
Proof.
  induction 1 as [|k' c' ks l Hk _ IH]; intros Hin; [destruct Hin|].
  destruct Hin as [[= -> ->]|Hin].
  - split; [left; reflexivity | exact Hk].
  - destruct (IH Hin) as [Hc Ha]. split; [right; exact Hc | exact Ha].
Qed.

Lemma combine_snd (ks : list datetime) (l : list json) :
  Forall2 (fun k c => aware k = key_aware c) ks l -> map snd (combine ks l) = l.
Proof. induction 1; cbn; congruence. Qed.

(** When the sort keys of the valid coupons are all naive or all aware,
    [sorted] returns them rearranged in ascending order of their keys, and
    coupons whose keys are equal stay in the order of the feed. *)
Theorem sorted_by_key_ascending (valid : list json) (w : world) :
  (forall a b, In a valid -> In b valid -> key_aware a = key_aware b) ->
  exists ks w' r,
    mapM (sort_key env) valid w = (Ok ks, w')
    /\ sorted_by_key env valid w = (Ok (map snd r), w')
    /\ Permutation r (combine ks valid)
    /\ Permutation (map snd r) valid
    /\ StronglySorted key_le r
    /\ (forall t, List.filter (keyed_at t) r = List.filter (keyed_at t) (combine ks valid)).
Proof.
  intros Hu. destruct (mapM_sort_key env valid w) as (ks & w1 & Hks & Hall).
  destruct (sort_decorated_ascending (combine ks valid)) as (r & Hr & Hp & Hs).
  { intros [ka a] [kb b] Ha Hb. cbn [fst].
    destruct (combine_keys_inv _ _ _ _ Hall Ha) as [Hina ->].
    destruct (combine_keys_inv _ _ _ _ Hall Hb) as [Hinb ->].
    apply Hu; assumption. }
  exists ks, w1, r. split; [exact Hks|].
  unfold sorted_by_key, bind, lift, ret. rewrite Hks, Hr.
  split; [reflexivity|]. split; [exact Hp|].
  split; [rewrite Hp, (combine_snd _ _ Hall); reflexivity|].
  split; [exact Hs|].
  intros t. apply sort_decorated_stable; [|exact Hr].
  intros [ka a] [kb b] Ha Hb. cbn [fst].
  destruct (combine_keys_inv _ _ _ _ Hall Ha) as [Hina ->].
  destruct (combine_keys_inv _ _ _ _ Hall Hb) as [Hinb ->].
  apply Hu; assumption.
Qed.
End SortedAscending.

(** ** What a run does and never does *)

Section Selection.
Context `{Externals} (env : environment).

Lemma fetch_coupons_feed (w : world) :
  exists w', fetch_coupons env w = (Ok (feed env), w')
    /\ ticks w' = ticks w /\ same_store w w'.
Proof.
  unfold fetch_coupons, try_except, feed.
  destruct (api_get env) as [body|]; cbn.
  2:{ eexists. split; [reflexivity|]. repeat split. }
  destruct body as [| | | | |l|d]; cbn;
    try (eexists; split; [reflexivity|]; repeat split).
  unfold dict_get.
  destruct (dict_lookup (lit "data") d) as [v|] eqn:Hd; cbn.
  - destruct v; cbn; rewrite ?first_list_find; eexists; (split; [reflexivity|]); repeat split.
  - rewrite first_list_find. eexists; (split; [reflexivity|]); repeat split.
Qed.

(** What [is_valid_coupon] answers and how far it moves the clock. *)
Lemma is_valid_coupon_run (c : json) (w : world) :
  exists b w',
    is_valid_coupon env c w = (Ok b, w')
    /\ (ticks w <= ticks w')%nat
    /\ (b = true <-> eligible_at (clock env (ticks w)) c).
Proof.
  unfold is_valid_coupon, try_except, bind, lift, eligible_at.
  destruct c as [| | | | |l|d]; cbn;
    try (eexists false, _; split; [reflexivity|]; split; [cbn; lia|];
         split; [discriminate | intros (d & Hd & _); discriminate]).
  destruct (py_int (dict_get (lit "is_visible") (JInt 0) d)) as [v|e] eqn:Hv; cbn.
  2:{ assert (He : is_exception e = true).
      { unfold py_int in Hv.
        destruct (dict_get (lit "is_visible") (JInt 0) d) as [| | |f| s| |];
          try (inversion Hv; subst; reflexivity).
        - destruct f; cbn in Hv; inversion Hv; subst; reflexivity.
        - destruct (int_of_str s); inversion Hv; subst; reflexivity. }
      rewrite He. eexists false, _. split; [reflexivity|]. split; [cbn; lia|].
      split; [discriminate|]. intros (d' & Hd & Hvis & _).
      inversion Hd; subst d'. rewrite Hv in Hvis. discriminate. }
  destruct (Z.eqb_spec v 1) as [->|Hne]; cbn.
  2:{ eexists false, _. split; [reflexivity|]. split; [cbn; lia|].
      split; [discriminate|]. intros (d' & Hd & Hvis & _).
      inversion Hd; subst d'. rewrite Hv in Hvis. inversion Hvis. contradiction. }
  destruct (truthy (dict_get (lit "expires_at") JNull d)) eqn:Ht; cbn.
  2:{ eexists true, _. split; [reflexivity|]. split; [cbn; lia|].
      split; [|reflexivity]. intros _. exists d. split; [reflexivity|].
      split; [exact Hv|]. left. exact Ht. }
  destruct (date_parse (dict_get (lit "expires_at") JNull d)) as [dt|e] eqn:Hp; cbn.
  2:{ assert (He : is_exception e = true).
      { unfold date_parse in Hp.
        destruct (dict_get (lit "expires_at") JNull d) as [| | | |s| |];
          try (inversion Hp; subst; reflexivity).
        destruct (dateutil_parse s); inversion Hp; subst; reflexivity. }
      rewrite He. eexists false, _. split; [reflexivity|]. split; [cbn; lia|].
      split; [discriminate|]. intros (d' & Hd & _ & [Hf | (dt & Hdt & _)]).
      - inversion Hd; subst d'. rewrite Ht in Hf. discriminate.
      - inversion Hd; subst d'. rewrite Hp in Hdt. discriminate. }
  eexists _, _. split; [reflexivity|]. split; [cbn; lia|].
  rewrite Z.ltb_lt. split.
  - intros Hlt. exists d. split; [reflexivity|]. split; [exact Hv|].
    right. exists dt. split; [exact Hp|]. destruct (utcoffset dt); exact Hlt.
  - intros (d' & Hd & _ & [Hf | (dt' & Hdt & Hlt)]).
    + inversion Hd; subst d'. rewrite Ht in Hf. discriminate.
    + inversion Hd; subst d'. rewrite Hp in Hdt. inversion Hdt; subst dt'.
      destruct (utcoffset dt); exact Hlt.
Qed.

(** The comprehension of [main] keeps, in order, coupons of the feed that
    were eligible at a reading of the clock taken for them. *)
Lemma filterM_valid (l : list json) (w : world) :
  exists valid w',
    filterM (is_valid_coupon env) l w = (Ok valid, w')
    /\ (ticks w <= ticks w')%nat
    /\ (forall c, In c valid ->
          In c l /\ exists i, (ticks w <= i)%nat /\ eligible_at (clock env i) c)
    /\ (forall c, In c l -> (forall i, eligible_at (clock env i) c) -> In c valid).
Proof.
  revert w. induction l as [|x l IH]; intros w.
  - exists [], w. split; [reflexivity|]. split; [lia|]. split; intros c [].
  - destruct (is_valid_coupon_run x w) as (b & w1 & Hx & Ht & Hb).
    destruct (IH w1) as (valid & w2 & Hl & Ht2 & Hin & Hall).
    exists (if b then x :: valid else valid), w2.
    cbn [filterM]. unfold bind. rewrite Hx, Hl. split; [reflexivity|]. split; [lia|]. split.
    + intros c Hc.
      assert (Hcases : (b = true /\ c = x) \/ In c valid).
      { destruct b; [destruct Hc as [<-|Hc]; [left; split; reflexivity | right; exact Hc]
                    | right; exact Hc]. }
      destruct Hcases as [[Hbt ->]|Hc'].
      * split; [left; reflexivity|]. exists (ticks w). split; [lia|]. apply Hb. exact Hbt.
      * destruct (Hin c Hc') as (Hcl & i & Hi & He). split; [right; exact Hcl|].
        exists i. split; [lia | exact He].
    + intros c [<-|Hc] He.
      * assert (b = true) as -> by (apply Hb, He). left. reflexivity.
      * specialize (Hall c Hc He). destruct b; [right|]; exact Hall.
Qed.

Lemma eligible_truthy (now : Z) (c : json) : eligible_at now c -> truthy c = true.
Proof.
  intros (d & -> & Hv & _). destruct d as [|kv d]; [|reflexivity].
  cbn in Hv. discriminate Hv.
Qed.

Lemma insert_sorted_perm {K A} (lt : K -> K -> result bool) (x : K * A) (l r : list (K * A)) :
  insert_sorted lt x l = Ok r -> Permutation r (x :: l).
Proof.
  revert r. induction l as [|z l IH]; intros r; cbn [insert_sorted].
  - intros [= <-]. reflexivity.
  - destruct (lt (fst z) (fst x)) as [[|]|e]; cbn [rbind]; [| |discriminate].
    + destruct (insert_sorted lt x l) as [r'|e]; cbn [rbind]; [|discriminate].
      intros [= <-]. rewrite (IH r' eq_refl). apply perm_swap.
    + intros [= <-]. reflexivity.
Qed.

Lemma sort_decorated_perm {K A} (lt : K -> K -> result bool) (l r : list (K * A)) :
  sort_decorated lt l = Ok r -> Permutation r l.
Proof.
  revert r. induction l as [|x l IH]; intros r; cbn [sort_decorated].
  - intros [= <-]. reflexivity.
  - destruct (sort_decorated lt l) as [r'|e]; cbn [rbind]; [|discriminate].
    intros Hi. rewrite (insert_sorted_perm lt x r' r Hi). constructor. apply IH. reflexivity.
Qed.

(** What [sorted] returns is a rearrangement of what it is given, and the
    only exception it raises is the [TypeError] of a comparison. *)
Lemma sorted_by_key_perm (valid : list json) (w : world) :
  exists w', (ticks w <= ticks w')%nat
    /\ ((exists vs, sorted_by_key env valid w = (Ok vs, w') /\ Permutation vs valid)
        \/ sorted_by_key env valid w = (Raise TypeError, w')).
Proof.
  unfold sorted_by_key, bind, lift, ret.
  assert (Hk : exists ks w', mapM (sort_key env) valid w = (Ok ks, w')
                 /\ (ticks w <= ticks w')%nat /\ length ks = length valid).
  { clear. revert w. induction valid as [|c l IH]; intros w.
    - exists [], w. split; [reflexivity|]. split; [lia | reflexivity].
    - assert (Hc : exists k w1, sort_key env c w = (Ok k, w1) /\ (ticks w <= ticks w1)%nat).
      { unfold sort_key, try_bare, bind, lift, utcnow, ret.
        destruct (attr_get c) as [d|e]; [|eexists _, _; split; [reflexivity | cbn; lia]].
        destruct (date_parse _) as [dt|e]; eexists _, _; (split; [reflexivity | cbn; lia]). }
      destruct Hc as (k & w1 & Hk & Ht). destruct (IH w1) as (ks & w2 & Hks & Ht2 & Hlen).
      exists (k :: ks), w2. cbn [mapM]. unfold bind. rewrite Hk, Hks.
      split; [reflexivity|]. split; [lia | cbn; congruence]. }
  destruct Hk as (ks & w1 & -> & Ht & Hlen). exists w1. split; [exact Ht|].
  destruct (sort_decorated datetime_lt (combine ks valid)) as [r|e] eqn:Hs.
  - left. eexists. split; [reflexivity|].
    rewrite (sort_decorated_perm _ _ _ Hs).
    clear -Hlen. revert valid Hlen. induction ks as [|k ks IH]; intros [|c l] Hlen;
      try discriminate; [reflexivity|].
    cbn. constructor. apply IH. cbn in Hlen. lia.
  - right. apply sort_decorated_raises in Hs as ->. reflexivity.
Qed.

Lemma coupon_cid_raises (d : list (list N * json)) (e : exn) :
  coupon_cid (JDict d) = Raise e -> e = TypeError \/ e = ValueError \/ e = OverflowError.
Proof.
  unfold coupon_cid. cbn [attr_get rbind]. unfold py_int.
  destruct (py_or _ _) as [| | |f|s| |]; try (intros [= <-]; auto); try discriminate.
  - destruct f; cbn; intros [= <-]; auto.
  - destruct (int_of_str s); [discriminate | intros [= <-]; auto].
Qed.

(** The loop over the sorted coupons stops at the first one whose
    identifier is not published. *)
Lemma next_unposted_first (p vs : list json) (c : json) :
  next_unposted p vs = Ok (Some c) ->
  exists pre post cid,
    vs = pre ++ c :: post /\ all_published p pre
    /\ coupon_cid c = Ok cid /\ set_mem (JInt cid) p = false.
Proof.
  induction vs as [|x vs IH]; cbn [next_unposted]; [discriminate|].
  destruct (coupon_cid x) as [cid|e] eqn:Hc; cbn [rbind]; [|discriminate].
  destruct (set_mem (JInt cid) p) eqn:Hm; cbn [negb].
  - intros Hn. destruct (IH Hn) as (pre & post & cid' & -> & Hpre & Hc' & Hm').
    exists (x :: pre), post, cid'. split; [reflexivity|]. split; [|auto].
    intros y [<-|Hy]; [eauto | apply Hpre; exact Hy].
  - intros [= <-]. exists [], vs, cid. split; [reflexivity|]. split; [intros y []|auto].
Qed.

Lemma next_unposted_raises (p vs : list json) (e : exn) :
  next_unposted p vs = Raise e <->
  exists pre c post, vs = pre ++ c :: post /\ all_published p pre /\ coupon_cid c = Raise e.
Proof.
  induction vs as [|x vs IH]; cbn [next_unposted].
  - split; [discriminate|]. intros (pre & c & post & Hvs & _). destruct pre; discriminate.
  - destruct (coupon_cid x) as [cid|e'] eqn:Hc; cbn [rbind].
    + destruct (set_mem (JInt cid) p) eqn:Hm; cbn [negb].
      * rewrite IH. split.
        -- intros (pre & c & post & -> & Hpre & Hce). exists (x :: pre), c, post.
           split; [reflexivity|]. split; [|exact Hce].
           intros y [<-|Hy]; [eauto | apply Hpre; exact Hy].
        -- intros (pre & c & post & Hvs & Hpre & Hce). destruct pre as [|y pre].
           ++ cbn in Hvs. injection Hvs as <- <-. congruence.
           ++ cbn in Hvs. injection Hvs as <- ->. exists pre, c, post.
              split; [reflexivity|]. split; [|exact Hce].
              intros z Hz. apply Hpre. right. exact Hz.
      * split; [discriminate|]. intros (pre & c & post & Hvs & Hpre & Hce).
        destruct pre as [|y pre]; cbn in Hvs; injection Hvs as <- ?; [congruence|].
        destruct (Hpre x (or_introl eq_refl)) as (cid' & Hc' & Hm'). congruence.
    + split.
      * intros [= ->]. exists [], x, vs. split; [reflexivity|]. split; [intros y []|exact Hc].
      * intros (pre & c & post & Hvs & Hpre & Hce).
        destruct pre as [|y pre]; cbn in Hvs; injection Hvs as <- ?; [congruence|].
        destruct (Hpre x (or_introl eq_refl)) as (cid' & Hc' & _). congruence.
Qed.

(** How [select_coupon] goes. *)
Lemma select_coupon_run (coupons p0 : list json) (s0 : list (list N * json)) (w : world) :
  exists valid wa,
    filterM (is_valid_coupon env) coupons w = (Ok valid, wa)
    /\ ((valid = [] /\ exists w1, select_coupon env coupons p0 s0 w = (Raise (SystemExit 0), w1))
        \/ (valid <> []
            /\ exists wb,
                 (sorted_by_key env valid wa = (Raise TypeError, wb)
                  /\ select_coupon env coupons p0 s0 w = (Raise TypeError, wb))
                 \/ exists vs, sorted_by_key env valid wa = (Ok vs, wb) /\ Permutation vs valid
                      /\ ((exists e, next_unposted p0 vs = Raise e
                             /\ select_coupon env coupons p0 s0 w = (Raise e, wb))
                          \/ (exists c, next_unposted p0 vs = Ok (Some c)
                                /\ select_coupon env coupons p0 s0 w = (Ok (p0, s0, c), wb))
                          \/ (exists c vs' w1, next_unposted p0 vs = Ok None /\ vs = c :: vs'
                                /\ select_coupon env coupons p0 s0 w
                                   = (Ok ([], dict_set (lit "published_ids") (JList []) s0, c), w1))))).
Proof.
  destruct (filterM_valid coupons w) as (valid & wa & Hf & _).
  exists valid, wa. split; [exact Hf|].
  destruct valid as [|v valid].
  { left. split; [reflexivity|]. unfold select_coupon, bind, print, sys_exit, raise.
    rewrite Hf. eexists. reflexivity. }
  right. split; [discriminate|].
  destruct (sorted_by_key_perm (v :: valid) wa) as (wb & _ & [(vs & Hs & Hp)| Hs]).
  2:{ exists wb. left. split; [exact Hs|]. unfold select_coupon, bind. rewrite Hf, Hs.
      reflexivity. }
  destruct (next_unposted p0 vs) as [[c|]|e] eqn:Hn.
  - exists wb. right. exists vs. split; [exact Hs|]. split; [exact Hp|].
    right. left. exists c. split; [exact Hn|].
    unfold select_coupon, bind, lift, ret. rewrite Hf, Hs, Hn. reflexivity.
  - destruct vs as [|c vs'].
    { apply Permutation_nil in Hp. discriminate Hp. }
    exists wb. right. exists (c :: vs'). split; [exact Hs|]. split; [exact Hp|].
    right. right. exists c, vs'. eexists. split; [exact Hn|]. split; [reflexivity|].
    unfold select_coupon, bind, lift, print, ret. rewrite Hf, Hs, Hn. reflexivity.
  - exists wb. right. exists vs. split; [exact Hs|]. split; [exact Hp|].
    left. exists e. split; [exact Hn|].
    unfold select_coupon, bind, lift. rewrite Hf, Hs, Hn. reflexivity.
Qed.

End Selection.

Section Outcomes.
Context `{Externals} (env : environment).

Lemma select_coupon_selected (coupons p0 : list json) (s0 : list (list N * json)) (w : world)
    (p : list json) (s : list (list N * json)) (c : json) (w1 : world) :
  select_coupon env coupons p0 s0 w = (Ok (p, s, c), w1) ->
  In c coupons /\ exists i, (ticks w <= i)%nat /\ eligible_at (clock env i) c.
Proof.
  intros Hsel.
  destruct (filterM_valid env coupons w) as (valid & wa & Hf & _ & Hin & _).
  destruct (select_coupon_run env coupons p0 s0 w) as (valid' & wa' & Hf' & Hcases).
  rewrite Hf in Hf'. injection Hf' as <- <-.
  assert (Hc : In c valid).
  { destruct Hcases as [(_ & w2 & Hx)|(_ & wb & [(_ & Hx)|(vs & _ & Hp & Hn)])];
      [congruence | congruence |].
    apply (Permutation_in _ Hp).
    destruct Hn as [(e & _ & Hx)|[(c' & Hn & Hx)|(c' & vs' & w2 & _ & -> & Hx)]].
    - congruence.
    - rewrite Hsel in Hx. injection Hx as <- <- <- <-.
      apply next_unposted_some in Hn as [Hn _]. exact Hn.
    - rewrite Hsel in Hx. injection Hx as ? ? ? ?. subst. left. reflexivity. }
  apply Hin. exact Hc.
Qed.

(** The whole of a run of [main]: it stops before anything is posted, or
    it posts one request, for the selected coupon of the feed, and then
    records the coupon or fails. *)
Lemma main_run (w : world) (r : result unit) (w' : world) :
  main env w = (r, w') ->
  (same_store w w' /\ exists e, r = Raise e)
  \/ (exists state0 p0 w0 p s c w1 req w2,
        load_state (STATE_FILE env) w = (Ok (JDict state0), w)
        /\ py_set (dict_get (lit "published_ids") (JList []) state0) = Ok p0
        /\ fetch_coupons env w = (Ok (feed env), w0) /\ ticks w0 = ticks w
        /\ select_coupon env (feed env) p0 state0 w0 = (Ok (p, s, c), w1)
        /\ make_caption c = Ok (caption_of req)
        /\ files w2 = files w /\ sent w2 = sent w ++ [req] /\ pushed w2 = pushed w
        /\ ((confirmed (telegram env req) = Ok true
             /\ record_published env c p s w2 = (r, w'))
            \/ (confirmed (telegram env req) <> Ok true
                /\ same_store w2 w' /\ exit_code r = 1))).
Proof.
  intros Hmain.
  destruct (main_cases env w r w' Hmain)
    as [Hstop|(state0 & p0 & coupons & w0 & p & s & c & w1 & Hload & Hset & Hfetch & Hsel
               & (Hf1 & Hs1 & Hp1) & Hpost)]; [left; exact Hstop|].
  destruct (fetch_coupons_feed env w) as (w0' & Hfeed & Ht0 & _).
  rewrite Hfetch in Hfeed. injection Hfeed as -> <-.
  destruct (post_and_record_cases env _ _ _ _ _ _ Hpost)
    as [((Hf & Hs & Hp) & ->)
       |(req & caption & w2 & Hcap & Hreq & Hf2 & Hs2 & Hp2 & Hend)].
  { left. split; [|eauto]. repeat split; congruence. }
  right. exists state0, p0, w0, p, s, c, w1, req, w2.
  split; [exact Hload|]. split; [exact Hset|]. split; [exact Hfetch|]. split; [exact Ht0|].
  split; [exact Hsel|].
  split; [destruct Hreq as [->|[photo ->]]; exact Hcap|].
  split; [congruence|]. split; [congruence|]. split; [congruence|]. exact Hend.
Qed.

Lemma py_lt_raises (a b : json) (e : exn) : py_lt a b = Raise e -> e = TypeError.
Proof.
  unfold py_lt. destruct (xval_of a), (xval_of b); try congruence.
  destruct a; try congruence. destruct b; congruence.
Qed.

Lemma insert_sorted_py_raises {A} (x : json * A) (l : list (json * A)) (e : exn) :
  insert_sorted py_lt x l = Raise e -> e = TypeError.
Proof.
  induction l as [|z l IH]; cbn [insert_sorted]; [discriminate|].
  destruct (py_lt (fst z) (fst x)) as [[|]|e'] eqn:Hlt; cbn [rbind].
  - destruct (insert_sorted py_lt x l) as [r'|e'']; cbn [rbind]; [discriminate|].
    intros [= <-]. apply IH. reflexivity.
  - discriminate.
  - intros [= <-]. eapply py_lt_raises; eassumption.
Qed.

Lemma py_sorted_raises (l : list json) (e : exn) : py_sorted l = Raise e -> e = TypeError.
Proof.
  unfold py_sorted.
  destruct (sort_decorated py_lt (map (fun v => (v, v)) l)) as [r|e'] eqn:Hs; cbn [rbind];
    [discriminate|]. intros [= <-].
  revert e' Hs. induction (map (fun v => (v, v)) l) as [|x l' IH]; intros e';
    cbn [sort_decorated]; [discriminate|].
  destruct (sort_decorated py_lt l') as [r'|e'']; cbn [rbind].
  - apply insert_sorted_py_raises.
  - intros [= <-]. apply IH. reflexivity.
Qed.

(** How [record_published] goes for a coupon whose identifier reads: the
    state is saved, and pushed if git works; or its text has a character
    that UTF-8 cannot encode, the file is left with the pieces before it,
    and the [UnicodeEncodeError] is printed and dropped; or the
    identifiers do not sort, and the [TypeError] is printed and dropped. *)
Lemma record_published_cases (c : json) (p : list json) (s : list (list N * json))
    (w : world) (cid : Z) :
  coupon_cid c = Ok cid ->
  (exists ids text w',
      py_sorted (set_add (JInt cid) p) = Ok ids
      /\ text = json_dumps (recorded_state ids (clock env (ticks w)) s)
      /\ encodable text = true
      /\ record_published env c p s w = (Ok tt, w')
      /\ files w' = <[STATE_FILE env := text]> (files w)
      /\ sent w' = sent w
      /\ pushed w' = pushed w ++ (if git_ok env then [text] else [])
      /\ output w' = output w ++ [OutPosted cid; if git_ok env then OutCommitted else ErrGit]
      /\ ticks w' = S (ticks w))
  \/ (exists ids w',
        py_sorted (set_add (JInt cid) p) = Ok ids
        /\ encodable (json_dumps (recorded_state ids (clock env (ticks w)) s)) = false
        /\ record_published env c p s w = (Ok tt, w')
        /\ files w'
           = <[STATE_FILE env := saved_text (recorded_state ids (clock env (ticks w)) s)]>
               (files w)
        /\ sent w' = sent w
        /\ pushed w' = pushed w
        /\ output w' = output w ++ [ErrUpdate UnicodeEncodeError]
        /\ ticks w' = S (ticks w))
  \/ (exists w',
        py_sorted (set_add (JInt cid) p) = Raise TypeError
        /\ record_published env c p s w = (Ok tt, w')
        /\ same_store w w'
        /\ output w' = output w ++ [ErrUpdate TypeError]).
Proof.
  intros Hcid.
  unfold record_published, try_except, bind, lift, utcnow, print, git_commit_and_push.
  rewrite Hcid.
  destruct (py_sorted (set_add (JInt cid) p)) as [ids|e] eqn:Hsort.
  - rewrite save_state_run. fold (recorded_state ids (clock env (ticks w)) s).
    destruct (encodable (json_dumps (recorded_state ids (clock env (ticks w)) s))) eqn:He.
    + left. exists ids, (json_dumps (recorded_state ids (clock env (ticks w)) s)).
      rewrite (saved_text_all _ He).
      cbn -[json_dumps recorded_state]. rewrite lookup_insert_eq.
      destruct (git_ok env); eexists; (split; [reflexivity|]); (split; [reflexivity|]);
        (split; [exact He|]); (split; [reflexivity|]); repeat split; cbn [output pushed ticks];
        rewrite <- ?app_assoc, ?app_nil_r; reflexivity.
    + right. left. exists ids. cbn -[saved_text recorded_state]. eexists.
      split; [reflexivity|]. split; [exact He|]. split; [reflexivity|]. repeat split.
  - right. right. apply py_sorted_raises in Hsort as ->. cbn. eexists.
    split; [reflexivity|]. split; [reflexivity|]. repeat split.
Qed.

(** Whatever was written, [record_published] leaves in the state file
    text that UTF-8 encodes, or leaves the files as they were. *)
Lemma record_published_saved (c : json) (p : list json) (s : list (list N * json))
    (w : world) (cid : Z) :
  coupon_cid c = Ok cid ->
  fst (record_published env c p s w) = Ok tt
  /\ sent (snd (record_published env c p s w)) = sent w
  /\ ((exists ids,
         py_sorted (set_add (JInt cid) p) = Ok ids
         /\ saved env (recorded_state ids (clock env (ticks w)) s) w
              (snd (record_published env c p s w)))
      \/ (py_sorted (set_add (JInt cid) p) = Raise TypeError
          /\ same_store w (snd (record_published env c p s w))
          /\ output (snd (record_published env c p s w)) = output w ++ [ErrUpdate TypeError])).
Proof.
  intros Hcid.
  destruct (record_published_cases c p s w cid Hcid)
    as [(ids & text & w' & Hsort & -> & He & -> & Hf & Hs & _)
       |[(ids & w' & Hsort & He & -> & Hf & Hs & _ & Hout & _)
        |(w' & Hsort & -> & Hq & Hout)]]; cbn [fst snd].
  - split; [reflexivity|]. split; [exact Hs|]. left. exists ids. split; [exact Hsort|].
    left. split; assumption.
  - split; [reflexivity|]. split; [exact Hs|]. left. exists ids. split; [exact Hsort|].
    right. split; [exact He|]. split; [exact Hf | eauto].
  - split; [reflexivity|]. split; [apply Hq|]. right. auto.
Qed.

End Outcomes.

Section RunProperties.
Context `{Externals} (env : environment).

Lemma record_published_ok (c : json) (p : list json) (s : list (list N * json))
    (w : world) (cid : Z) :
  coupon_cid c = Ok cid -> fst (record_published env c p s w) = Ok tt.
Proof.
  intros Hcid. apply (record_published_saved env c p s w cid Hcid).
Qed.

Lemma saved_from (state : json) (w w2 w' : world) :
  files w2 = files w -> saved env state w2 w' -> saved env state w w'.
Proof. unfold saved. intros <-. trivial. Qed.

(** A run that posted the request [req]. *)
Lemma main_run_sent (w : world) (r : result unit) (w' : world) (req : request) :
  main env w = (r, w') -> sent w' = sent w ++ [req] ->
  exists state0 p0 w0 p s c cid w1 w2,
    load_state (STATE_FILE env) w = (Ok (JDict state0), w)
    /\ py_set (dict_get (lit "published_ids") (JList []) state0) = Ok p0
    /\ fetch_coupons env w = (Ok (feed env), w0) /\ ticks w0 = ticks w
    /\ select_coupon env (feed env) p0 state0 w0 = (Ok (p, s, c), w1)
    /\ coupon_cid c = Ok cid
    /\ make_caption c = Ok (caption_of req)
    /\ files w2 = files w /\ sent w2 = sent w ++ [req] /\ pushed w2 = pushed w
    /\ ((confirmed (telegram env req) = Ok true
         /\ record_published env c p s w2 = (r, w'))
        \/ (confirmed (telegram env req) <> Ok true
            /\ same_store w2 w' /\ exit_code r = 1)).
Proof.
  intros Hmain Hsent.
  destruct (main_run env w r w' Hmain)
    as [((_ & Hs & _) & _)
       |(state0 & p0 & w0 & p & s & c & w1 & req' & w2 & Hload & Hset & Hfetch & Ht0 & Hsel
         & Hcap & Hf2 & Hs2 & Hp2 & Hend)].
  { rewrite Hs in Hsent. destruct (app_singleton_neq _ _ Hsent). }
  destruct (select_coupon_cases env _ _ _ _ _ _ _ _ Hsel) as (cid & Hcid & _).
  assert (Hs' : sent w' = sent w2).
  { destruct Hend as [(_ & Hrec)|(_ & (_ & Hs3 & _) & _)]; [|exact Hs3].
    pose proof (record_published_sent env c p s w2) as Hrs. rewrite Hrec in Hrs. exact Hrs. }
  rewrite Hs', Hs2 in Hsent. apply app_inj_tail in Hsent as [_ ->].
  exists state0, p0, w0, p, s, c, cid, w1, w2. auto 12.
Qed.

(** With the selection made, the run is the post and the record. *)
Lemma main_to_post (w : world) (state0 : list (list N * json)) (p0 coupons : list json)
    (w0 : world) (p : list json) (s : list (list N * json)) (c : json) (w1 : world) :
  load_state (STATE_FILE env) w = (Ok (JDict state0), w) ->
  py_set (dict_get (lit "published_ids") (JList []) state0) = Ok p0 ->
  fetch_coupons env w = (Ok coupons, w0) ->
  select_coupon env coupons p0 state0 w0 = (Ok (p, s, c), w1) ->
  main env w = post_and_record env c p s w1.
Proof.
  intros Hload Hset Hfetch Hsel.
  destruct (select_coupon_selected env _ _ _ _ _ _ _ _ Hsel) as (Hin & i & _ & He).
  unfold main, bind at 1. rewrite Hload. unfold bind at 1, lift at 1. cbn [attr_get].
  unfold bind at 1, lift at 1. rewrite Hset. unfold bind at 1. rewrite Hfetch.
  destruct coupons as [|c0 l]; [destruct Hin|].
  unfold bind at 1. rewrite Hsel. rewrite (eligible_truthy _ _ He). reflexivity.
Qed.

(** A run that posted the request [req] selected a coupon and delivered
    it with that request. *)
Lemma main_run_deliver (w : world) (r : result unit) (w' : world) (req : request) :
  main env w = (r, w') -> sent w' = sent w ++ [req] ->
  exists state0 p0 w0 p s c cid w1 w2,
    load_state (STATE_FILE env) w = (Ok (JDict state0), w)
    /\ py_set (dict_get (lit "published_ids") (JList []) state0) = Ok p0
    /\ fetch_coupons env w = (Ok (feed env), w0)
    /\ select_coupon env (feed env) p0 state0 w0 = (Ok (p, s, c), w1)
    /\ coupon_cid c = Ok cid
    /\ deliver env c w1 = (Ok (telegram env req), w2)
    /\ make_caption c = Ok (caption_of req)
    /\ files w2 = files w /\ sent w2 = sent w ++ [req]
    /\ ((confirmed (telegram env req) = Ok true
         /\ record_published env c p s w2 = (r, w'))
        \/ (confirmed (telegram env req) <> Ok true
            /\ same_store w2 w' /\ exit_code r = 1)).
Proof.
  intros Hmain Hsent.
  destruct (main_cases env w r w' Hmain)
    as [((_ & Hs & _) & _)
       |(state0 & p0 & coupons & w0 & p & s & c & w1 & Hload & Hset & Hfetch & Hsel
         & (Hf1 & Hs1 & _) & Hpost)].
  { rewrite Hs in Hsent. destruct (app_singleton_neq _ _ Hsent). }
  destruct (fetch_coupons_feed env w) as (w0' & Hfeed & _).
  rewrite Hfetch in Hfeed. injection Hfeed as -> <-.
  destruct (select_coupon_cases env _ _ _ _ _ _ _ _ Hsel) as (cid & Hcid & _).
  destruct (deliver_cases env c w1)
    as [(e & Hd & _)|(req1 & caption & w2 & Hcap & Hreq & Hd & Hf2 & Hs2 & _)].
  { unfold post_and_record, bind at 1 in Hpost. rewrite Hd in Hpost. injection Hpost as _ <-.
    rewrite Hs1 in Hsent. destruct (app_singleton_neq _ _ Hsent). }
  unfold post_and_record, bind at 1 in Hpost. rewrite Hd in Hpost.
  unfold bind at 1, lift at 1 in Hpost.
  assert (Hend : sent w' = sent w2
                 /\ ((confirmed (telegram env req1) = Ok true
                      /\ record_published env c p s w2 = (r, w'))
                     \/ (confirmed (telegram env req1) <> Ok true
                         /\ same_store w2 w' /\ exit_code r = 1))).
  { destruct (confirmed (telegram env req1)) as [[|]|e] eqn:Hc.
    - split; [|left; auto].
      pose proof (record_published_sent env c p s w2) as Hrs. rewrite Hpost in Hrs. exact Hrs.
    - unfold bind, print, sys_exit, raise in Hpost. injection Hpost as <- <-.
      split; [reflexivity|]. right. split; [discriminate|]. split; [repeat split | reflexivity].
    - injection Hpost as <- <-. apply confirmed_raises in Hc as ->.
      split; [reflexivity|]. right. split; [discriminate|].
      split; [apply same_store_refl | reflexivity]. }
  destruct Hend as [Hs3 Hend].
  assert (req1 = req) as ->.
  { rewrite Hs3, Hs2, Hs1 in Hsent. apply app_inj_tail in Hsent as [_ ->]. reflexivity. }
  exists state0, p0, w0, p, s, c, cid, w1, w2.
  split; [exact Hload|]. split; [exact Hset|]. split; [exact Hfetch|]. split; [exact Hsel|].
  split; [exact Hcid|]. split; [exact Hd|].
  split; [destruct Hreq as [->|[photo ->]]; exact Hcap|].
  split; [congruence|]. split; [congruence|]. exact Hend.
Qed.

(** A run that returns normally posted a request that was confirmed. *)
Lemma main_ok_sent (w w' : world) :
  main env w = (Ok tt, w') ->
  exists req, sent w' = sent w ++ [req] /\ confirmed (telegram env req) = Ok true.
Proof.
  intros Hmain.
  destruct (main_run env w (Ok tt) w' Hmain)
    as [(_ & (e & He))
       |(state0 & p0 & w0 & p & s & c & w1 & req & w2 & _ & _ & _ & _ & _
         & _ & _ & Hs2 & _ & [(Hok & Hrec)|(_ & _ & Hexit)])];
    [discriminate He| |discriminate Hexit].
  exists req. split; [|exact Hok].
  pose proof (record_published_sent env c p s w2) as Hrs. rewrite Hrec in Hrs. cbn [snd] in Hrs.
  congruence.
Qed.

(** Every request posted carries the caption of a coupon of the feed that
    was eligible at a reading of the clock taken during the run. *)
Theorem posted_coupon_was_eligible (w : world) (r : result unit) (w' : world) (req : request) :
  main env w = (r, w') ->
  sent w' = sent w ++ [req] ->
  exists c i,
    In c (feed env) /\ (ticks w <= i)%nat /\ eligible_at (clock env i) c
    /\ make_caption c = Ok (caption_of req).
Proof.
  intros Hmain Hsent.
  destruct (main_run_sent w r w' req Hmain Hsent)
    as (state0 & p0 & w0 & p & s & c & cid & w1 & w2 & _ & _ & _ & Ht0 & Hsel & _ & Hcap & _).
  destruct (select_coupon_selected env _ _ _ _ _ _ _ _ Hsel) as (Hin & i & Hi & He).
  exists c, i. split; [exact Hin|]. split; [lia|]. split; [exact He | exact Hcap].
Qed.

Lemma select_coupon_result (coupons p0 : list json) (s0 : list (list N * json)) (w : world) :
  match fst (select_coupon env coupons p0 s0 w) with
  | Ok (_, _, c) => In c coupons /\ truthy c = true
  | Raise e => e = SystemExit 0 \/ e = TypeError \/ e = ValueError \/ e = OverflowError
  end.
Proof.
  destruct (select_coupon env coupons p0 s0 w) as [[[[p s] c]|e] w1] eqn:Hsel; cbn [fst].
  - destruct (select_coupon_selected env _ _ _ _ _ _ _ _ Hsel) as (Hin & i & _ & He).
    split; [exact Hin | eapply eligible_truthy; exact He].
  - destruct (filterM_valid env coupons w) as (valid & wa & Hf & _ & Hin & _).
    destruct (select_coupon_run env coupons p0 s0 w) as (valid' & wa' & Hf' & Hcases).
    rewrite Hf in Hf'. injection Hf' as <- <-.
    destruct Hcases as [(_ & w2 & Hx)|(_ & wb & [(_ & Hx)|(vs & _ & Hp & Hn)])].
    + rewrite Hsel in Hx. injection Hx as -> _. auto.
    + rewrite Hsel in Hx. injection Hx as -> _. auto.
    + destruct Hn as [(e' & Hn & Hx)|[(c' & _ & Hx)|(c' & vs' & w2 & _ & _ & Hx)]];
        [|congruence|congruence].
      rewrite Hsel in Hx. injection Hx as <- _.
      apply next_unposted_raises in Hn as (pre & c & post & -> & _ & Hc).
      assert (Hcv : In c valid).
      { apply (Permutation_in _ Hp). apply in_elt. }
      destruct (Hin c Hcv) as (_ & i & _ & (d & -> & _)).
      right. eapply coupon_cid_raises. exact Hc.
Qed.

(** The selection returns a coupon of the feed that is a mapping with an
    entry, so that the test [if not next_coupon] cannot succeed and
    [valid_sorted[0]] cannot be out of range; it ends otherwise with the
    exit for no valid coupon or with an exception of the sort or of
    [int]. *)
Theorem select_coupon_outcomes (coupons p0 : list json) (s0 : list (list N * json)) (w : world) :
  match fst (select_coupon env coupons p0 s0 w) with
  | Ok (_, _, c) => In c coupons /\ truthy c = true
  | Raise e => e = SystemExit 0 \/ e = TypeError \/ e = ValueError \/ e = OverflowError
  end.
Proof. apply select_coupon_result. Qed.

(** When no coupon of the feed is eligible at any reading of the clock,
    the run exits with status 0 and posts, writes and pushes nothing. *)
Theorem no_eligible_coupon_is_noop (w : world) (state0 : list (list N * json))
    (p0 : list json) :
  load_state (STATE_FILE env) w = (Ok (JDict state0), w) ->
  py_set (dict_get (lit "published_ids") (JList []) state0) = Ok p0 ->
  (forall c i, In c (feed env) -> ~ eligible_at (clock env i) c) ->
  exists w', main env w = (Raise (SystemExit 0), w') /\ same_store w w'
    /\ exit_code (fst (main env w)) = 0.
Proof.
  intros Hload Hset Hnone.
  destruct (fetch_coupons_feed env w) as (w0 & Hfetch & _ & Hq0).
  assert (Hmain : exists w', main env w = (Raise (SystemExit 0), w') /\ same_store w0 w').
  { unfold main, bind at 1. rewrite Hload. unfold bind at 1, lift at 1. cbn [attr_get].
    unfold bind at 1, lift at 1. rewrite Hset. unfold bind at 1. rewrite Hfetch.
    destruct (feed env) as [|c0 l] eqn:Hfeed.
    { unfold bind, print, sys_exit, raise. eexists. split; [reflexivity|]. repeat split. }
    destruct (filterM_valid env (c0 :: l) w0) as (valid & wa & Hf & _ & Hin & _).
    destruct (select_coupon_run env (c0 :: l) p0 state0 w0) as (valid' & wa' & Hf' & Hcases).
    rewrite Hf in Hf'. injection Hf' as <- <-.
    destruct Hcases as [(_ & w1 & Hx)|(Hne & _)].
    - unfold bind at 1. rewrite Hx. eexists. split; [reflexivity|].
      pose proof (quiet_select_coupon env (c0 :: l) p0 state0 w0) as Hq.
      rewrite Hx in Hq. exact Hq.
    - destruct valid as [|v valid]; [contradiction|].
      destruct (Hin v (or_introl eq_refl)) as (Hv & i & _ & He).
      destruct (Hnone v i Hv He). }
  destruct Hmain as (w' & Hmain & Hq1). exists w'. rewrite Hmain.
  split; [reflexivity|]. split; [eapply same_store_trans; eassumption | reflexivity].
Qed.

Lemma select_coupon_inv (coupons p0 : list json) (s0 : list (list N * json))
    (w : world) (p : list json) (s : list (list N * json)) (c : json) (w1 : world) :
  select_coupon env coupons p0 s0 w = (Ok (p, s, c), w1) ->
  exists valid wa vs wb pre post cid,
    filterM (is_valid_coupon env) coupons w = (Ok valid, wa)
    /\ sorted_by_key env valid wa = (Ok vs, wb)
    /\ vs = pre ++ c :: post
    /\ all_published p0 pre
    /\ coupon_cid c = Ok cid
    /\ ((set_mem (JInt cid) p0 = false /\ p = p0 /\ s = s0)
        \/ (pre = [] /\ all_published p0 (c :: post)
            /\ p = [] /\ s = dict_set (lit "published_ids") (JList []) s0)).
Proof.
  intros Hsel.
  destruct (select_coupon_run env coupons p0 s0 w) as (valid & wa & Hf & Hcases).
  destruct Hcases as [(_ & w2 & Hx)|(_ & wb & [(_ & Hx)|(vs & Hs & _ & Hn)])];
    [congruence | congruence |].
  destruct Hn as [(e & _ & Hx)|[(c' & Hn & Hx)|(c' & vs' & w2 & Hn & -> & Hx)]]; [congruence| |].
  - rewrite Hsel in Hx. injection Hx as ? ? ? ?. subst.
    destruct (next_unposted_first _ _ _ Hn) as (pre & post & cid & -> & Hpre & Hc & Hm).
    eexists valid, wa, _, _, pre, post, cid.
    split; [exact Hf|]. split; [exact Hs|]. split; [reflexivity|].
    split; [exact Hpre|]. split; [exact Hc|]. left. auto.
  - rewrite Hsel in Hx. injection Hx as ? ? ? ?. subst.
    rewrite next_unposted_none in Hn.
    destruct (Hn _ (or_introl eq_refl)) as (cid & Hc & _).
    eexists valid, wa, _, _, [], vs', cid.
    split; [exact Hf|]. split; [exact Hs|]. split; [reflexivity|].
    split; [intros x []|]. split; [exact Hc|]. right. auto.
Qed.

(** The selected coupon is the first of the sorted valid coupons whose
    identifier is not published: the identifiers of those before it are
    published. When all are published it is the first sorted coupon, with
    the set and the list emptied. *)
Theorem select_coupon_first_unposted (coupons p0 : list json) (s0 : list (list N * json))
    (w : world) (p : list json) (s : list (list N * json)) (c : json) (w1 : world) :
  select_coupon env coupons p0 s0 w = (Ok (p, s, c), w1) ->
  exists valid wa vs wb pre post cid,
    filterM (is_valid_coupon env) coupons w = (Ok valid, wa)
    /\ sorted_by_key env valid wa = (Ok vs, wb)
    /\ vs = pre ++ c :: post
    /\ all_published p0 pre
    /\ coupon_cid c = Ok cid
    /\ ((set_mem (JInt cid) p0 = false /\ p = p0 /\ s = s0)
        \/ (pre = [] /\ all_published p0 (c :: post)
            /\ p = [] /\ s = dict_set (lit "published_ids") (JList []) s0)).
Proof. apply select_coupon_inv. Qed.

(** Of the valid coupons that share an identifier (in particular those
    that have none, whose identifier is 0), only the first in sorted order
    can be selected: no coupon sorted before the selected one has its
    identifier. *)
Theorem shared_id_selects_first_only (coupons p0 : list json) (s0 : list (list N * json))
    (w : world) (p : list json) (s : list (list N * json)) (c : json) (w1 : world) :
  select_coupon env coupons p0 s0 w = (Ok (p, s, c), w1) ->
  exists valid wa vs wb pre post,
    filterM (is_valid_coupon env) coupons w = (Ok valid, wa)
    /\ sorted_by_key env valid wa = (Ok vs, wb)
    /\ vs = pre ++ c :: post
    /\ forall x, In x pre -> coupon_cid x <> coupon_cid c.
Proof.
  intros Hsel.
  destruct (select_coupon_inv _ _ _ _ _ _ _ _ Hsel)
    as (valid & wa & vs & wb & pre & post & cid & Hf & Hs & Hvs & Hpre & Hcid & Hcase).
  exists valid, wa, vs, wb, pre, post. split; [exact Hf|]. split; [exact Hs|].
  split; [exact Hvs|]. intros x Hx Heq.
  destruct Hcase as [(Hm & _)|(-> & _)]; [|destruct Hx].
  destruct (Hpre x Hx) as (cid' & Hc' & Hm'). congruence.
Qed.

Lemma coupon_cid_exception (c : json) (e : exn) :
  coupon_cid c = Raise e -> exit_code (Raise e) = 1.
Proof.
  destruct c as [| | | | | |d]; try (cbn; intros [= <-]; reflexivity).
  intros Hc. destruct (coupon_cid_raises d e Hc) as [->|[->| ->]]; reflexivity.
Qed.

(** The conversion of the identifiers in the loop of [main] is not
    guarded: when the sorted valid coupons reach, before any unpublished
    one, a coupon whose identifier [int] rejects, the run dies with that
    exception and status 1, and nothing is posted or written. *)
Theorem unreadable_id_stops_run (w : world) (state0 : list (list N * json))
    (p0 coupons : list json) (w0 : world) (valid : list json) (wa : world)
    (pre : list json) (c : json) (post : list json) (wb : world) (e : exn) :
  load_state (STATE_FILE env) w = (Ok (JDict state0), w) ->
  py_set (dict_get (lit "published_ids") (JList []) state0) = Ok p0 ->
  fetch_coupons env w = (Ok coupons, w0) ->
  filterM (is_valid_coupon env) coupons w0 = (Ok valid, wa) ->
  sorted_by_key env valid wa = (Ok (pre ++ c :: post), wb) ->
  all_published p0 pre ->
  coupon_cid c = Raise e ->
  main env w = (Raise e, wb) /\ same_store w wb /\ exit_code (Raise e) = 1.
Proof.
  intros Hload Hset Hfetch Hf Hs Hpre Hc.
  assert (Hn : next_unposted p0 (pre ++ c :: post) = Raise e).
  { apply next_unposted_raises. exists pre, c, post. auto. }
  assert (Hsel : select_coupon env coupons p0 state0 w0 = (Raise e, wb)).
  { unfold select_coupon, bind, lift. rewrite Hf.
    destruct valid as [|v valid].
    { rewrite sorted_by_key_nil in Hs. injection Hs as Hs _. destruct pre; discriminate Hs. }
    rewrite Hs, Hn. reflexivity. }
  assert (Hmain : main env w = (Raise e, wb)).
  { unfold main, bind at 1. rewrite Hload. unfold bind at 1, lift at 1. cbn [attr_get].
    unfold bind at 1, lift at 1. rewrite Hset. unfold bind at 1. rewrite Hfetch.
    destruct coupons as [|c0 l].
    { cbn in Hf. injection Hf as <- <-. rewrite sorted_by_key_nil in Hs.
      injection Hs as Hs _. destruct pre; discriminate Hs. }
    unfold bind at 1. rewrite Hsel. reflexivity. }
  split; [exact Hmain|]. split; [|eapply coupon_cid_exception; exact Hc].
  pose proof (quiet_fetch_coupons env w) as Hq0. rewrite Hfetch in Hq0.
  pose proof (quiet_select_coupon env coupons p0 state0 w0) as Hq1. rewrite Hsel in Hq1.
  eapply same_store_trans; eassumption.
Qed.

(** The store of the selected coupon is read with [get] without a check:
    when the coupon has a [store] that is not a mapping (a null, a string),
    the run dies with an [AttributeError] and status 1 before anything is
    posted, and nothing is written. *)
Theorem store_not_mapping_stops_run (w : world) (state0 : list (list N * json))
    (p0 coupons : list json) (w0 : world) (p : list json) (s : list (list N * json))
    (d : list (list N * json)) (v : json) (w1 : world) :
  load_state (STATE_FILE env) w = (Ok (JDict state0), w) ->
  py_set (dict_get (lit "published_ids") (JList []) state0) = Ok p0 ->
  fetch_coupons env w = (Ok coupons, w0) ->
  select_coupon env coupons p0 state0 w0 = (Ok (p, s, JDict d), w1) ->
  dict_lookup (lit "store") d = Some v ->
  attr_get v = Raise AttributeError ->
  main env w = (Raise AttributeError, w1) /\ same_store w w1
  /\ exit_code (fst (main env w)) = 1.
Proof.
  intros Hload Hset Hfetch Hsel Hstore Hv.
  assert (Hd : d <> []) by (intros ->; discriminate Hstore).
  assert (Hmain : main env w = (Raise AttributeError, w1)).
  { unfold main, bind at 1. rewrite Hload. unfold bind at 1, lift at 1. cbn [attr_get].
    unfold bind at 1, lift at 1. rewrite Hset. unfold bind at 1. rewrite Hfetch.
    destruct coupons as [|c0 l].
    { unfold select_coupon, bind in Hsel. cbn in Hsel. discriminate Hsel. }
    unfold bind at 1. rewrite Hsel.
    assert (truthy (JDict d) = true) as -> by (destruct d; [contradiction | reflexivity]).
    cbn [negb]. unfold post_and_record, bind at 1. unfold deliver, bind at 1, lift at 1.
    cbn [attr_get]. unfold bind at 1, lift at 1. unfold dict_get. rewrite Hstore, Hv.
    reflexivity. }
  rewrite Hmain. split; [reflexivity|]. split; [|reflexivity].
  pose proof (quiet_fetch_coupons env w) as Hq0. rewrite Hfetch in Hq0.
  pose proof (quiet_select_coupon env coupons p0 state0 w0) as Hq1. rewrite Hsel in Hq1.
  eapply same_store_trans; eassumption.
Qed.

(** What [deliver] posts for a coupon whose store is a mapping or absent:
    the logo of the store when it is truthy, else the logo of the coupon
    when it is truthy, as a photo with the caption; else the caption as a
    text message. One request is posted, no file is touched, and the answer
    of the gateway is returned. *)
Theorem deliver_request (d store : list (list N * json)) (w : world) :
  attr_get (dict_get (lit "store") (JDict []) d) = Ok store ->
  exists caption w',
    make_caption (JDict d) = Ok caption
    /\ deliver env (JDict d) w
       = (Ok (telegram env
                (if truthy (dict_get (lit "logo_url") JNull store)
                 then SendPhoto (dict_get (lit "logo_url") JNull store) caption
                 else if truthy (dict_get (lit "logo_url") JNull d)
                 then SendPhoto (dict_get (lit "logo_url") JNull d) caption
                 else SendMessage caption)), w')
    /\ sent w' = sent w
         ++ [if truthy (dict_get (lit "logo_url") JNull store)
             then SendPhoto (dict_get (lit "logo_url") JNull store) caption
             else if truthy (dict_get (lit "logo_url") JNull d)
             then SendPhoto (dict_get (lit "logo_url") JNull d) caption
             else SendMessage caption]
    /\ files w' = files w.
Proof.
  intros Hstore. exists (truncate_caption (caption_text d)).
  unfold deliver, bind, lift. cbn [attr_get]. rewrite Hstore.
  unfold make_caption. cbn [attr_get rbind]. unfold py_or.
  destruct (truthy (dict_get (lit "logo_url") JNull store)) eqn:Ha.
  - rewrite Ha. unfold post_to_telegram_photo, post.
    destruct (telegram env _); eexists; (split; [reflexivity|]); (split; [reflexivity|]);
      split; reflexivity.
  - destruct (truthy (dict_get (lit "logo_url") JNull d)) eqn:Hb.
    + rewrite Hb. unfold post_to_telegram_photo, post.
      destruct (telegram env _); eexists; (split; [reflexivity|]); (split; [reflexivity|]);
        split; reflexivity.
    + cbn [truthy]. unfold post.
      destruct (telegram env _); eexists; (split; [reflexivity|]); (split; [reflexivity|]);
        split; reflexivity.
Qed.

(** A run posts at most one request, and the only file it can change is
    the state file, which it rewrites only when it returns normally: with
    the text of a mapping or, when UTF-8 cannot encode that text, with the
    pieces of it written before the failure. *)
Theorem main_effects_bounded (w : world) :
  (sent (snd (main env w)) = sent w
   \/ exists req, sent (snd (main env w)) = sent w ++ [req])
  /\ (files (snd (main env w)) = files w
      \/ exists state',
           fst (main env w) = Ok tt
           /\ saved env (JDict state') w (snd (main env w))).
Proof.
  destruct (main env w) as [r w'] eqn:Hmain. cbn [fst snd].
  destruct (main_run env w r w' Hmain)
    as [((Hf & Hs & _) & _)
       |(state0 & p0 & w0 & p & s & c & w1 & req & w2 & _ & _ & _ & _ & Hsel
         & _ & Hf2 & Hs2 & _ & Hend)].
  { split; left; assumption. }
  destruct (select_coupon_cases env _ _ _ _ _ _ _ _ Hsel) as (cid & Hcid & _).
  destruct Hend as [(_ & Hrec)|(_ & (Hf3 & Hs3 & _) & _)].
  - destruct (record_published_saved env c p s w2 cid Hcid) as (Hr & Hs & Hcase).
    rewrite Hrec in Hr, Hs, Hcase. cbn [fst snd] in Hr, Hs, Hcase. subst r.
    split; [right; exists req; congruence|].
    destruct Hcase as [(ids & _ & Hsaved)|(_ & (Hf & _) & _)]; [|left; congruence].
    right. eexists. split; [reflexivity|]. unfold recorded_state in Hsaved.
    eapply saved_from; eassumption.
  - split; [right; exists req; congruence | left; congruence].
Qed.

(** A post that the gateway confirms ends the run with status 0 whether
    or not the coupon could be recorded: the state file is rewritten; or
    the text of the state has a character that UTF-8 cannot encode and the
    file is left with the pieces written before it; or the identifiers did
    not sort, the [TypeError] is printed and the file is as it was. *)
Theorem confirmed_post_exits_zero (w : world) (r : result unit) (w' : world) (req : request) :
  main env w = (r, w') ->
  sent w' = sent w ++ [req] ->
  confirmed (telegram env req) = Ok true ->
  r = Ok tt
  /\ ((exists state', saved env (JDict state') w w')
      \/ (files w' = files w
          /\ exists out, output w' = out ++ [ErrUpdate TypeError])).
Proof.
  intros Hmain Hsent Hok.
  destruct (main_run_sent w r w' req Hmain Hsent)
    as (state0 & p0 & w0 & p & s & c & cid & w1 & w2 & _ & _ & _ & _ & _ & Hcid & _
        & Hf2 & _ & _ & [(_ & Hrec)|(Hno & _)]); [|contradiction].
  destruct (record_published_saved env c p s w2 cid Hcid) as (Hr & _ & Hcase).
  rewrite Hrec in Hr, Hcase. cbn [fst snd] in Hr, Hcase.
  split; [exact Hr|].
  destruct Hcase as [(ids & _ & Hsaved)|(_ & (Hf & _) & Hout)].
  - left. eexists. unfold recorded_state in Hsaved. eapply saved_from; eassumption.
  - right. split; [congruence | eauto].
Qed.

(** What is pushed is what was saved: a run pushes nothing, or, when git
    works and the run returns normally, exactly the text that the state
    file holds at the end. *)
Theorem push_is_saved_state (w : world) :
  pushed (snd (main env w)) = pushed w
  \/ (git_ok env = true /\ fst (main env w) = Ok tt
      /\ exists text,
           pushed (snd (main env w)) = pushed w ++ [text]
           /\ files (snd (main env w)) !! STATE_FILE env = Some text).
Proof.
  destruct (main env w) as [r w'] eqn:Hmain. cbn [fst snd].
  destruct (main_run env w r w' Hmain)
    as [((_ & _ & Hp) & _)
       |(state0 & p0 & w0 & p & s & c & w1 & req & w2 & _ & _ & _ & _ & Hsel
         & _ & _ & _ & Hp2 & Hend)]; [left; exact Hp|].
  destruct (select_coupon_cases env _ _ _ _ _ _ _ _ Hsel) as (cid & Hcid & _).
  destruct Hend as [(_ & Hrec)|(_ & (_ & _ & Hp3) & _)]; [|left; congruence].
  destruct (record_published_cases env c p s w2 cid Hcid)
    as [(ids & text & w'' & _ & _ & _ & Hrun & Hf & _ & Hp & _)
       |[(ids & w'' & _ & _ & Hrun & _ & _ & Hp & _)|(w'' & _ & Hrun & (_ & _ & Hp) & _)]];
    rewrite Hrun in Hrec; injection Hrec as <- <-; [|left; congruence|left; congruence].
  destruct (git_ok env).
  - right. split; [reflexivity|]. split; [reflexivity|]. exists text.
    split; [congruence|]. rewrite Hf. apply lookup_insert_eq.
  - left. rewrite Hp, app_nil_r. exact Hp2.
Qed.

End RunProperties.

Section StateInvariant.
Context `{Externals} (env : environment).

Lemma dict_set_keys (k : list N) (v : json) (d : list (list N * json)) (x : list N) :
  In x (map fst (dict_set k v d)) -> x = k \/ In x (map fst d).
Proof.
  induction d as [|[k' v'] d IH]; cbn [dict_set map fst In].
  - intros [<-|[]]. left. reflexivity.
  - destruct (str_eqb k k') eqn:E; cbn [map fst In].
    + intros [<-|Hx]; right; [left; reflexivity | right; exact Hx].
    + intros [<-|Hx]; [right; left; reflexivity|].
      destruct (IH Hx) as [->|Hd]; [left; reflexivity | right; right; exact Hd].
Qed.

Lemma dict_set_values (P : json -> Prop) (k : list N) (v : json) (d : list (list N * json)) :
  P v -> Forall (fun kv => P (snd kv)) d -> Forall (fun kv => P (snd kv)) (dict_set k v d).
Proof.
  intros Hv. induction 1 as [|[k' v'] d Hkv Hd IH]; cbn [dict_set].
  - apply List.Forall_cons; [exact Hv | apply List.Forall_nil].
  - destruct (str_eqb k k'); apply List.Forall_cons; assumption.
Qed.

Lemma dict_set_nodup (k : list N) (v : json) (d : list (list N * json)) :
  NoDup (map fst d) -> NoDup (map fst (dict_set k v d)).
Proof.
  induction d as [|[k' v'] d IH]; cbn [dict_set map fst]; intros Hnd.
  - apply NoDup_singleton.
  - apply NoDup_cons in Hnd as [Hk Hnd].
    destruct (str_eqb k k') eqn:E; cbn [map fst].
    + apply NoDup_cons. split; assumption.
    + apply NoDup_cons. split; [|apply IH; exact Hnd].
      intros Hin. apply list_elem_of_In in Hin. apply dict_set_keys in Hin as [->|Hin].
      * rewrite str_eqb_refl in E. discriminate E.
      * apply Hk. apply list_elem_of_In. exact Hin.
Qed.

Lemma plain_dict_set (k : list N) (v : json) (d : list (list N * json)) :
  plain (JDict d) -> plain v -> plain (JDict (dict_set k v d)).
Proof.
  intros Hd Hv. inversion Hd as [| | | | |? Hnd Hall]; subst.
  apply plain_dict; [apply dict_set_nodup; exact Hnd | apply dict_set_values; assumption].
Qed.

Lemma plain_recorded_state (l : list Z) (now : Z) (s : list (list N * json)) :
  plain (JDict s) -> integer_ids_state (recorded_state (map JInt l) now s).
Proof.
  intros Hs. split.
  - unfold recorded_state. apply plain_dict_set; [|apply plain_str].
    apply plain_dict_set; [exact Hs | apply plain_int_list].
  - destruct (recorded_state_ids (map JInt l) now s) as (state' & Hst & Hl). eauto.
Qed.

Lemma fresh_state_ok : integer_ids_state fresh_state.
Proof.
  split.
  - apply well_formed_plain. exists [], JNull. split; [left; reflexivity | left; reflexivity].
  - eexists _, []. split; reflexivity.
Qed.

(** A state file that is absent or well formed loads. *)
Lemma state_file_ok_loads (w : world) :
  state_file_ok env w ->
  exists d ids,
    load_state (STATE_FILE env) w = (Ok (JDict d), w)
    /\ plain (JDict d)
    /\ encodable (json_dumps (JDict d)) = true
    /\ dict_lookup (lit "published_ids") d = Some (JList (map JInt ids)).
Proof.
  unfold state_file_ok, load_state.
  destruct (files w !! STATE_FILE env) as [text|].
  - intros (He & state & -> & Hp & d & ids & -> & Hl). exists d, ids.
    rewrite (plain_reads_back (JDict d) Hp). auto.
  - intros _. destruct fresh_state_ok as (Hp & d & ids & Hd & Hl).
    exists d, ids. rewrite <- Hd. auto.
Qed.

(** A run that starts from such a state file and returns normally has
    recorded the coupon it selected and posted. *)
Lemma main_recorded (w w' : world) :
  state_file_ok env w ->
  main env w = (Ok tt, w') ->
  exists state0 p0 w0 p s c cid w1 w2 req l,
    load_state (STATE_FILE env) w = (Ok (JDict state0), w)
    /\ select_coupon env (feed env) p0 state0 w0 = (Ok (p, s, c), w1)
    /\ plain (JDict s)
    /\ (forall k, k <> lit "published_ids" -> dict_lookup k s = dict_lookup k state0)
    /\ coupon_cid c = Ok cid
    /\ make_caption c = Ok (caption_of req)
    /\ sent w' = sent w ++ [req]
    /\ confirmed (telegram env req) = Ok true
    /\ In cid l
    /\ files w' = <[STATE_FILE env
                    := json_dumps (recorded_state (map JInt l) (clock env (ticks w2)) s)]>
                   (files w)
    /\ ticks w' = S (ticks w2)
    /\ encodable (json_dumps (recorded_state (map JInt l) (clock env (ticks w2)) s)) = true
    /\ py_set (dict_get (lit "published_ids") (JList []) state0) = Ok p0
    /\ fetch_coupons env w = (Ok (feed env), w0)
    /\ deliver env c w1 = (Ok (telegram env req), w2).
Proof.
  intros Hok Hmain.
  destruct (state_file_ok_loads w Hok) as (state0 & ids0 & Hload & Hplain & Henc & Hids).
  destruct (main_ok_sent env w w' Hmain) as (req & Hsent & Hconf).
  destruct (main_run_deliver env w (Ok tt) w' req Hmain Hsent)
    as (state0' & p0 & w0 & p & s & c & cid & w1 & w2 & Hload' & Hset & Hfetch & Hsel & Hcid
        & Hdel & Hcap & Hf2 & Hs2 & [(_ & Hrec)|(Hno & _)]); [|contradiction].
  rewrite Hload in Hload'. injection Hload' as <-.
  pose proof Hset as Hset0.
  unfold dict_get in Hset. rewrite Hids in Hset.
  destruct (py_set_int ids0) as (u & Hu & Hndu & Hinu).
  rewrite Hu in Hset. injection Hset as <-.
  destruct (select_coupon_cases env _ _ _ _ _ _ _ _ Hsel) as (cid2 & Hcid2 & Hp).
  assert (Hpr : exists prior, p = map JInt prior /\ NoDup prior).
  { destruct Hp as [(-> & _ & _)|(-> & _)]; [exists u | exists []]; split;
      (reflexivity || assumption || constructor). }
  destruct Hpr as (prior & -> & Hnd).
  assert (Hs : plain (JDict s) /\ encodable (json_dumps (JDict s)) = true
               /\ forall k, k <> lit "published_ids" -> dict_lookup k s = dict_lookup k state0).
  { destruct Hp as [(_ & -> & _)|(_ & ->)]; [auto|].
    split; [apply plain_dict_set; [exact Hplain | apply (plain_int_list [])]|].
    split; [apply encodable_dict_set; [reflexivity | reflexivity | exact Henc]|].
    intros k Hk. apply dict_lookup_set_ne. exact Hk. }
  destruct Hs as (Hpl & Hencs & Hkeep).
  destruct (set_add_int cid prior Hnd) as (u' & Hadd & Hnd' & Hin').
  destruct (py_sorted_int u' Hnd') as (l & Hl & _ & Hinl).
  rewrite <- Hadd in Hl.
  pose proof (encodable_recorded_state l (clock env (ticks w2)) s Hencs) as Hencr.
  destruct (record_published_cases env c (map JInt prior) s w2 cid Hcid)
    as [(ids & text & w'' & Hsort & -> & _ & Hrun & Hf & Hs & _ & _ & Ht)
       |[(ids & w'' & Hsort & Hbad & _)|(w'' & Hsort & _)]]; [| |congruence].
  2:{ rewrite Hl in Hsort. injection Hsort as <-. congruence. }
  rewrite Hl in Hsort. injection Hsort as <-.
  rewrite Hrun in Hrec. injection Hrec as <-.
  exists state0, (map JInt u), w0, (map JInt prior), s, c, cid, w1, w2, req, l.
  split; [exact Hload|]. split; [exact Hsel|]. split; [exact Hpl|]. split; [exact Hkeep|].
  split; [exact Hcid|]. split; [exact Hcap|]. split; [exact Hsent|]. split; [exact Hconf|].
  split; [apply Hinl, Hin'; left; reflexivity|].
  split; [rewrite Hf, Hf2; reflexivity|]. split; [exact Ht|]. split; [exact Hencr|].
  split; [exact Hset0|]. split; [exact Hfetch | exact Hdel].
Qed.

(** The state that comes out of the selection is, like the state loaded,
    without floats and repeated keys and with a text that UTF-8
    encodes. *)
Lemma selected_state_ok (coupons p0 : list json) (s0 : list (list N * json)) (w0 : world)
    (p : list json) (s : list (list N * json)) (c : json) (w1 : world) :
  select_coupon env coupons p0 s0 w0 = (Ok (p, s, c), w1) ->
  plain (JDict s0) -> encodable (json_dumps (JDict s0)) = true ->
  plain (JDict s) /\ encodable (json_dumps (JDict s)) = true.
Proof.
  intros Hsel Hpl He.
  destruct (select_coupon_cases env _ _ _ _ _ _ _ _ Hsel) as (_ & _ & [(_ & -> & _)|(_ & ->)]);
    [auto|].
  split; [apply plain_dict_set; [exact Hpl | apply (plain_int_list [])]|].
  apply encodable_dict_set; [reflexivity | reflexivity | exact He].
Qed.

(** The state file that a run leaves after it recorded a coupon. *)
Lemma recorded_file_ok (w' : world) (l : list Z) (now : Z) (s : list (list N * json)) :
  plain (JDict s) ->
  encodable (json_dumps (recorded_state (map JInt l) now s)) = true ->
  files w' !! STATE_FILE env = Some (json_dumps (recorded_state (map JInt l) now s)) ->
  state_file_ok env w'.
Proof.
  intros Hpl He Hf. unfold state_file_ok. rewrite Hf. split; [exact He|].
  eexists. split; [reflexivity|]. apply plain_recorded_state. exact Hpl.
Qed.

(** The shape of the state file is kept by every run: from a state file
    that is absent or holds a mapping with a list of integers under
    [published_ids], every run ends with such a state file, which the next
    run loads. *)
Theorem main_keeps_state_loadable (w : world) (r : result unit) (w' : world) :
  state_file_ok env w ->
  main env w = (r, w') ->
  state_file_ok env w'
  /\ exists state,
       load_state (STATE_FILE env) w' = (Ok state, w') /\ integer_ids_state state.
Proof.
  intros Hok Hmain.
  assert (Hok' : state_file_ok env w').
  { destruct r as [[]|e].
    - destruct (main_recorded w w' Hok Hmain)
        as (state0 & p0 & w0 & p & s & c & cid & w1 & w2 & req & l & _ & _ & Hpl & _ & _ & _
            & _ & _ & _ & Hf & _ & He & _).
      eapply recorded_file_ok; [exact Hpl | exact He|]. rewrite Hf. apply lookup_insert_eq.
    - assert (Hf : files w' = files w).
      { destruct (main_run env w _ w' Hmain)
          as [((Hf & _) & _)
             |(state0 & p0 & w0 & p & s & c & w1 & req & w2 & _ & _ & _ & _ & Hsel
               & _ & Hf2 & _ & _ & Hend)]; [exact Hf|].
        destruct (select_coupon_cases env _ _ _ _ _ _ _ _ Hsel) as (cid & Hcid & _).
        destruct Hend as [(_ & Hrec)|(_ & (Hf3 & _) & _)]; [|congruence].
        pose proof (record_published_ok env c p s w2 cid Hcid) as Hr.
        rewrite Hrec in Hr. discriminate Hr. }
      unfold state_file_ok. rewrite Hf. exact Hok. }
  split; [exact Hok'|].
  destruct (state_file_ok_loads w' Hok') as (d & ids & Hload & Hpl & _ & Hl).
  exists (JDict d). split; [exact Hload|]. split; [exact Hpl | eauto].
Qed.

(** When the state file is rewritten, its [last_run] is the text of the
    last reading of the clock, and every key other than [published_ids]
    and [last_run] keeps the value it had when the state was loaded. *)
Theorem recorded_state_keeps_other_keys (w w' : world) :
  state_file_ok env w ->
  main env w = (Ok tt, w') ->
  exists state0 state' i,
    load_state (STATE_FILE env) w = (Ok (JDict state0), w)
    /\ load_state (STATE_FILE env) w' = (Ok (JDict state'), w')
    /\ ticks w' = S i
    /\ dict_lookup (lit "last_run") state' = Some (JStr (isoformat (clock env i)))
    /\ forall k, k <> lit "published_ids" -> k <> lit "last_run" ->
         dict_lookup k state' = dict_lookup k state0.
Proof.
  intros Hok Hmain.
  destruct (main_recorded w w' Hok Hmain)
    as (state0 & p0 & w0 & p & s & c & cid & w1 & w2 & req & l & Hload & _ & Hpl & Hkeep & _
        & _ & _ & _ & _ & Hf & Ht & _).
  destruct (plain_recorded_state l (clock env (ticks w2)) s Hpl) as (Hpl' & _).
  exists state0, (dict_set (lit "last_run") (JStr (isoformat (clock env (ticks w2))))
                    (dict_set (lit "published_ids") (JList (map JInt l)) s)), (ticks w2).
  split; [exact Hload|]. split.
  { unfold load_state. rewrite Hf, lookup_insert_eq.
    rewrite (plain_reads_back _ Hpl'). reflexivity. }
  split; [exact Ht|]. split; [apply dict_lookup_set_eq|].
  intros k Hk1 Hk2. rewrite !dict_lookup_set_ne by assumption. apply Hkeep. exact Hk1.
Qed.


End StateInvariant.

Section Git.
Context `{Externals} (env : environment).

Lemma record_published_git (c : json) (p : list json) (s : list (list N * json)) (w : world) :
  fst (record_published (with_git false env) c p s w)
  = fst (record_published (with_git true env) c p s w)
  /\ files (snd (record_published (with_git false env) c p s w))
     = files (snd (record_published (with_git true env) c p s w))
  /\ sent (snd (record_published (with_git false env) c p s w))
     = sent (snd (record_published (with_git true env) c p s w))
  /\ pushed (snd (record_published (with_git false env) c p s w)) = pushed w.
Proof.
  unfold record_published, try_except, bind, lift, utcnow, print, git_commit_and_push.
  cbn [with_git clock STATE_FILE git_ok].
  destruct (coupon_cid c) as [cid|e].
  2:{ destruct (is_exception e); repeat split. }
  destruct (py_sorted _) as [ids|e].
  2:{ destruct (is_exception e); repeat split. }
  rewrite !save_state_run. destruct (encodable _); repeat split.
Qed.

Lemma same_outcome_refl {A} (x : result A * world) : same_outcome x x.
Proof. repeat split. Qed.

Lemma same_outcome_bind {A B} (m : M A) (k1 k2 : A -> M B) (w : world) :
  (forall a w', same_outcome (k1 a w') (k2 a w')) ->
  same_outcome (bind m k1 w) (bind m k2 w).
Proof.
  intros Hk. unfold bind. destruct (m w) as [[a|e] w']; [apply Hk | apply same_outcome_refl].
Qed.

Lemma main_git_outcome (w : world) :
  same_outcome (main (with_git false env) w) (main (with_git true env) w).
Proof.
  unfold main.
  change (STATE_FILE (with_git false env)) with (STATE_FILE env).
  change (STATE_FILE (with_git true env)) with (STATE_FILE env).
  change (fetch_coupons (with_git false env)) with (fetch_coupons env).
  change (fetch_coupons (with_git true env)) with (fetch_coupons env).
  change (select_coupon (with_git false env)) with (select_coupon env).
  change (select_coupon (with_git true env)) with (select_coupon env).
  apply same_outcome_bind. intros st w1.
  apply same_outcome_bind. intros state0 w2.
  apply same_outcome_bind. intros p0 w3.
  apply same_outcome_bind. intros coupons w4.
  destruct coupons as [|c0 l]; [apply same_outcome_refl|].
  apply same_outcome_bind. intros [[p s] c] w5.
  destruct (negb (truthy c)); [apply same_outcome_refl|].
  unfold post_and_record.
  change (deliver (with_git false env)) with (deliver env).
  change (deliver (with_git true env)) with (deliver env).
  apply same_outcome_bind. intros resp w6.
  apply same_outcome_bind. intros ok w7.
  destruct ok; [|apply same_outcome_refl].
  destruct (record_published_git c p s w7) as (Hr & Hf & Hs & _).
  repeat split; assumption.
Qed.

(** A failure of the git commands is printed and has no other effect on
    the run: the result, the files and the request are those of the run in
    which git works, and nothing is pushed. *)
Theorem git_failure_is_silent (w : world) :
  same_outcome (main (with_git false env) w) (main (with_git true env) w)
  /\ pushed (snd (main (with_git false env) w)) = pushed w.
Proof.
  split; [apply main_git_outcome|].
  destruct (main (with_git false env) w) as [r w'] eqn:Hmain. cbn [snd].
  destruct (main_run (with_git false env) w r w' Hmain)
    as [((_ & _ & Hp) & _)
       |(state0 & p0 & w0 & p & s & c & w1 & req & w2 & _ & _ & _ & _ & Hsel
         & _ & _ & _ & Hp2 & Hend)]; [exact Hp|].
  destruct (select_coupon_cases _ _ _ _ _ _ _ _ _ Hsel) as (cid & Hcid & _).
  destruct Hend as [(_ & Hrec)|(_ & (_ & _ & Hp3) & _)]; [|congruence].
  destruct (record_published_cases (with_git false env) c p s w2 cid Hcid)
    as [(ids & text & w'' & _ & _ & _ & Hrun & _ & _ & Hp & _)
       |[(ids & w'' & _ & _ & Hrun & _ & _ & Hp & _)|(w'' & _ & Hrun & (_ & _ & Hp) & _)]];
    rewrite Hrun in Hrec; injection Hrec as <- <-; [|congruence|congruence].
  cbn [with_git git_ok] in Hp. rewrite Hp, app_nil_r. exact Hp2.
Qed.

End Git.

Section Unsortable.
Context `{Externals} (env : environment).

Lemma py_lt_ok (a b : json) (v : bool) : py_lt a b = Ok v -> is_number a = is_number b.
Proof.
  unfold py_lt, is_number. destruct (xval_of a), (xval_of b); congruence.
Qed.

(** A list that [sorted] gets through holds numbers only or no number. *)
Lemma sort_decorated_py_uniform {A} (l r : list (json * A)) :
  sort_decorated py_lt l = Ok r ->
  forall a b, In a l -> In b l -> is_number (fst a) = is_number (fst b).
Proof.
  revert r. induction l as [|x l IH]; intros r; cbn [sort_decorated]; [intros _ a b []|].
  destruct (sort_decorated py_lt l) as [r'|e] eqn:Hs; cbn [rbind]; [|discriminate].
  intros Hi.
  assert (Hx : forall y, In y l -> is_number (fst y) = is_number (fst x)).
  { intros y Hy. apply (sort_decorated_In _ _ _ Hs) in Hy.
    destruct r' as [|z r']; [destruct Hy|]. cbn [insert_sorted] in Hi.
    destruct (py_lt (fst z) (fst x)) as [v|e] eqn:Hlt; [|discriminate].
    apply py_lt_ok in Hlt. rewrite <- Hlt.
    apply (IH _ eq_refl); apply (sort_decorated_In _ _ _ Hs); [exact Hy | left; reflexivity]. }
  intros a b [<-|Ha] [<-|Hb].
  - reflexivity.
  - symmetry. apply Hx. exact Hb.
  - apply Hx. exact Ha.
  - apply (IH _ eq_refl); assumption.
Qed.

Lemma py_sorted_mixed (l : list json) (t : list N) (y : json) :
  In (JStr t) l -> In y l -> is_number y = true -> py_sorted l = Raise TypeError.
Proof.
  intros Ht Hy Hn. destruct (py_sorted l) as [r|e] eqn:Hs.
  - unfold py_sorted in Hs.
    destruct (sort_decorated py_lt (map (fun v => (v, v)) l)) as [r'|e] eqn:Hd; [|discriminate].
    pose proof (sort_decorated_py_uniform _ _ Hd (JStr t, JStr t) (y, y)) as Hu.
    cbn [fst] in Hu. rewrite Hn in Hu.
    discriminate Hu; apply in_map_iff; eexists; (split; [reflexivity | assumption]).
  - apply py_sorted_raises in Hs as ->. reflexivity.
Qed.

Lemma py_eq_str (t : list N) (y : json) : py_eq (JStr t) y = true -> y = JStr t.
Proof.
  unfold py_eq. cbn [xval_of]. destruct (xval_of y); [discriminate|].
  destruct y; try discriminate. intros E. apply str_eqb_eq in E as ->. reflexivity.
Qed.

Lemma py_eq_number (z : Z) (y : json) : py_eq (JInt z) y = true -> is_number y = true.
Proof.
  unfold py_eq, is_number. cbn [xval_of]. destruct (xval_of y); [reflexivity | discriminate].
Qed.

Lemma set_add_str (x : json) (s : list json) (t : list N) :
  In (JStr t) s \/ x = JStr t -> In (JStr t) (set_add x s).
Proof.
  unfold set_add. destruct (set_mem x s) eqn:Hm.
  - intros [Hin| ->]; [exact Hin|].
    unfold set_mem in Hm. apply existsb_exists in Hm as (y & Hy & Heq).
    apply py_eq_str in Heq as ->. exact Hy.
  - rewrite in_app_iff. cbn [In]. intros [Hin| ->]; auto.
Qed.

Lemma set_of_items_str (items acc s : list json) (t : list N) :
  set_of_items items acc = Ok s -> In (JStr t) items \/ In (JStr t) acc -> In (JStr t) s.
Proof.
  revert acc. induction items as [|x items IH]; intros acc; cbn [set_of_items].
  - intros [= <-] [[]|Hin]. exact Hin.
  - destruct (hashable x); [|discriminate]. intros Hs Hin. apply (IH _ Hs).
    destruct Hin as [[->|Hin]|Hin]; [right|left; exact Hin|right]; apply set_add_str; auto.
Qed.

Lemma set_add_number (z : Z) (s : list json) :
  exists y, In y (set_add (JInt z) s) /\ is_number y = true.
Proof.
  unfold set_add. destruct (set_mem (JInt z) s) eqn:Hm.
  - unfold set_mem in Hm. apply existsb_exists in Hm as (y & Hy & Heq).
    exists y. split; [exact Hy | eapply py_eq_number; exact Heq].
  - exists (JInt z). split; [apply in_app_iff; right; left; reflexivity | reflexivity].
Qed.

(** With a string among the published identifiers on file, the
    identifiers never sort with the integer of a posted coupon: a
    confirmed post ends with status 0 and either the record is lost (the
    [TypeError] is printed and the file is as it was), or the cycle
    restarted, and the list that is saved holds the identifier of the
    coupon that was selected and delivered, alone. *)
Theorem unsortable_ids_lose_record (w : world) (r : result unit) (w' : world)
    (state0 : list (list N * json)) (ids : list json) (t : list N) (req : request) :
  load_state (STATE_FILE env) w = (Ok (JDict state0), w) ->
  dict_get (lit "published_ids") (JList []) state0 = JList ids ->
  In (JStr t) ids ->
  main env w = (r, w') ->
  sent w' = sent w ++ [req] ->
  confirmed (telegram env req) = Ok true ->
  r = Ok tt
  /\ ((files w' = files w /\ exists out, output w' = out ++ [ErrUpdate TypeError])
      \/ exists p0 w0 s c w1 w2 cid state',
           fetch_coupons env w = (Ok (feed env), w0)
           /\ select_coupon env (feed env) p0 state0 w0 = (Ok ([], s, c), w1)
           /\ deliver env c w1 = (Ok (telegram env req), w2)
           /\ coupon_cid c = Ok cid
           /\ dict_lookup (lit "published_ids") state' = Some (JList [JInt cid])
           /\ saved env (JDict state') w w').
Proof.
  intros Hload Hids Hin Hmain Hsent Hok.
  destruct (main_run_deliver env w r w' req Hmain Hsent)
    as (state0' & p0 & w0 & p & s & c & cid & w1 & w2 & Hload' & Hset & Hfetch & Hsel & Hcid
        & Hdel & _ & Hf2 & _ & [(_ & Hrec)|(Hno & _)]); [|contradiction].
  rewrite Hload in Hload'. injection Hload' as <-. rewrite Hids in Hset.
  assert (Hstr : In (JStr t) p0).
  { unfold py_set in Hset. cbn [py_iter rbind] in Hset.
    eapply set_of_items_str; [exact Hset | left; exact Hin]. }
  destruct (select_coupon_cases env _ _ _ _ _ _ _ _ Hsel) as (cid' & Hcid' & Hp).
  rewrite Hcid in Hcid'. injection Hcid' as <-.
  destruct (record_published_saved env c p s w2 cid Hcid) as (Hr & _ & Hcase).
  rewrite Hrec in Hr, Hcase. cbn [fst snd] in Hr, Hcase.
  split; [exact Hr|].
  destruct Hcase as [(l & Hsort & Hsaved)|(_ & (Hf & _) & Hout)].
  - right. destruct Hp as [(-> & _ & _)|(-> & _)].
    + destruct (set_add_number cid p0) as (y & Hy & Hn).
      rewrite (py_sorted_mixed _ t y) in Hsort;
        [discriminate Hsort | apply set_add_str; left; exact Hstr | exact Hy | exact Hn].
    + cbn in Hsort. injection Hsort as <-.
      destruct (recorded_state_ids [JInt cid] (clock env (ticks w2)) s) as (state' & Hst & Hl).
      exists p0, w0, s, c, w1, w2, cid, state'.
      split; [exact Hfetch|]. split; [exact Hsel|]. split; [exact Hdel|]. split; [exact Hcid|].
      split; [exact Hl|]. rewrite <- Hst. eapply saved_from; eassumption.
  - left. split; [congruence | eauto].
Qed.

End Unsortable.

Section CaptionLayout.
Context `{Externals}.

Lemma lstrip_solid (c : N) (s : list N) : is_space c = false -> lstrip (c :: s) = c :: s.
Proof. intros Hc. cbn [lstrip]. rewrite Hc. reflexivity. Qed.

Lemma strip_solid (c z : N) (s : list N) :
  is_space c = false -> is_space z = false -> strip (c :: s ++ [z]) = c :: s ++ [z].
Proof.
  intros Hc Hz. unfold strip. rewrite (lstrip_solid c _ Hc).
  change (c :: s ++ [z]) with ((c :: s) ++ [z]). rewrite rev_app_distr.
  cbn [rev app]. rewrite (lstrip_solid z _ Hz).
  change (z :: rev s ++ [c]) with ([z] ++ rev (c :: s)).
  rewrite rev_app_distr, rev_involutive. reflexivity.
Qed.

Lemma join_cons (sep p : list N) (ps : list (list N)) :
  ps <> [] -> join sep (p :: ps) = p ++ sep ++ join sep ps.
Proof. destruct ps; [contradiction | reflexivity]. Qed.

(** Lines that alternate with empty lines, joined by a newline, are the
    lines joined by two newlines. *)
Lemma join_blocks (lines : list (list N)) (u : list N) :
  join [10%N] (flat_map (fun l => [l; []]) lines ++ [u]) = join [10%N; 10%N] (lines ++ [u]).
Proof.
  induction lines as [|l lines IH]; [reflexivity|].
  cbn [flat_map app]. rewrite join_cons by discriminate.
  rewrite join_cons by (destruct lines; discriminate).
  rewrite (join_cons _ l) by (destruct lines; discriminate).
  rewrite IH. reflexivity.
Qed.

Lemma join_last (sep : list N) (lines : list (list N)) (u : list N) (z : N) :
  exists s, join sep (lines ++ [u ++ [z]]) = s ++ [z].
Proof.
  induction lines as [|l lines [s Hs]]; [exists u; reflexivity|].
  exists (l ++ sep ++ s). cbn [app]. rewrite join_cons by (destruct lines; discriminate).
  rewrite Hs, <- !app_assoc. reflexivity.
Qed.

Lemma join_ends (sep : list N) (c : N) (r : list N) (lines : list (list N)) (u : list N) (z : N) :
  exists s, join sep (((c :: r) :: lines) ++ [u ++ [z]]) = c :: s ++ [z].
Proof.
  destruct (join_last sep lines u z) as (s & Hs).
  exists (r ++ sep ++ s). cbn [app]. rewrite join_cons by (destruct lines; discriminate).
  rewrite Hs. cbn [app]. rewrite <- !app_assoc. reflexivity.
Qed.

(** The lines that a field contributes: its line and an empty line when
    its value is truthy, nothing otherwise. *)
Lemma field_lines_shown (prefix k : list N) (d : list (list N * json)) :
  field_lines prefix k d
  = flat_map (fun l => [l; []])
      (if truthy (dict_get k JNull d)
       then [prefix ++ format_value (dict_get k JNull d)] else []).
Proof.
  unfold field_lines, py_or. destruct (truthy (dict_get k JNull d)) eqn:E.
  - rewrite E. reflexivity.
  - reflexivity.
Qed.

(** The text of a caption before the cut: the lines of the fields whose
    value is truthy, in the order of the code, each the text that starts
    the field followed by the value, then the invitation and the link of
    the site, with one empty line between two lines; [strip] removes
    nothing. *)
Theorem caption_text_layout (d : list (list N * json)) :
  caption_text d = join [10%N; 10%N] (caption_lines d).
Proof.
  unfold caption_text, caption_parts, caption_lines, caption_fields, caption_footer.
  rewrite !field_lines_shown. cbn [flat_map fst snd].
  repeat match goal with
         | |- context [if truthy ?v then [(?c :: ?p) ++ ?t] else []] =>
             let L := fresh "L" in
             let HL := fresh "HL" in
             assert (HL : exists L, (if truthy v then [(c :: p) ++ t] else []) = L
                                    /\ (L = [] \/ exists r, L = [c :: r]))
               by (destruct (truthy v); eexists; (split; [reflexivity|]);
                   [right; eexists; reflexivity | left; reflexivity]);
             destruct HL as (L & -> & HL)
         end.
  match goal with
  | |- context [[?foot; []; ?url]] =>
      change [foot; []; url] with (flat_map (fun l => [l; []]) [foot] ++ [url]);
      change [foot; url] with ([foot] ++ [url])
  end.
  rewrite app_nil_r, !app_assoc, <- !flat_map_app, join_blocks.
  change (lit " https://receivecoupons.com/")
    with (lit " https://receivecoupons.com" ++ [47%N]).
  match goal with
  | |- strip (join _ (?ls ++ _)) = _ =>
      assert (Hl : exists c r rest, ls = (c :: r) :: rest /\ is_space c = false)
  end.
  { repeat match goal with
           | Hc : _ = [] \/ (exists r, _ = [_]) |- _ => destruct Hc as [->|[? ->]]
           end; cbn [app]; eexists _, _, _; split; reflexivity. }
  destruct Hl as (c & r & rest & Hls & Hsolid). rewrite Hls.
  destruct (join_ends [10%N; 10%N] c r rest (lit " https://receivecoupons.com") 47)
    as (s & Hs).
  rewrite Hs. apply strip_solid; [exact Hsolid | reflexivity].
Qed.
End CaptionLayout.

Section ExitStatus.
Context `{Externals} (env : environment).

Lemma tame_bind {A B} (m : M A) (k : A -> M B) (w : world) :
  tame (m w) -> (forall a w', tame (k a w')) -> tame (bind m k w).
Proof.
  unfold bind, tame. intros Hm Hk. destruct (m w) as [[a|e] w']; [apply Hk | exact Hm].
Qed.

Lemma tame_lift {A} (r : result A) (w : world) :
  (forall e, r = Raise e -> is_exception e = true) -> tame (lift r w).
Proof. unfold tame, lift. cbn. destruct r as [a|e]; [trivial | auto]. Qed.

Lemma set_of_items_raises (items acc : list json) (e : exn) :
  set_of_items items acc = Raise e -> e = TypeError.
Proof.
  revert acc. induction items as [|x items IH]; intros acc; cbn [set_of_items]; [discriminate|].
  destruct (hashable x); [apply IH | congruence].
Qed.

Lemma py_set_raises (v : json) (e : exn) : py_set v = Raise e -> e = TypeError.
Proof.
  unfold py_set.
  destruct v; cbn [py_iter rbind]; try congruence; apply set_of_items_raises.
Qed.

Lemma coupon_cid_is_exception (c : json) (e : exn) :
  coupon_cid c = Raise e -> is_exception e = true.
Proof.
  destruct c as [| | | | | |d]; try (cbn; intros [= <-]; reflexivity).
  intros Hc. destruct (coupon_cid_raises d e Hc) as [->|[->| ->]]; reflexivity.
Qed.

Lemma record_published_returns (c : json) (p : list json) (s : list (list N * json))
    (w : world) :
  fst (record_published env c p s w) = Ok tt.
Proof.
  destruct (coupon_cid c) as [cid|e] eqn:Hc; [eapply record_published_ok; exact Hc|].
  unfold record_published, try_except, bind, lift. rewrite Hc.
  rewrite (coupon_cid_is_exception c e Hc). reflexivity.
Qed.

Lemma main_tame (w : world) : tame (main env w).
Proof.
  unfold main.
  apply tame_bind.
  { unfold tame, load_state. destruct (files w !! STATE_FILE env) as [text|]; [|exact I].
    cbn [fst]. destruct (json_loads text) as [v|e] eqn:Hl; [exact I|].
    apply json_loads_raises in Hl as ->. auto. }
  intros st w1. apply tame_bind.
  { apply tame_lift. intros e He. apply attr_get_raises in He as ->. reflexivity. }
  intros state0 w2. apply tame_bind.
  { apply tame_lift. intros e He. apply py_set_raises in He as ->. reflexivity. }
  intros p0 w3. apply tame_bind.
  { destruct (fetch_coupons_feed env w3) as (w4 & -> & _). exact I. }
  intros coupons w4. destruct coupons as [|c0 l].
  { unfold tame, bind, print, sys_exit, raise. cbn. auto. }
  apply tame_bind.
  { pose proof (select_coupon_result env (c0 :: l) p0 state0 w4) as Hr. unfold tame.
    destruct (fst (select_coupon env (c0 :: l) p0 state0 w4)) as [[[p s] c]|e]; [exact I|].
    destruct Hr as [->|[->|[->| ->]]]; auto. }
  intros [[p s] c] w5. destruct (negb (truthy c)).
  { unfold tame, bind, print, sys_exit, raise. cbn. auto. }
  destruct (post_and_record env c p s w5) as [r w'] eqn:Hpost.
  destruct (post_and_record_cases env _ _ _ _ _ _ Hpost)
    as [(_ & ->)|(req & caption & w6 & _ & _ & _ & _ & _ & [(_ & Hrec)|(_ & _ & Hexit)])].
  - unfold tame. cbn. auto.
  - pose proof (record_published_returns c p s w6) as Hr. rewrite Hrec in Hr.
    unfold tame. cbn [fst] in *. rewrite Hr. exact I.
  - unfold tame. cbn [fst]. destruct r as [u|e]; [exact I|].
    destruct e; cbn in Hexit; try (right; right; reflexivity). subst. auto.
Qed.

(** The exit status of a run: 0 with nothing posted, written or pushed
    (no coupon, or none valid); 0 with one request posted and confirmed;
    or 1, with the files as they were. *)
Theorem main_exit_status (w : world) :
  (fst (main env w) = Raise (SystemExit 0) /\ same_store w (snd (main env w)))
  \/ (fst (main env w) = Ok tt
      /\ exists req, sent (snd (main env w)) = sent w ++ [req]
           /\ confirmed (telegram env req) = Ok true)
  \/ (exit_code (fst (main env w)) = 1 /\ files (snd (main env w)) = files w).
Proof.
  pose proof (main_tame w) as Ht. unfold tame in Ht.
  destruct (main env w) as [r w'] eqn:Hmain. cbn [fst snd] in *.
  destruct (main_run env w r w' Hmain)
    as [(Hq & (e & ->))
       |(state0 & p0 & w0 & p & s & c & w1 & req & w2 & _ & _ & _ & _ & _
         & _ & Hf2 & Hs2 & _ & [(Hok & Hrec)|(_ & (Hf3 & _) & Hexit)])].
  - destruct Ht as [->|[->|He]].
    + left. split; [reflexivity | exact Hq].
    + right. right. split; [reflexivity | apply Hq].
    + right. right. split; [destruct e; try reflexivity; discriminate He | apply Hq].
  - right. left.
    pose proof (record_published_returns c p s w2) as Hr. rewrite Hrec in Hr. cbn [fst] in Hr.
    split; [exact Hr|]. exists req. split; [|exact Hok].
    pose proof (record_published_sent env c p s w2) as Hrs. rewrite Hrec in Hrs. cbn [snd] in Hrs.
    congruence.
  - right. right. split; [exact Hexit | congruence].
Qed.

(** A state that is no mapping, or whose [published_ids] cannot be made
    a set (a number, a null, a list that holds a list), kills the run before
    the feed is fetched: the exception is not caught, the status is 1 and
    nothing at all has happened. *)
Theorem malformed_state_is_fatal (w : world) (st : json) (e : exn) :
  load_state (STATE_FILE env) w = (Ok st, w) ->
  attr_get st = Raise e
  \/ (exists d, st = JDict d
        /\ py_set (dict_get (lit "published_ids") (JList []) d) = Raise e) ->
  main env w = (Raise e, w) /\ exit_code (Raise e) = 1.
Proof.
  intros Hload [Hst|(d & -> & Hset)].
  - split.
    + unfold main, bind at 1. rewrite Hload. unfold bind at 1, lift at 1. rewrite Hst.
      reflexivity.
    + apply attr_get_raises in Hst as ->. reflexivity.
  - split.
    + unfold main, bind at 1. rewrite Hload. unfold bind at 1, lift at 1. cbn [attr_get].
      unfold bind at 1, lift at 1. rewrite Hset. reflexivity.
    + apply py_set_raises in Hset as ->. reflexivity.
Qed.

Lemma sorted_by_key_uniform (valid : list json) (w : world) :
  (forall a b, In a valid -> In b valid -> key_aware a = key_aware b) ->
  exists vs w', sorted_by_key env valid w = (Ok vs, w').
Proof.
  intros Hu. destruct (mapM_sort_key env valid w) as (ks & w1 & Hks & Hall).
  destruct (sort_decorated_ascending (combine ks valid)) as (r & Hr & _).
  { intros [ka a] [kb b] Ha Hb. cbn [fst].
    destruct (combine_keys_inv _ _ _ _ Hall Ha) as [Hina ->].
    destruct (combine_keys_inv _ _ _ _ Hall Hb) as [Hinb ->].
    apply Hu; assumption. }
  unfold sorted_by_key, bind, lift, ret. rewrite Hks, Hr. eauto.
Qed.

(** A run posts and records a coupon whenever it can: from a state file
    that is absent or well formed, with a feed that holds a coupon
    eligible at every reading of the clock, whose sort keys are all naive
    or all aware, whose identifiers [int] accepts and whose stores are
    mappings or absent, and with a gateway that confirms, the run posts one
    request, rewrites the state file and returns with status 0. *)
Theorem main_posts_when_possible (w : world) :
  state_file_ok env w ->
  (exists c, In c (feed env) /\ forall i, eligible_at (clock env i) c) ->
  (forall a b, In a (feed env) -> In b (feed env) -> key_aware a = key_aware b) ->
  (forall d, In (JDict d) (feed env) ->
     (exists cid, coupon_cid (JDict d) = Ok cid)
     /\ exists store, attr_get (dict_get (lit "store") (JDict []) d) = Ok store) ->
  (forall req, confirmed (telegram env req) = Ok true) ->
  exists w' req state',
    main env w = (Ok tt, w')
    /\ sent w' = sent w ++ [req]
    /\ files w' = <[STATE_FILE env := json_dumps (JDict state')]> (files w).
Proof.
  intros Hok (c0 & Hc0 & He0) Hkeys Hfeed Hconf.
  destruct (state_file_ok_loads env w Hok) as (state0 & ids0 & Hload & Hplain & Henc & Hids).
  destruct (py_set_int ids0) as (u & Hu & Hndu & _).
  destruct (fetch_coupons_feed env w) as (w0 & Hfetch & _ & (Hf0 & Hs0 & _)).
  destruct (filterM_valid env (feed env) w0) as (valid & wa & Hf & _ & Hin & Hall).
  pose proof (Hall c0 Hc0 He0) as Hv0.
  assert (Hsub : forall x, In x valid -> In x (feed env) /\ exists d, x = JDict d).
  { intros x Hx. destruct (Hin x Hx) as (Hxf & i & _ & (d & -> & _)). eauto. }
  destruct (select_coupon_run env (feed env) (map JInt u) state0 w0)
    as (valid' & wa' & Hf' & Hcases).
  rewrite Hf in Hf'. injection Hf' as <- <-.
  assert (Hsel : exists p s c w1,
             select_coupon env (feed env) (map JInt u) state0 w0 = (Ok (p, s, c), w1)
             /\ In c valid).
  { destruct Hcases as [(-> & _)|(_ & wb & [(Hs & _)|(vs & Hs & Hp & Hn)])];
      [destruct Hv0| |].
    - destruct (sorted_by_key_uniform valid wa) as (vs & w1 & Hs').
      { intros a b Ha Hb. apply Hkeys; [apply (Hsub a Ha) | apply (Hsub b Hb)]. }
      congruence.
    - destruct Hn as [(e & Hn & _)|[(c & Hn & Hx)|(c & vs' & w1 & _ & -> & Hx)]].
      + apply next_unposted_raises in Hn as (pre & c & post & -> & _ & Hc).
        assert (Hcv : In c valid) by (apply (Permutation_in _ Hp), in_elt).
        destruct (Hsub c Hcv) as (Hcf & d & ->).
        destruct (Hfeed d Hcf) as ((cid & Hcid) & _). congruence.
      + eexists _, _, c, _. split; [exact Hx|]. apply (Permutation_in _ Hp).
        apply next_unposted_some in Hn as [Hn _]. exact Hn.
      + eexists _, _, c, _. split; [exact Hx|]. apply (Permutation_in _ Hp). left. reflexivity. }
  destruct Hsel as (p & s & c & w1 & Hsel & Hcv).
  destruct (Hsub c Hcv) as (Hcf & d & ->).
  destruct (Hfeed d Hcf) as ((cid & Hcid) & (store & Hstore)).
  destruct (Hin _ Hcv) as (_ & i & _ & He).
  pose proof (eligible_truthy _ _ He) as Htr.
  pose proof (quiet_select_coupon env (feed env) (map JInt u) state0 w0) as Hq1.
  rewrite Hsel in Hq1. destruct Hq1 as (Hf1 & Hs1 & _). cbn [snd] in Hf1, Hs1.
  destruct (deliver_cases env (JDict d) w1)
    as [(e & Hd & _)|(req & caption & w2 & _ & _ & Hd & Hf2 & Hs2 & _)].
  { unfold deliver, bind, lift in Hd. cbn [attr_get] in Hd. rewrite Hstore in Hd.
    unfold make_caption in Hd. cbn [attr_get rbind] in Hd.
    destruct (truthy _) in Hd; unfold post_to_telegram_photo, post in Hd;
      destruct (telegram env _) in Hd; discriminate Hd. }
  assert (Hpr : exists prior, p = map JInt prior /\ NoDup prior).
  { destruct (select_coupon_cases env _ _ _ _ _ _ _ _ Hsel) as (_ & _ & [(-> & _)|(-> & _)]);
      [exists u | exists []]; split; (reflexivity || assumption || constructor). }
  destruct Hpr as (prior & -> & Hnd).
  destruct (set_add_int cid prior Hnd) as (u' & Hadd & Hnd' & _).
  destruct (py_sorted_int u' Hnd') as (l & Hl & _). rewrite <- Hadd in Hl.
  destruct (selected_state_ok env _ _ _ _ _ _ _ _ Hsel Hplain Henc) as (_ & Hencs).
  pose proof (encodable_recorded_state l (clock env (ticks w2)) s Hencs) as Hencr.
  destruct (record_published_cases env (JDict d) (map JInt prior) s w2 cid Hcid)
    as [(ids & text & w' & _ & -> & _ & Hrun & Hfw & Hsw & _)
       |[(ids & w' & Hsort & Hbad & _)|(w' & Hsort & _)]]; [| |congruence].
  2:{ rewrite Hl in Hsort. injection Hsort as <-. congruence. }
  exists w', req. eexists. split; [|split].
  - unfold main, bind at 1. rewrite Hload. unfold bind at 1, lift at 1. cbn [attr_get].
    unfold bind at 1, lift at 1. unfold dict_get. rewrite Hids, Hu.
    unfold bind at 1. rewrite Hfetch.
    destruct (feed env) as [|x l'] eqn:Hfd; [destruct Hc0|].
    unfold bind at 1. rewrite Hsel. rewrite Htr. cbn [negb].
    unfold post_and_record, bind at 1. rewrite Hd.
    unfold bind at 1, lift at 1. rewrite Hconf. exact Hrun.
  - congruence.
  - rewrite Hfw, Hf2, Hf1, Hf0. reflexivity.
Qed.

End ExitStatus.

(** ** What a confirmed post records *)

Section Recording.
Context `{Externals} (env : environment).

(** C2, as the code has it: when the sorted eligible coupons are not
    empty and the identifier of each is in the published set, the
    selection empties the set and the list in the state held in memory and
    selects the first sorted coupon, and no file is touched by that. What
    happens to the file is decided by the gateway. When the store of the
    coupon is no mapping, nothing is posted and the file is as it was.
    Otherwise the coupon is posted. If the gateway does not confirm the
    post, the file is as it was, with the old identifiers, and the status
    is 1. If it confirms, the state is saved with the identifier of that
    coupon as its only published one; the file then holds the text of that
    state, or, when UTF-8 cannot encode the text, the pieces written
    before the failure. *)
Theorem cycle_reset_in_memory
    (w : world) (state0 : list (list N * json)) (p0 coupons : list json) (w0 : world)
    (valid : list json) (wa : world) (c : json) (vs : list json) (wb : world) :
  load_state (STATE_FILE env) w = (Ok (JDict state0), w) ->
  py_set (dict_get (lit "published_ids") (JList []) state0) = Ok p0 ->
  fetch_coupons env w = (Ok coupons, w0) ->
  filterM (is_valid_coupon env) coupons w0 = (Ok valid, wa) ->
  sorted_by_key env valid wa = (Ok (c :: vs), wb) ->
  (forall x, In x (c :: vs) ->
     exists cid, coupon_cid x = Ok cid /\ set_mem (JInt cid) p0 = true) ->
  exists w1 cid,
    select_coupon env coupons p0 state0 w0
    = (Ok ([], dict_set (lit "published_ids") (JList []) state0, c), w1)
    /\ coupon_cid c = Ok cid
    /\ files w1 = files w
    /\ forall r w', main env w = (r, w') ->
         (r = Raise AttributeError /\ sent w' = sent w /\ files w' = files w)
         \/ exists req w2,
              deliver env c w1 = (Ok (telegram env req), w2)
              /\ sent w' = sent w ++ [req]
              /\ ((confirmed (telegram env req) <> Ok true
                   /\ files w' = files w /\ exit_code r = 1)
                  \/ (confirmed (telegram env req) = Ok true
                      /\ r = Ok tt
                      /\ exists i state',
                           recorded_state [JInt cid] (clock env i)
                             (dict_set (lit "published_ids") (JList []) state0)
                           = JDict state'
                           /\ dict_lookup (lit "published_ids") state' = Some (JList [JInt cid])
                           /\ saved env (JDict state') w w')).
Proof.
  intros Hload Hset Hfetch Hfilter Hsort Hall.
  destruct (select_coupon_reset env coupons p0 state0 w0 valid wa c vs wb Hfilter Hsort Hall)
    as (w1 & Hsel).
  destruct (Hall c (or_introl eq_refl)) as (cid & Hcid & _).
  exists w1, cid. split; [exact Hsel|]. split; [exact Hcid|].
  pose proof (quiet_fetch_coupons env w) as Hq0. rewrite Hfetch in Hq0. cbn [snd] in Hq0.
  pose proof (quiet_select_coupon env coupons p0 state0 w0) as Hq1.
  rewrite Hsel in Hq1. cbn [snd] in Hq1.
  destruct (same_store_trans _ _ _ Hq0 Hq1) as (Hf1 & Hs1 & _).
  split; [exact Hf1|].
  intros r w' Hmain.
  rewrite (main_to_post env w state0 p0 coupons w0 _ _ c w1 Hload Hset Hfetch Hsel) in Hmain.
  unfold post_and_record, bind at 1 in Hmain.
  destruct (deliver_cases env c w1)
    as [(e & Hd & ->)|(req & caption & w2 & _ & _ & Hd & Hf2 & Hs2 & _)];
    rewrite Hd in Hmain.
  { injection Hmain as <- <-. left. auto. }
  right. exists req, w2. split; [exact Hd|].
  unfold bind at 1, lift at 1 in Hmain.
  destruct (confirmed (telegram env req)) as [[|]|e] eqn:Hc.
  - destruct (record_published_saved env c [] (dict_set (lit "published_ids") (JList []) state0)
                w2 cid Hcid) as (Hr & Hs & Hcase).
    rewrite Hmain in Hr, Hs, Hcase. cbn [fst snd] in Hr, Hs, Hcase.
    split; [congruence|]. right. split; [reflexivity|]. split; [exact Hr|].
    destruct Hcase as [(ids & Hsorted & Hsaved)|(Hbad & _)]; [|discriminate Hbad].
    injection Hsorted as <-.
    destruct (recorded_state_ids [JInt cid] (clock env (ticks w2))
                (dict_set (lit "published_ids") (JList []) state0)) as (state' & Hst & Hids).
    exists (ticks w2), state'. split; [exact Hst|]. split; [exact Hids|]. rewrite <- Hst.
    apply (saved_from env _ w w2 w'); [congruence | exact Hsaved].
  - unfold bind, print, sys_exit, raise in Hmain. injection Hmain as <- <-.
    split; [cbn; congruence|]. left. split; [discriminate|]. split; [cbn; congruence|reflexivity].
  - injection Hmain as <- <-. apply confirmed_raises in Hc as ->.
    split; [congruence|]. left. split; [discriminate|]. split; [congruence | reflexivity].
Qed.


End Recording.

(** ** Runs one after the other *)

(** The text of a value, the value of a text and what is posted for a
    coupon do not depend on the date parser. *)
Section Parsers.
Context `{Externals} (parse : list N -> option datetime).



Lemma scan_once_parser (n : nat) :
  (forall s, @scan_once (with_parser parse) n s = scan_once n s)
  /\ (forall s acc, @scan_items (with_parser parse) n s acc = scan_items n s acc)
  /\ (forall s acc, @scan_members (with_parser parse) n s acc = scan_members n s acc).
Proof.
  induction n as [|n (IH1 & IH2 & IH3)]; [repeat split; reflexivity|].
  repeat split; intros s; [|intros acc|intros acc];
    [cbn [scan_once] | cbn [scan_items] | cbn [scan_members]];
    repeat (rewrite ?IH1, ?IH2, ?IH3;
            first [ reflexivity
                  | match goal with
                    | |- (match ?x with _ => _ end) = _ => destruct x
                    end ]).
Qed.

Lemma json_loads_parser (text : list N) : @json_loads (with_parser parse) text = json_loads text.
Proof. unfold json_loads. rewrite (proj1 (scan_once_parser _)). reflexivity. Qed.

Lemma load_state_parser (path : list N) (w : world) :
  @load_state (with_parser parse) path w = load_state path w.
Proof. unfold load_state. destruct (files w !! path); [rewrite json_loads_parser|]; reflexivity. Qed.

Lemma deliver_parser (env : environment) (c : json) :
  @deliver (with_parser parse) env c = deliver env c.
Proof. reflexivity. Qed.

End Parsers.

Section Rounds.
Context `{Externals} (env : environment).

Lemma filterM_all (l : list json) (w : world) :
  (forall c i, In c l -> eligible_at (clock env i) c) ->
  exists w', filterM (is_valid_coupon env) l w = (Ok l, w').
Proof.
  revert w. induction l as [|x l IH]; intros w Hall; [exists w; reflexivity|].
  destruct (is_valid_coupon_run env x w) as (b & w1 & Hx & _ & Hb).
  assert (b = true) as -> by (apply Hb, Hall; left; reflexivity).
  destruct (IH w1) as (w2 & Hl); [intros c i Hc; apply Hall; right; exact Hc|].
  exists w2. cbn [filterM]. unfold bind. rewrite Hx, Hl. reflexivity.
Qed.






Section Cycle.
Variables (vs : list json) (ids : list Z).
Hypothesis some_coupon : feed env <> [].
Hypothesis always_eligible : forall c i, In c (feed env) -> eligible_at (clock env i) c.
Hypothesis sorted_as : forall w, sorted_by_key env (feed env) w = (Ok vs, w).
Hypothesis identified : Forall2 (fun c id => coupon_cid c = Ok id) vs ids.
Hypothesis distinct : NoDup ids.
Hypothesis stores : forall d, In (JDict d) (feed env) ->
  exists store, attr_get (dict_get (lit "store") (JDict []) d) = Ok store.
Hypothesis confirms : forall req, confirmed (telegram env req) = Ok true.



End Cycle.

Lemma sort_key_static (d : list (list N * json)) (dt : datetime) (w : world) :
  date_parse (py_or (dict_get (lit "created_at") JNull d)
                (py_or (dict_get (lit "expires_at") JNull d) (JStr (lit "1970-01-01"))))
  = Ok dt ->
  sort_key env (JDict d) w = (Ok dt, w).
Proof.
  intros Hp. unfold sort_key, try_bare, bind, lift. cbn [attr_get]. rewrite Hp. reflexivity.
Qed.

(** When the dates of the coupons parse, the sort does not read the
    clock, and its result is that of sorting by the dates. *)
Lemma sorted_by_key_keys (l : list json) (ks : list datetime) :
  Forall2 (fun c dt =>
             exists d, c = JDict d
               /\ date_parse (py_or (dict_get (lit "created_at") JNull d)
                                (py_or (dict_get (lit "expires_at") JNull d)
                                   (JStr (lit "1970-01-01")))) = Ok dt) l ks ->
  forall w, sorted_by_key env l w
            = (rbind (sort_decorated datetime_lt (combine ks l)) (fun r => Ok (map snd r)), w).
Proof.
  intros Hall.
  assert (Hk : forall w, mapM (sort_key env) l w = (Ok ks, w)).
  { induction Hall as [|c dt l ks (d & -> & Hp) _ IH]; intros w; [reflexivity|].
    cbn [mapM]. unfold bind. rewrite (sort_key_static d dt w Hp), IH. reflexivity. }
  intros w. unfold sorted_by_key, bind, lift, ret. rewrite Hk.
  destruct (sort_decorated datetime_lt (combine ks l)); reflexivity.
Qed.


End Rounds.

Lemma Forall2_choice {A B} (P : A -> B -> Prop) (l : list A) :
  (forall a, In a l -> exists b, P a b) -> exists bs, Forall2 P l bs.
Proof.
  induction l as [|a l IH]; intros Hall; [exists []; constructor|].
  destruct (Hall a (or_introl eq_refl)) as (b & Hb).
  destruct IH as (bs & Hbs); [intros x Hx; apply Hall; right; exact Hx|].
  exists (b :: bs). constructor; assumption.
Qed.

Section Turns.
Context `{Externals}.
Variables (parsers : nat -> list N -> option datetime) (envs : nat -> environment).
Variables (w : world) (path : list N) (coupons vs : list json) (ids : list Z).
Hypothesis no_file : files w !! path = None.
Hypothesis same_feed : forall k, feed (envs k) = coupons.
Hypothesis same_path : forall k, STATE_FILE (envs k) = path.
Hypothesis some_coupon : coupons <> [].
Hypothesis always_eligible :
  forall k c i, In c coupons -> @eligible_at (with_parser (parsers k)) (clock (envs k) i) c.
Hypothesis sorted_as :
  forall k w0, @sorted_by_key (with_parser (parsers k)) (envs k) coupons w0 = (Ok vs, w0).
Hypothesis identified : Forall2 (fun c id => coupon_cid c = Ok id) vs ids.
Hypothesis distinct : NoDup ids.
Hypothesis stores : forall d, In (JDict d) coupons ->
  exists store, attr_get (dict_get (lit "store") (JDict []) d) = Ok store.
Hypothesis confirms : forall k req, confirmed (telegram (envs k) req) = Ok true.



End Turns.


Section Retry.
Context `{Externals} (env : environment).

(** The request that [deliver] posts for a coupon is the same in every
    environment and world; the answer is that of the gateway of the
    run. *)
Lemma deliver_again (env2 : environment) (c : json) (wa wa' wb : world) (resp : option json)
    (req : request) :
  deliver env c wa = (Ok resp, wa') ->
  sent wa' = sent wa ++ [req] ->
  exists wb',
    deliver env2 c wb = (Ok (telegram env2 req), wb')
    /\ sent wb' = sent wb ++ [req] /\ files wb' = files wb.
Proof.
  unfold deliver, bind, lift.
  destruct (attr_get c) as [d|e]; [|discriminate].
  destruct (attr_get (dict_get (lit "store") (JDict []) d)) as [store|e]; [|discriminate].
  destruct (make_caption c) as [caption|e]; [|discriminate].
  destruct (truthy _); unfold post_to_telegram_photo, post;
    destruct (telegram env _); cbn; intros [= _ <-]; cbn; intros Hs;
    apply app_inv_head in Hs; injection Hs as <-;
    destruct (telegram env2 _); eexists; (split; [reflexivity|]); split; reflexivity.
Qed.

Lemma load_state_files (path : list N) (wa wb : world) :
  files wa = files wb -> fst (load_state path wa) = fst (load_state path wb).
Proof. intros Hf. unfold load_state. rewrite Hf. destruct (files wb !! path); reflexivity. Qed.

End Retry.

(** With coupons that are always eligible and whose dates two runs read
    alike, the two runs select the same coupon. *)
Lemma select_coupon_again `{Externals} (env env2 : environment)
    (parse2 : list N -> option datetime) (p0 : list json) (s0 : list (list N * json))
    (wa wb : world) :
  feed env2 = feed env ->
  (forall c i, In c (feed env) ->
     eligible_at (clock env i) c /\ @eligible_at (with_parser parse2) (clock env2 i) c) ->
  (forall d, In (JDict d) (feed env) ->
     exists dt,
       date_parse (py_or (dict_get (lit "created_at") JNull d)
                     (py_or (dict_get (lit "expires_at") JNull d) (JStr (lit "1970-01-01"))))
       = Ok dt
       /\ @date_parse (with_parser parse2)
            (py_or (dict_get (lit "created_at") JNull d)
               (py_or (dict_get (lit "expires_at") JNull d) (JStr (lit "1970-01-01"))))
          = Ok dt) ->
  fst (select_coupon env (feed env) p0 s0 wa)
  = fst (@select_coupon (with_parser parse2) env2 (feed env2) p0 s0 wb).
Proof.
  intros Hfeed Hel Hparse. rewrite Hfeed.
  destruct (Forall2_choice
              (fun c dt =>
                 exists d, c = JDict d
                   /\ date_parse (py_or (dict_get (lit "created_at") JNull d)
                                    (py_or (dict_get (lit "expires_at") JNull d)
                                       (JStr (lit "1970-01-01")))) = Ok dt
                   /\ @date_parse (with_parser parse2)
                        (py_or (dict_get (lit "created_at") JNull d)
                           (py_or (dict_get (lit "expires_at") JNull d)
                              (JStr (lit "1970-01-01")))) = Ok dt) (feed env))
    as (ks & Hks).
  { intros c Hc. destruct (Hel c 0%nat Hc) as ((d & -> & _) & _).
    destruct (Hparse d Hc) as (dt & H1 & H2). exists dt, d. auto. }
  assert (Hs1 : forall w0, sorted_by_key env (feed env) w0
                  = (rbind (sort_decorated datetime_lt (combine ks (feed env)))
                       (fun r => Ok (map snd r)), w0)).
  { apply sorted_by_key_keys.
    clear -Hks. induction Hks as [|c dt l ks' (d & -> & Hdt & _) _ IH]; constructor; eauto. }
  assert (Hs2 : forall w0, @sorted_by_key (with_parser parse2) env2 (feed env) w0
                  = (rbind (sort_decorated datetime_lt (combine ks (feed env)))
                       (fun r => Ok (map snd r)), w0)).
  { apply (@sorted_by_key_keys (with_parser parse2) env2).
    clear -Hks. induction Hks as [|c dt l ks' (d & -> & _ & Hdt) _ IH]; constructor; eauto. }
  destruct (filterM_all env (feed env) wa) as (wa' & Hfa); [intros c i Hc; apply (Hel c i Hc)|].
  destruct (@filterM_all (with_parser parse2) env2 (feed env) wb) as (wb' & Hfb);
    [intros c i Hc; apply (Hel c i Hc)|].
  unfold select_coupon, bind, lift. rewrite Hfa, Hfb.
  destruct (feed env) as [|c0 l]; [reflexivity|].
  rewrite Hs1, Hs2.
  destruct (rbind _ _) as [vs|e]; [|reflexivity].
  change (@next_unposted (with_parser parse2) p0 vs) with (next_unposted p0 vs).
  destruct (next_unposted p0 vs) as [[c|]|e]; [reflexivity| |reflexivity].
  destruct vs; reflexivity.
Qed.

(** A coupon whose delivery was not confirmed is posted again by the next
    run. The next run has its own environment, with the same feed and
    state file, and its own date parser. With coupons that are eligible at
    every reading of the clock of both runs and whose dates both runs read
    alike, the run that follows an unconfirmed delivery posts the same
    request; when its gateway confirms, it returns normally, and when it
    does not, the run fails again and the files are still as they
    were. *)
Theorem failed_delivery_is_retried `{Externals} (env env2 : environment)
    (parse2 : list N -> option datetime) (w : world) (r : result unit) (w' : world)
    (req : request) :
  feed env2 = feed env ->
  STATE_FILE env2 = STATE_FILE env ->
  (forall c i, In c (feed env) ->
     eligible_at (clock env i) c /\ @eligible_at (with_parser parse2) (clock env2 i) c) ->
  (forall d, In (JDict d) (feed env) ->
     exists dt,
       date_parse (py_or (dict_get (lit "created_at") JNull d)
                     (py_or (dict_get (lit "expires_at") JNull d) (JStr (lit "1970-01-01"))))
       = Ok dt
       /\ @date_parse (with_parser parse2)
            (py_or (dict_get (lit "created_at") JNull d)
               (py_or (dict_get (lit "expires_at") JNull d) (JStr (lit "1970-01-01"))))
          = Ok dt) ->
  main env w = (r, w') ->
  sent w' = sent w ++ [req] ->
  confirmed (telegram env req) <> Ok true ->
  exists r' w'',
    @main (with_parser parse2) env2 w' = (r', w'')
    /\ sent w'' = sent w' ++ [req]
    /\ (confirmed (telegram env2 req) = Ok true -> r' = Ok tt)
    /\ (confirmed (telegram env2 req) <> Ok true -> files w'' = files w /\ exit_code r' = 1).
Proof.
  intros Hfeed Hpath Hel Hparse Hmain Hsent Hno.
  destruct (main_run_deliver env w r w' req Hmain Hsent)
    as (state0 & p0 & w0 & p & s & c & cid & w1 & w2 & Hload & Hset & Hfetch & Hsel & Hcid
        & Hdel & _ & Hf2 & Hs2 & [(Hyes & _)|(_ & (Hf3 & Hs3 & _) & _)]); [contradiction|].
  pose proof (quiet_fetch_coupons env w) as Hq0. rewrite Hfetch in Hq0.
  pose proof (quiet_select_coupon env (feed env) p0 state0 w0) as Hq1. rewrite Hsel in Hq1.
  destruct (same_store_trans _ _ _ Hq0 Hq1) as (_ & Hs1 & _). cbn [snd] in Hs1.
  assert (Hfw : files w' = files w) by congruence.
  (* the next run *)
  assert (Hload' : @load_state (with_parser parse2) (STATE_FILE env2) w'
                   = (Ok (JDict state0), w')).
  { rewrite load_state_parser, Hpath.
    pose proof (load_state_files (STATE_FILE env) w' w Hfw) as Hl.
    pose proof (load_state_world (STATE_FILE env) w') as Hw.
    rewrite Hload in Hl. cbn [fst] in Hl.
    destruct (load_state (STATE_FILE env) w') as [x y]. cbn in *. congruence. }
  destruct (fetch_coupons_feed env2 w') as (w0' & Hfetch' & _ & (Hf0' & Hs0' & _)).
  pose proof (select_coupon_again env env2 parse2 p0 state0 w0 w0' Hfeed Hel Hparse) as Hst.
  rewrite Hsel in Hst. cbn [fst] in Hst.
  destruct (@select_coupon (with_parser parse2) env2 (feed env2) p0 state0 w0')
    as [x w1'] eqn:Hsel'.
  cbn [fst] in Hst. subst x.
  pose proof (@quiet_select_coupon (with_parser parse2) env2 (feed env2) p0 state0 w0') as Hq.
  rewrite Hsel' in Hq. destruct Hq as (Hf1' & Hs1' & _). cbn [snd] in Hf1', Hs1'.
  rewrite (@main_to_post (with_parser parse2) env2 w' state0 p0 (feed env2) w0' p s c w1'
             Hload' Hset Hfetch' Hsel').
  assert (Hs21 : sent w2 = sent w1 ++ [req]) by congruence.
  destruct (deliver_again env env2 c w1 w2 w1' _ req Hdel Hs21) as (w2' & Hd' & Hs2' & Hf2').
  unfold post_and_record, bind at 1. rewrite deliver_parser, Hd'. unfold bind at 1, lift at 1.
  destruct (confirmed (telegram env2 req)) as [[|]|e] eqn:Hc.
  - pose proof (@record_published_returns (with_parser parse2) env2 c p s w2') as Hr.
    pose proof (@record_published_sent (with_parser parse2) env2 c p s w2') as Hrs.
    destruct (@record_published (with_parser parse2) env2 c p s w2') as [r' w''].
    cbn [fst snd] in Hr, Hrs. exists r', w''. split; [reflexivity|].
    split; [congruence|]. split; [intros _; exact Hr | intros Hx; contradiction].
  - unfold bind, print, sys_exit, raise. cbn. eexists _, _. split; [reflexivity|]. cbn.
    split; [congruence|]. split; [discriminate|]. intros _. split; [congruence | reflexivity].
  - apply confirmed_raises in Hc as ->. eexists _, _. split; [reflexivity|].
    split; [congruence|]. split; [discriminate|]. intros _. split; [congruence | reflexivity].
Qed.

Section Process.
Context `{Externals} (env : environment).

Lemma main_status (w : world) :
  exit_code (fst (main env w)) = 0 \/ exit_code (fst (main env w)) = 1.
Proof.
  pose proof (main_tame env w) as Ht. unfold tame in Ht.
  destruct (fst (main env w)) as [u|e]; [left; reflexivity|].
  destruct Ht as [->|[->|He]]; [left; reflexivity | right; reflexivity|].
  right. destruct e; try reflexivity. discriminate He.
Qed.

(** The exit status 2 is that of a missing configuration and of nothing
    else: the process ends with status 2 exactly when the token or the chat
    identifier is unset or empty, and then [main] has not run; otherwise
    the status is that of [main], which is 0 or 1. *)
Theorem status_two_iff_unconfigured (cfg : config) (w : world) :
  (unset (TELEGRAM_BOT_TOKEN cfg) || unset (TELEGRAM_CHAT_ID cfg) = true
   /\ script cfg env w = ConfigurationError
   /\ status (script cfg env w) = 2)
  \/ (unset (TELEGRAM_BOT_TOKEN cfg) || unset (TELEGRAM_CHAT_ID cfg) = false
      /\ script cfg env w = Ran (fst (main env w)) (snd (main env w))
      /\ (status (script cfg env w) = 0 \/ status (script cfg env w) = 1)).
Proof.
  unfold script.
  destruct (unset (TELEGRAM_BOT_TOKEN cfg) || unset (TELEGRAM_CHAT_ID cfg)).
  - left. repeat split.
  - right. split; [reflexivity|].
    destruct (main env w) as [r w'] eqn:Hmain. cbn [fst snd status].
    split; [reflexivity|]. pose proof (main_status w) as Hs. rewrite Hmain in Hs. exact Hs.
Qed.

End Process.

Lemma eligible_at_earlier `{Externals} (parse2 : list N -> option datetime) (now1 now2 : Z)
    (c : json) :
  now1 <= now2 ->
  (forall d s, c = JDict d -> dict_get (lit "expires_at") JNull d = JStr s ->
     parse2 s = dateutil_parse s) ->
  @eligible_at (with_parser parse2) now2 c -> eligible_at now1 c.
Proof.
  intros Hle Hsame (d & -> & Hv & [Hf|(dt & Hdt & Hlt)]); exists d; (split; [reflexivity|]);
    (split; [exact Hv|]); [left; exact Hf|].
  right. exists dt. split; [|lia].
  unfold date_parse in Hdt |- *.
  destruct (dict_get (lit "expires_at") JNull d) as [| | | |s| |] eqn:He; try discriminate Hdt.
  cbn [dateutil_parse with_parser] in Hdt. rewrite (Hsame d s eq_refl He) in Hdt. exact Hdt.
Qed.

(** Validity is lost with time and never regained: a coupon that
    [is_valid_coupon] accepts in a run is accepted by every run whose
    reading of the clock is not later, when the two runs read its expiry
    alike (the text names a full date, not one that [dateutil] completes
    from the current day). *)
Theorem validity_is_never_regained `{Externals} (env1 env2 : environment)
    (parse2 : list N -> option datetime) (c : json) (w1 w2 : world) :
  clock env1 (ticks w1) <= clock env2 (ticks w2) ->
  (forall d s, c = JDict d -> dict_get (lit "expires_at") JNull d = JStr s ->
     parse2 s = dateutil_parse s) ->
  fst (@is_valid_coupon (with_parser parse2) env2 c w2) = Ok true ->
  fst (is_valid_coupon env1 c w1) = Ok true.
Proof.
  intros Hle Hsame Hv2.
  destruct (is_valid_coupon_run env1 c w1) as (b1 & w1' & Hr1 & _ & Hb1).
  destruct (@is_valid_coupon_run (with_parser parse2) env2 c w2) as (b2 & w2' & Hr2 & _ & Hb2).
  rewrite Hr2 in Hv2. cbn [fst] in Hv2. injection Hv2 as ->.
  rewrite Hr1. cbn [fst]. f_equal. apply Hb1.
  eapply eligible_at_earlier; [exact Hle | exact Hsame|]. apply Hb2. reflexivity.
Qed.

(** ** Concrete runs: witnesses and counterexamples *)

Section Examples.
#[local] Existing Instance reference_externals.

Lemma pair_eta {A B} (p : A * B) : p = (fst p, snd p).
Proof. destruct p; reflexivity. Qed.

(** C7: the claim fails on the code. With an eligible coupon whose
    creation date parses to a naive datetime and one whose creation date is
    malformed, the key of the second is the aware current instant, the
    comparison of the two keys is a [TypeError], and [sorted] raises it:
    [main] dies with status 1 and posts nothing. *)
Theorem sort_raises_on_malformed_date :
  fst (sorted_by_key (example_env malformed_second true at_2025) malformed_second
         (example_world None)) = Raise TypeError
  /\ fst (main (example_env malformed_second true at_2025) (example_world None)) = Raise TypeError
  /\ sent (snd (main (example_env malformed_second true at_2025) (example_world None))) = []
  /\ exit_code (fst (main (example_env malformed_second true at_2025) (example_world None))) = 1.
Proof. vm_compute. repeat split. Qed.

(** C2 as stated fails: with every eligible coupon already published and
    a gateway that answers [{"ok": false}], the selection resets the set in
    memory, the run exits with status 1, and the state file still lists the
    identifiers 1 and 2. *)
Lemma reset_not_persisted_when_delivery_fails :
  fst (select_coupon (example_env two_coupons false at_2025) two_coupons [JInt 1; JInt 2]
         [(lit "published_ids", JList [JInt 1; JInt 2]); (lit "last_run", JNull)]
         (example_world (Some (example_state [1; 2]))))
  = Ok ([], [(lit "published_ids", JList []); (lit "last_run", JNull)], example_coupon 1 "2024-01-01" None)
  /\ fst (main (example_env two_coupons false at_2025) (example_world (Some (example_state [1; 2]))))
     = Raise (SystemExit 1)
  /\ fst (load_state (lit "state.json")
            (snd (main (example_env two_coupons false at_2025)
                    (example_world (Some (example_state [1; 2]))))))
     = Ok (example_state [1; 2]).
Proof. vm_compute. repeat split. Qed.

(** C5 on a run whose gateway answers with [ok] false: the second coupon
    is posted, since the first is published, and nothing is recorded. *)
Lemma unconfirmed_delivery_witness :
  files (snd (main (example_env two_coupons false at_2025) (example_world (Some (example_state [1])))))
  = files (example_world (Some (example_state [1])))
  /\ exit_code (fst (main (example_env two_coupons false at_2025) (example_world (Some (example_state [1]))))) = 1.
Proof.
  apply (unconfirmed_delivery_keeps_state (example_env two_coupons false at_2025)
           (example_world (Some (example_state [1]))) _ _
           (message_for (example_coupon 2 "2024-01-02" None))).
  - apply pair_eta.
  - vm_compute. reflexivity.
  - vm_compute. discriminate.
Defined.

(** C4 on a state with three identifiers and a last run. *)
Lemma load_state_save_state_witness :
  load_state (lit "state.json")
    (snd (save_state (lit "state.json")
            (JDict [(lit "published_ids", JList (map JInt [1; 2; 5]));
                    (lit "last_run", JStr (lit "2024-05-01T10:00:00+00:00"))])
            (example_world None)))
  = (Ok (JDict [(lit "published_ids", JList (map JInt [1; 2; 5]));
                (lit "last_run", JStr (lit "2024-05-01T10:00:00+00:00"))]),
     snd (save_state (lit "state.json")
            (JDict [(lit "published_ids", JList (map JInt [1; 2; 5]));
                    (lit "last_run", JStr (lit "2024-05-01T10:00:00+00:00"))])
            (example_world None))).
Proof.
  apply load_state_save_state. exists [1; 2; 5], (JStr (lit "2024-05-01T10:00:00+00:00")).
  split; [right; eexists; split; reflexivity | left; reflexivity].
Defined.

(** C9 on a world without a state file and on one whose file is the text
    [{oops]. *)
Lemma load_state_fresh_or_fatal_witness :
  load_state (lit "state.json") (example_world None)
  = (Ok (JDict [(lit "published_ids", JList []); (lit "last_run", JNull)]), example_world None)
  /\ load_state (lit "state.json") corrupt_world = (Raise JSONDecodeError, corrupt_world)
  /\ main (example_env two_coupons true at_2025) corrupt_world = (Raise JSONDecodeError, corrupt_world)
  /\ exit_code (Raise JSONDecodeError) = 1.
Proof.
  split.
  - apply (proj1 (load_state_fresh_or_fatal (example_env two_coupons true at_2025) (example_world None))).
    reflexivity.
  - apply (proj2 (load_state_fresh_or_fatal (example_env two_coupons true at_2025) corrupt_world)
             (lit "{oops") JSONDecodeError); reflexivity.
Defined.

(** C8 as stated fails: the same coupons and the same (empty) published
    set give coupon 1 when evaluated in 2025 and coupon 2 when evaluated in
    2031, after coupon 1 has expired. *)
Lemma selection_differs_across_expiry :
  fst (select_coupon (example_env expiring_first true at_2025) expiring_first [] []
         (example_world None))
  = Ok ([], [], example_coupon 1 "2024-01-01" (Some "2030-01-01 00:00:00"%string))
  /\ fst (select_coupon (example_env expiring_first true at_2031) expiring_first [] []
            (example_world None))
     = Ok ([], [], example_coupon 2 "2024-01-02" None).
Proof. vm_compute. split; reflexivity. Qed.

(** The amended C8 on two environments that differ in their feed and
    gateway and agree on the clock. *)
Lemma selection_deterministic_witness :
  select_coupon (example_env expiring_first true at_2025) expiring_first [] [] (example_world None)
  = select_coupon (example_env [] false at_2025) expiring_first [] [] (example_world None).
Proof.
  apply selection_deterministic_given_clock. intros i. reflexivity.
Defined.

(** The amended C2 on the run of scenario 2: both coupons are published,
    the gateway confirms. *)
Lemma cycle_reset_in_memory_witness :
  exists w1 cid,
    select_coupon (example_env two_coupons true at_2025) two_coupons [JInt 1; JInt 2]
      [(lit "published_ids", JList [JInt 1; JInt 2]); (lit "last_run", JNull)]
      (example_world (Some (example_state [1; 2])))
    = (Ok ([], dict_set (lit "published_ids") (JList [])
                 [(lit "published_ids", JList [JInt 1; JInt 2]); (lit "last_run", JNull)],
           example_coupon 1 "2024-01-01" None), w1)
    /\ coupon_cid (example_coupon 1 "2024-01-01" None) = Ok cid
    /\ files w1 = files (example_world (Some (example_state [1; 2])))
    /\ forall r w',
         main (example_env two_coupons true at_2025) (example_world (Some (example_state [1; 2])))
         = (r, w') ->
         (r = Raise AttributeError
          /\ sent w' = sent (example_world (Some (example_state [1; 2])))
          /\ files w' = files (example_world (Some (example_state [1; 2]))))
         \/ exists req w2,
              deliver (example_env two_coupons true at_2025)
                (example_coupon 1 "2024-01-01" None) w1
              = (Ok (telegram (example_env two_coupons true at_2025) req), w2)
              /\ sent w' = sent (example_world (Some (example_state [1; 2]))) ++ [req]
              /\ ((confirmed (telegram (example_env two_coupons true at_2025) req) <> Ok true
                   /\ files w' = files (example_world (Some (example_state [1; 2])))
                   /\ exit_code r = 1)
                  \/ (confirmed (telegram (example_env two_coupons true at_2025) req) = Ok true
                      /\ r = Ok tt
                      /\ exists i state',
                           recorded_state [JInt cid]
                             (clock (example_env two_coupons true at_2025) i)
                             (dict_set (lit "published_ids") (JList [])
                                [(lit "published_ids", JList [JInt 1; JInt 2]);
                                 (lit "last_run", JNull)])
                           = JDict state'
                           /\ dict_lookup (lit "published_ids") state' = Some (JList [JInt cid])
                           /\ saved (example_env two_coupons true at_2025) (JDict state')
                                (example_world (Some (example_state [1; 2]))) w')).
Proof.
  apply (cycle_reset_in_memory (example_env two_coupons true at_2025)
           (example_world (Some (example_state [1; 2])))
           [(lit "published_ids", JList [JInt 1; JInt 2]); (lit "last_run", JNull)]
           [JInt 1; JInt 2] two_coupons (example_world (Some (example_state [1; 2])))
           two_coupons (example_world (Some (example_state [1; 2])))
           (example_coupon 1 "2024-01-01" None) [example_coupon 2 "2024-01-02" None]
           (example_world (Some (example_state [1; 2])))).
  - vm_compute. reflexivity.
  - vm_compute. reflexivity.
  - vm_compute. reflexivity.
  - vm_compute. reflexivity.
  - vm_compute. reflexivity.
  - intros x [<-|[<-|[]]]; eexists; split; vm_compute; reflexivity.
Defined.


(** A state file in which a key of its own holds an escaped lone
    surrogate: the file loads, the post is confirmed and the run returns
    normally, but the state cannot be written; the file is left with the
    text before that value, and the next run dies on it. *)
Example surrogate_state_leaves_partial_file :
  fst (load_state (lit "state.json") surrogate_world)
  = Ok (JDict [(lit "published_ids", JList []); (lit "note", JStr [55296%N])])
  /\ fst (main (example_env two_coupons true at_2025) surrogate_world) = Ok tt
  /\ sent (snd (main (example_env two_coupons true at_2025) surrogate_world))
     = [message_for (example_coupon 1 "2024-01-01" None)]
  /\ output (snd (main (example_env two_coupons true at_2025) surrogate_world))
     = [ErrUpdate UnicodeEncodeError]
  /\ files (snd (main (example_env two_coupons true at_2025) surrogate_world))
       !! lit "state.json"
     = Some ([123; 10; 32; 32; 34]%N ++ lit "published_ids" ++ [34; 58; 32; 91; 10]%N
             ++ lit "    1" ++ [10]%N ++ lit "  ]," ++ [10; 32; 32; 34]%N ++ lit "note"
             ++ [34; 58; 32]%N)
  /\ fst (main (example_env two_coupons true at_2025)
            (snd (main (example_env two_coupons true at_2025) surrogate_world)))
     = Raise JSONDecodeError.
Proof. vm_compute. repeat split. Qed.

(** Scenario 1 of the specification: two visible coupons without dates
    and nothing published; the keys are equal and the first one is
    selected. *)
Example scenario_first_wins :
  fst (select_coupon (example_env [] true at_2025)
         [scenario_coupon 1 1 "A" None; scenario_coupon 2 1 "B" None] [] []
         (example_world None))
  = Ok ([], [], scenario_coupon 1 1 "A" None).
Proof. vm_compute. reflexivity. Qed.

(** Scenarios 3 and 4: a visible coupon that expired in 2000 is not valid,
    and neither is a coupon that is not visible, with or without expiry. *)
Example scenario_expired_or_hidden :
  fst (is_valid_coupon (example_env [] true at_2025)
         (scenario_coupon 1 1 "A" (Some "2000-01-01"%string)) (example_world None)) = Ok false
  /\ fst (is_valid_coupon (example_env [] true at_2025)
            (scenario_coupon 1 0 "A" None) (example_world None)) = Ok false
  /\ fst (is_valid_coupon (example_env [] true at_2025)
            (scenario_coupon 1 0 "A" (Some "2030-01-01"%string)) (example_world None)) = Ok false
  /\ fst (is_valid_coupon (example_env [] true at_2025)
            (scenario_coupon 1 1 "A" (Some "2030-01-01"%string)) (example_world None)) = Ok true.
Proof. vm_compute. repeat split. Qed.

(** Scenario 6: an empty feed. *)
Lemma empty_feed_is_noop_witness :
  exists w', main (example_env [] true at_2025) (example_world (Some (example_state [1])))
             = (Raise (SystemExit 0), w')
    /\ files w' = files (example_world (Some (example_state [1])))
    /\ sent w' = sent (example_world (Some (example_state [1])))
    /\ exit_code (fst (main (example_env [] true at_2025)
                         (example_world (Some (example_state [1]))))) = 0.
Proof.
  apply (empty_feed_is_noop (example_env [] true at_2025)
           (example_world (Some (example_state [1])))
           [(lit "published_ids", JList [JInt 1]); (lit "last_run", JNull)] [JInt 1]
           (example_world (Some (example_state [1])))).
  - vm_compute. reflexivity.
  - vm_compute. reflexivity.
  - vm_compute. reflexivity.
Defined.

(** A naive key and a malformed date. *)
Lemma sorted_by_key_mixed_raises_witness :
  exists w', sorted_by_key (example_env malformed_second true at_2025) malformed_second
               (example_world None) = (Raise TypeError, w').
Proof.
  apply (sorted_by_key_mixed_raises (example_env malformed_second true at_2025)
           malformed_second (example_world None)
           (example_coupon 1 "2024-01-01 10:00:00" None) (example_coupon 2 "garbage" None)).
  - left. reflexivity.
  - right. left. reflexivity.
  - vm_compute. reflexivity.
  - vm_compute. reflexivity.
Defined.

(** Two naive keys, given in descending order. *)
Lemma sorted_by_key_ascending_witness :
  exists ks w' r,
    mapM (sort_key (example_env two_coupons true at_2025)) (rev two_coupons) (example_world None)
    = (Ok ks, w')
    /\ sorted_by_key (example_env two_coupons true at_2025) (rev two_coupons) (example_world None)
       = (Ok (map snd r), w')
    /\ Permutation r (combine ks (rev two_coupons))
    /\ Permutation (map snd r) (rev two_coupons)
    /\ StronglySorted key_le r
    /\ (forall t, List.filter (keyed_at t) r
                  = List.filter (keyed_at t) (combine ks (rev two_coupons))).
Proof.
  apply (sorted_by_key_ascending (example_env two_coupons true at_2025)).
  intros a b [<-|[<-|[]]] [<-|[<-|[]]]; vm_compute; reflexivity.
Defined.

(** A nested value. *)
Lemma json_loads_dumps_witness :
  json_loads (json_dumps (JDict [(lit "offers", JList [JInt 3; JStr (lit "a b"); JNull]);
                                 (lit "seen", JBool true)]))
  = Ok (JDict [(lit "offers", JList [JInt 3; JStr (lit "a b"); JNull]); (lit "seen", JBool true)]).
Proof.
  apply json_loads_dumps. apply plain_dict.
  - cbn [map fst]. apply NoDup_cons. split; [|apply NoDup_singleton].
    intros Hin. apply list_elem_of_singleton in Hin. discriminate Hin.
  - repeat constructor.
Defined.

Lemma state_file_ok_example (feed : list json) (ok : bool) (now : Z) (state : json) :
  integer_ids_state state ->
  encodable (json_dumps state) = true ->
  state_file_ok (example_env feed ok now) (example_world (Some state)).
Proof.
  intros Hst He. unfold state_file_ok, example_env, example_world. cbn [files STATE_FILE].
  rewrite lookup_singleton_eq. split; [exact He|].
  exists state. split; [reflexivity | exact Hst].
Qed.

Lemma annotated_state_ok : integer_ids_state annotated_state.
Proof.
  split.
  - apply plain_dict.
    + cbn [map fst]. repeat (apply NoDup_cons; split); try apply NoDup_nil_2;
        intros Hin; repeat (apply elem_of_cons in Hin as [Hin|Hin]; [discriminate Hin|]);
        inversion Hin.
    + repeat constructor.
  - eexists _, [1]. split; reflexivity.
Qed.

(** The run that posts the first of two coupons. *)
Lemma posted_coupon_was_eligible_witness :
  exists c i,
    In c (feed (example_env two_coupons true at_2025))
    /\ (ticks (example_world None) <= i)%nat
    /\ eligible_at (clock (example_env two_coupons true at_2025) i) c
    /\ make_caption c = Ok (caption_of (message_for (example_coupon 1 "2024-01-01" None))).
Proof.
  apply (posted_coupon_was_eligible (example_env two_coupons true at_2025)
           (example_world None)
           (fst (main (example_env two_coupons true at_2025) (example_world None)))
           (snd (main (example_env two_coupons true at_2025) (example_world None)))
           (message_for (example_coupon 1 "2024-01-01" None))).
  - apply pair_eta.
  - vm_compute. reflexivity.
Defined.

(** A feed whose only coupon is not visible. *)
Lemma no_eligible_coupon_is_noop_witness :
  exists w',
    main (example_env [scenario_coupon 1 0 "A" None] true at_2025) (example_world None)
    = (Raise (SystemExit 0), w')
    /\ same_store (example_world None) w'
    /\ exit_code (fst (main (example_env [scenario_coupon 1 0 "A" None] true at_2025)
                         (example_world None))) = 0.
Proof.
  apply (no_eligible_coupon_is_noop (example_env [scenario_coupon 1 0 "A" None] true at_2025)
           (example_world None)
           [(lit "published_ids", JList []); (lit "last_run", JNull)] []).
  - reflexivity.
  - reflexivity.
  - intros c i [<-|[]] (d & Hd & Hv & _). injection Hd as <-. vm_compute in Hv.
    discriminate Hv.
Defined.

(** The second of two coupons is selected when the first is published. *)
Lemma select_coupon_first_unposted_witness :
  exists valid wa vs wb pre post cid,
    filterM (is_valid_coupon (example_env two_coupons true at_2025)) two_coupons
      (example_world None) = (Ok valid, wa)
    /\ sorted_by_key (example_env two_coupons true at_2025) valid wa = (Ok vs, wb)
    /\ vs = pre ++ example_coupon 2 "2024-01-02" None :: post
    /\ all_published [JInt 1] pre
    /\ coupon_cid (example_coupon 2 "2024-01-02" None) = Ok cid
    /\ ((set_mem (JInt cid) [JInt 1] = false /\ [JInt 1] = [JInt 1] /\ @nil (list N * json) = [])
        \/ (pre = [] /\ all_published [JInt 1] (example_coupon 2 "2024-01-02" None :: post)
            /\ [JInt 1] = [] /\ [] = dict_set (lit "published_ids") (JList []) [])).
Proof.
  apply (select_coupon_first_unposted (example_env two_coupons true at_2025) two_coupons
           [JInt 1] [] (example_world None) [JInt 1] [] (example_coupon 2 "2024-01-02" None)
           (example_world None)).
  vm_compute. reflexivity.
Defined.

(** A feed whose only coupon has the identifier [abc]. *)
Lemma unreadable_id_stops_run_witness :
  main (example_env [unreadable_coupon] true at_2025) (example_world None)
  = (Raise ValueError, example_world None)
  /\ same_store (example_world None) (example_world None)
  /\ exit_code (Raise ValueError) = 1.
Proof.
  apply (unreadable_id_stops_run (example_env [unreadable_coupon] true at_2025)
           (example_world None) [(lit "published_ids", JList []); (lit "last_run", JNull)] []
           [unreadable_coupon] (example_world None) [unreadable_coupon] (example_world None)
           [] unreadable_coupon [] (example_world None) ValueError).
  - reflexivity.
  - reflexivity.
  - reflexivity.
  - vm_compute. reflexivity.
  - vm_compute. reflexivity.
  - intros x [].
  - vm_compute. reflexivity.
Defined.

(** A feed whose only coupon has a null store. *)
Lemma store_not_mapping_stops_run_witness :
  main (example_env [JDict storeless_coupon] true at_2025) (example_world None)
  = (Raise AttributeError, example_world None)
  /\ same_store (example_world None) (example_world None)
  /\ exit_code (fst (main (example_env [JDict storeless_coupon] true at_2025)
                       (example_world None))) = 1.
Proof.
  apply (store_not_mapping_stops_run (example_env [JDict storeless_coupon] true at_2025)
           (example_world None) [(lit "published_ids", JList []); (lit "last_run", JNull)] []
           [JDict storeless_coupon] (example_world None) []
           [(lit "published_ids", JList []); (lit "last_run", JNull)] storeless_coupon JNull
           (example_world None)).
  - reflexivity.
  - reflexivity.
  - reflexivity.
  - vm_compute. reflexivity.
  - reflexivity.
  - reflexivity.
Defined.

(** The logo of the store is preferred to the logo of the coupon. *)
Lemma deliver_request_witness :
  exists caption w',
    make_caption (JDict branded_coupon) = Ok caption
    /\ deliver (example_env [] true at_2025) (JDict branded_coupon) (example_world None)
       = (Ok (telegram (example_env [] true at_2025)
                (if truthy (dict_get (lit "logo_url") JNull
                              [(lit "logo_url", JStr (lit "https://cdn.example/store.png"))])
                 then SendPhoto (dict_get (lit "logo_url") JNull
                                   [(lit "logo_url", JStr (lit "https://cdn.example/store.png"))])
                        caption
                 else if truthy (dict_get (lit "logo_url") JNull branded_coupon)
                 then SendPhoto (dict_get (lit "logo_url") JNull branded_coupon) caption
                 else SendMessage caption)), w')
    /\ sent w' = sent (example_world None)
         ++ [if truthy (dict_get (lit "logo_url") JNull
                          [(lit "logo_url", JStr (lit "https://cdn.example/store.png"))])
             then SendPhoto (dict_get (lit "logo_url") JNull
                               [(lit "logo_url", JStr (lit "https://cdn.example/store.png"))])
                    caption
             else if truthy (dict_get (lit "logo_url") JNull branded_coupon)
             then SendPhoto (dict_get (lit "logo_url") JNull branded_coupon) caption
             else SendMessage caption]
    /\ files w' = files (example_world None).
Proof.
  apply (deliver_request (example_env [] true at_2025) branded_coupon
           [(lit "logo_url", JStr (lit "https://cdn.example/store.png"))] (example_world None)).
  reflexivity.
Defined.

(** The run that posts the first of two coupons, confirmed. *)
Lemma confirmed_post_exits_zero_witness :
  fst (main (example_env two_coupons true at_2025) (example_world None)) = Ok tt
  /\ ((exists state',
         saved (example_env two_coupons true at_2025) (JDict state') (example_world None)
           (snd (main (example_env two_coupons true at_2025) (example_world None))))
      \/ (files (snd (main (example_env two_coupons true at_2025) (example_world None)))
          = files (example_world None)
          /\ exists out,
               output (snd (main (example_env two_coupons true at_2025) (example_world None)))
               = out ++ [ErrUpdate TypeError])).
Proof.
  apply (confirmed_post_exits_zero (example_env two_coupons true at_2025) (example_world None)
           _ _ (message_for (example_coupon 1 "2024-01-01" None))).
  - apply pair_eta.
  - vm_compute. reflexivity.
  - vm_compute. reflexivity.
Defined.

(** A run from a state file with a key of its own. *)
Lemma main_keeps_state_loadable_witness :
  state_file_ok (example_env two_coupons true at_2025)
    (snd (main (example_env two_coupons true at_2025) (example_world (Some annotated_state))))
  /\ exists state,
       load_state (STATE_FILE (example_env two_coupons true at_2025))
         (snd (main (example_env two_coupons true at_2025)
                 (example_world (Some annotated_state))))
       = (Ok state, snd (main (example_env two_coupons true at_2025)
                           (example_world (Some annotated_state))))
       /\ integer_ids_state state.
Proof.
  apply (main_keeps_state_loadable (example_env two_coupons true at_2025)
           (example_world (Some annotated_state))
           (fst (main (example_env two_coupons true at_2025)
                   (example_world (Some annotated_state))))).
  - apply state_file_ok_example; [apply annotated_state_ok | reflexivity].
  - apply pair_eta.
Defined.

Lemma recorded_state_keeps_other_keys_witness :
  exists state0 state' i,
    load_state (STATE_FILE (example_env two_coupons true at_2025))
      (example_world (Some annotated_state))
    = (Ok (JDict state0), example_world (Some annotated_state))
    /\ load_state (STATE_FILE (example_env two_coupons true at_2025))
         (snd (main (example_env two_coupons true at_2025)
                 (example_world (Some annotated_state))))
       = (Ok (JDict state'), snd (main (example_env two_coupons true at_2025)
                                    (example_world (Some annotated_state))))
    /\ ticks (snd (main (example_env two_coupons true at_2025)
                     (example_world (Some annotated_state)))) = S i
    /\ dict_lookup (lit "last_run") state'
       = Some (JStr (isoformat (clock (example_env two_coupons true at_2025) i)))
    /\ forall k, k <> lit "published_ids" -> k <> lit "last_run" ->
         dict_lookup k state' = dict_lookup k state0.
Proof.
  apply (recorded_state_keeps_other_keys (example_env two_coupons true at_2025)
           (example_world (Some annotated_state))).
  - apply state_file_ok_example; [apply annotated_state_ok | reflexivity].
  - vm_compute. reflexivity.
Defined.


(** A state file that lists the string [x]: the coupon is posted and not
    recorded. *)
Lemma unsortable_ids_lose_record_witness :
  fst (main (example_env two_coupons true at_2025) (example_world (Some string_ids_state)))
  = Ok tt
  /\ ((files (snd (main (example_env two_coupons true at_2025)
                     (example_world (Some string_ids_state))))
       = files (example_world (Some string_ids_state))
       /\ exists out,
            output (snd (main (example_env two_coupons true at_2025)
                           (example_world (Some string_ids_state))))
            = out ++ [ErrUpdate TypeError])
      \/ exists p0 w0 s c w1 w2 cid state',
           fetch_coupons (example_env two_coupons true at_2025)
             (example_world (Some string_ids_state))
           = (Ok (feed (example_env two_coupons true at_2025)), w0)
           /\ select_coupon (example_env two_coupons true at_2025)
                (feed (example_env two_coupons true at_2025)) p0
                [(lit "published_ids", JList [JStr (lit "x")]); (lit "last_run", JNull)] w0
              = (Ok ([], s, c), w1)
           /\ deliver (example_env two_coupons true at_2025) c w1
              = (Ok (telegram (example_env two_coupons true at_2025)
                       (message_for (example_coupon 1 "2024-01-01" None))), w2)
           /\ coupon_cid c = Ok cid
           /\ dict_lookup (lit "published_ids") state' = Some (JList [JInt cid])
           /\ saved (example_env two_coupons true at_2025) (JDict state')
                (example_world (Some string_ids_state))
                (snd (main (example_env two_coupons true at_2025)
                        (example_world (Some string_ids_state))))).
Proof.
  apply (unsortable_ids_lose_record (example_env two_coupons true at_2025)
           (example_world (Some string_ids_state)) _ _
           [(lit "published_ids", JList [JStr (lit "x")]); (lit "last_run", JNull)]
           [JStr (lit "x")] (lit "x") (message_for (example_coupon 1 "2024-01-01" None))).
  - vm_compute. reflexivity.
  - reflexivity.
  - left. reflexivity.
  - apply pair_eta.
  - vm_compute. reflexivity.
  - vm_compute. reflexivity.
Defined.

(** Two eligible coupons, no state file and a gateway that confirms. *)
Lemma main_posts_when_possible_witness :
  exists w' req state',
    main (example_env two_coupons true at_2025) (example_world None) = (Ok tt, w')
    /\ sent w' = sent (example_world None) ++ [req]
    /\ files w' = <[STATE_FILE (example_env two_coupons true at_2025)
                    := json_dumps (JDict state')]> (files (example_world None)).
Proof.
  apply (main_posts_when_possible (example_env two_coupons true at_2025) (example_world None)).
  - exact I.
  - exists (example_coupon 1 "2024-01-01" None). split; [left; reflexivity|].
    intros i. eexists. split; [reflexivity|]. split; [reflexivity|]. left. reflexivity.
  - intros a b [<-|[<-|[]]] [<-|[<-|[]]]; reflexivity.
  - intros d [Hd|[Hd|[]]]; injection Hd as <-; split; eexists; reflexivity.
  - intros req. reflexivity.
Defined.

(** A state file that holds a list, and one whose [published_ids] is a
    number. *)
Lemma malformed_state_is_fatal_witness :
  main (example_env two_coupons true at_2025) (example_world (Some (JList [])))
  = (Raise AttributeError, example_world (Some (JList [])))
  /\ exit_code (Raise AttributeError) = 1.
Proof.
  apply (malformed_state_is_fatal (example_env two_coupons true at_2025)
           (example_world (Some (JList []))) (JList []) AttributeError).
  - reflexivity.
  - left. reflexivity.
Defined.

(** Two coupons without identifier: the first is selected. *)
Lemma shared_id_selects_first_only_witness :
  exists valid wa vs wb pre post,
    filterM (is_valid_coupon (example_env [] true at_2025))
      [JDict [(lit "is_visible", JInt 1); (lit "title", JStr (lit "A"))];
       JDict [(lit "is_visible", JInt 1); (lit "title", JStr (lit "B"))]]
      (example_world None) = (Ok valid, wa)
    /\ sorted_by_key (example_env [] true at_2025) valid wa = (Ok vs, wb)
    /\ vs = pre ++ JDict [(lit "is_visible", JInt 1); (lit "title", JStr (lit "A"))] :: post
    /\ forall x, In x pre ->
         coupon_cid x
         <> coupon_cid (JDict [(lit "is_visible", JInt 1); (lit "title", JStr (lit "A"))]).
Proof.
  apply (shared_id_selects_first_only (example_env [] true at_2025)
           [JDict [(lit "is_visible", JInt 1); (lit "title", JStr (lit "A"))];
            JDict [(lit "is_visible", JInt 1); (lit "title", JStr (lit "B"))]]
           [] [] (example_world None) [] [] _ (example_world None)).
  vm_compute. reflexivity.
Defined.


(** Two coupons and a gateway that answers with [ok] false; the next run,
    six years later, has a gateway that confirms. *)
Lemma failed_delivery_is_retried_witness :
  exists r' w'',
    @main (with_parser parse_in_2025) (example_env two_coupons true at_2031)
      (snd (main (example_env two_coupons false at_2025) (example_world None))) = (r', w'')
    /\ sent w''
       = sent (snd (main (example_env two_coupons false at_2025) (example_world None)))
         ++ [message_for (example_coupon 1 "2024-01-01" None)]
    /\ (confirmed (telegram (example_env two_coupons true at_2031)
                     (message_for (example_coupon 1 "2024-01-01" None))) = Ok true ->
        r' = Ok tt)
    /\ (confirmed (telegram (example_env two_coupons true at_2031)
                     (message_for (example_coupon 1 "2024-01-01" None))) <> Ok true ->
        files w'' = files (example_world None) /\ exit_code r' = 1).
Proof.
  apply (failed_delivery_is_retried (example_env two_coupons false at_2025)
           (example_env two_coupons true at_2031) parse_in_2025 (example_world None)
           (fst (main (example_env two_coupons false at_2025) (example_world None)))).
  - reflexivity.
  - reflexivity.
  - intros c i [<-|[<-|[]]]; split; eexists; (split; [reflexivity|]); (split; [reflexivity|]);
      left; reflexivity.
  - intros d [Hd|[Hd|[]]]; injection Hd as <-; eexists; split; reflexivity.
  - apply pair_eta.
  - vm_compute. reflexivity.
  - vm_compute. discriminate.
Defined.

(** A coupon that expires in 2030, accepted by a run of 2025 whose parser
    completes a time of day, and so by a run that is not later. *)
Lemma validity_is_never_regained_witness :
  fst (is_valid_coupon
         {| clock := fun i => at_2025 + Z.of_nat i; api_get := None;
            telegram := fun _ => None; git_ok := true; STATE_FILE := lit "state.json" |}
         (example_coupon 1 "2024-01-01" (Some "2030-01-01 00:00:00"%string))
         (example_world None)) = Ok true.
Proof.
  apply (validity_is_never_regained _
           {| clock := fun i => at_2025 + Z.of_nat i; api_get := None;
              telegram := fun _ => Some JNull; git_ok := false; STATE_FILE := lit "s.json" |}
           parse_in_2025 _ (example_world None)
           {| files := ∅; ticks := 7; output := []; sent := []; pushed := [] |}).
  - vm_compute. discriminate.
  - intros d s Hd Hs. injection Hd as <-. vm_compute in Hs. injection Hs as <-. reflexivity.
  - vm_compute. reflexivity.
Defined.
End Examples.
